(** * A reminder bot: duration parsing, the per-chat registry and the
      fire / cancel / list handlers of [bot.py]

    The development embeds the functions of [src/bot.py] as Rocq functions.

    - A Python [str] is a [string]: the UTF-8 bytes of the text.  Character
      classes of the regular expression ([\d], [\s], the unit letters) and
      [str.strip] are modelled on the ASCII range; [str.lower] covers ASCII
      and the Russian alphabet the bot's keywords are written in.
    - A [timedelta] is its number of microseconds, a [datetime] the number
      of microseconds since 0001-01-01T00:00; both are bounded types in
      Python, and the constructors that can leave the range raise
      [OverflowError] here as they do there.
    - Readings of the clock ([datetime.now()], [time.time()]) and what the
      Bot API answers are inputs of the handlers.
    - [chat_data[...]["jobs"]] is an insertion-ordered dictionary; job
      objects live in the job queue and are referred to by handle, so the
      dictionary a job carries ([job.data]) and the record stored in the
      registry are two distinct objects, as in the source.
    - An update carries a message and the application has a job queue
      ([main] builds it with one), so the early returns on a missing
      message or queue are not modelled.  The float [total_seconds()]
      returns is taken as exact. *)

From Stdlib Require Import ZArith Lia List Ascii String Permutation.
From stdpp Require Import base option list gmap strings pretty.

Local Open Scope string_scope.
Local Open Scope Z_scope.

(** ** Exceptions and results *)

Inductive exn : Type :=
  | OverflowError
  | AttributeError
  | TelegramError.

Inductive result (A : Type) : Type :=
  | Ok (a : A)
  | Raise (e : exn).
Arguments Ok {A} a.
Arguments Raise {A} e.

Definition rbind {A B : Type} (r : result A) (k : A -> result B) : result B :=
  match r with
  | Ok a => k a
  | Raise e => Raise e
  end.

Notation "x <- r ;; k" := (rbind r (fun x => k))
  (at level 100, r at next level, right associativity, only parsing).

(** ** Text *)

Module Text.

Definition code (c : ascii) : N := N_of_ascii c.

(** [\d] on ASCII text. *)
Definition is_digit (c : ascii) : bool :=
  (48 <=? code c)%N && (code c <=? 57)%N.

(** [\s] and [str.isspace] on ASCII text: tab, LF, VT, FF, CR, the four
    separators 0x1c-0x1f and the space. *)
Definition is_space (c : ascii) : bool :=
  ((9 <=? code c)%N && (code c <=? 13)%N)
  || ((28 <=? code c)%N && (code c <=? 32)%N).

Definition digit_value (c : ascii) : Z := Z.of_N (code c) - 48.

(** [int(value)] for a run of decimal digits. *)
Definition int_of_digits (s : string) : Z :=
  fold_left (fun acc c => 10 * acc + digit_value c) (list_ascii_of_string s) 0.

Definition lower_ascii (c : ascii) : ascii :=
  if (65 <=? code c)%N && (code c <=? 90)%N
  then ascii_of_N (code c + 32) else c.

(** [str.lower] on UTF-8 text.  ASCII capitals move by 32. The Cyrillic
    capitals are two-byte sequences: U+0410..U+041F (D0 90..9F) go to
    D0 B0..BF, U+0420..U+042F (D0 A0..AF) to D1 80..8F and
    U+0400..U+040F (D0 80..8F) to D1 90..9F. *)
Fixpoint lower (s : string) : string :=
  match s with
  | EmptyString => EmptyString
  | String c s' =>
      if (code c =? 208)%N then
        match s' with
        | String d s'' =>
            if (144 <=? code d)%N && (code d <=? 159)%N
            then String c (String (ascii_of_N (code d + 32)) (lower s''))
            else if (160 <=? code d)%N && (code d <=? 175)%N
            then String (ascii_of_N 209)
                        (String (ascii_of_N (code d - 32)) (lower s''))
            else if (128 <=? code d)%N && (code d <=? 143)%N
            then String (ascii_of_N 209)
                        (String (ascii_of_N (code d + 16)) (lower s''))
            else String c (lower s')
        | EmptyString => String c EmptyString
        end
      else String (lower_ascii c) (lower s')
  end.

(** The longest prefix whose characters satisfy [p], and the rest. *)
Fixpoint span (p : ascii -> bool) (s : string) : string * string :=
  match s with
  | EmptyString => (EmptyString, EmptyString)
  | String c s' =>
      if p c then let '(a, b) := span p s' in (String c a, b)
      else (EmptyString, s)
  end.

Fixpoint lstrip_with (p : ascii -> bool) (s : string) : string :=
  match s with
  | EmptyString => EmptyString
  | String c s' => if p c then lstrip_with p s' else s
  end.

Definition rstrip_with (p : ascii -> bool) (s : string) : string :=
  String.rev (lstrip_with p (String.rev s)).

(** [s.strip()] *)
Definition strip (s : string) : string :=
  rstrip_with is_space (lstrip_with is_space s).

(** [s.lstrip("@")] *)
Definition lstrip_at (s : string) : string :=
  lstrip_with (fun c => (code c =? 64)%N) s.

(** [s.startswith("@")] *)
Definition startswith_at (s : string) : bool :=
  match s with
  | String c _ => (code c =? 64)%N
  | EmptyString => false
  end.

(** [sep.join(parts)] *)
Fixpoint join (sep : string) (parts : list string) : string :=
  match parts with
  | [] => EmptyString
  | [p] => p
  | p :: ps => p +:+ sep +:+ join sep ps
  end.

Definition nl : string := String (ascii_of_N 10) EmptyString.
Definition dquote : string := String (ascii_of_N 34) EmptyString.

(** [html.escape(s)] with its default [quote=True]. *)
Fixpoint html_escape (s : string) : string :=
  match s with
  | EmptyString => EmptyString
  | String c s' =>
      let rest := html_escape s' in
      if (code c =? 38)%N then "&amp;" +:+ rest
      else if (code c =? 60)%N then "&lt;" +:+ rest
      else if (code c =? 62)%N then "&gt;" +:+ rest
      else if (code c =? 34)%N then "&quot;" +:+ rest
      else if (code c =? 39)%N then "&#x27;" +:+ rest
      else String c rest
  end.

(** Truth value of a [str]. *)
Definition nonempty (s : string) : bool :=
  match s with EmptyString => false | _ => true end.

End Text.

(** ** Durations and instants *)

Abbreviation timedelta := Z.
Abbreviation datetime := Z.

Module Time.

Definition us_per_second : Z := 1000000.

(** [timedelta.max.days] *)
Definition max_delta_days : Z := 999999999.

(** [timedelta(seconds=n)]: the constructor normalises to days, seconds
    and microseconds and refuses more than [max_delta_days] days. *)
Definition timedelta_of_seconds (n : Z) : result timedelta :=
  if Z.abs (n / 86400) <=? max_delta_days
  then Ok (n * us_per_second)
  else Raise OverflowError.

(** [int(delta.total_seconds())]: truncation toward zero. *)
Definition total_seconds_int (d : timedelta) : Z := Z.quot d us_per_second.

(** [date.max.toordinal()]: days from 0001-01-01 to 9999-12-31. *)
Definition max_ordinal : Z := 3652059.

(** [datetime.max], in microseconds since [datetime.min]. *)
Definition datetime_max : Z := max_ordinal * 86400 * us_per_second - 1.

Definition valid_datetime (t : datetime) : Prop := 0 <= t <= datetime_max.

(** [t + d] on a [datetime] and a [timedelta]. *)
Definition datetime_add (t : datetime) (d : timedelta) : result datetime :=
  if (0 <=? t + d) && (t + d <=? datetime_max)
  then Ok (t + d)
  else Raise OverflowError.

(** Truth value of an [Optional[timedelta]]: [None] and [timedelta(0)]
    are false. *)
Definition truthy (o : option timedelta) : bool :=
  match o with
  | Some d => negb (d =? 0)
  | None => false
  end.

End Time.

(** ** [parse_duration] *)

(** One match of [(\d+)\s*([smhd])] at the head of [s]: the digits, the
    unit letter and the length of the match.  Both quantifiers are greedy;
    giving a digit or a blank back never helps, because the character the
    unit class would then have to accept is that digit or blank.  The
    unit class is read on ASCII letters; when case is ignored it also
    admits the long s (U+017F), a pair the loop of [parse_duration]
    adds nothing for, since [unit.lower()] leaves it as it is.  Such a
    pair is no match here: it is absent from the list of matches, and
    what [parse_duration] returns is the same with it and without. *)
Definition DURATION_RE_unit (c : ascii) : bool :=
  let l := Text.lower_ascii c in
  bool_decide (l = "s"%char) || bool_decide (l = "m"%char)
  || bool_decide (l = "h"%char) || bool_decide (l = "d"%char).

Definition DURATION_RE_match (s : string) : option ((string * ascii) * nat) :=
  let '(digits, r1) := Text.span Text.is_digit s in
  match digits with
  | EmptyString => None
  | _ =>
      let '(blanks, r2) := Text.span Text.is_space r1 in
      match r2 with
      | String u _ =>
          if DURATION_RE_unit u
          then Some ((digits, u), (String.length digits + String.length blanks + 1)%nat)
          else None
      | EmptyString => None
      end
  end.

(** [_DURATION_RE.findall(spec)]: the matches from left to right, not
    overlapping.  [skip] counts the characters still covered by the last
    match. *)
Fixpoint DURATION_RE_scan (skip : nat) (s : string) : list (string * ascii) :=
  match s with
  | EmptyString => []
  | String _ s' =>
      match skip with
      | S k => DURATION_RE_scan k s'
      | O =>
          match DURATION_RE_match s with
          | Some (m, len) => m :: DURATION_RE_scan (len - 1) s'
          | None => DURATION_RE_scan 0 s'
          end
      end
  end.

Definition DURATION_RE_findall (s : string) : list (string * ascii) :=
  DURATION_RE_scan 0 s.

(** The body of the [for value, unit in matches] loop. *)
Definition parse_duration_step (total_seconds : Z) (m : string * ascii) : Z :=
  let '(value, unit) := m in
  let amount := Text.int_of_digits value in
  let u := Text.lower (String unit EmptyString) in
  if String.eqb u "s" then total_seconds + amount
  else if String.eqb u "m" then total_seconds + amount * 60
  else if String.eqb u "h" then total_seconds + amount * 3600
  else if String.eqb u "d" then total_seconds + amount * 86400
  else total_seconds.

Definition parse_duration (spec : string) : result (option timedelta) :=
  let matches := DURATION_RE_findall spec in
  match matches with
  | [] => Ok None
  | _ =>
      let total_seconds := fold_left parse_duration_step matches 0 in
      if total_seconds <=? 0 then Ok None
      else d <- Time.timedelta_of_seconds total_seconds ;; Ok (Some d)
  end.

(** ** [humanize_delta] *)

Definition humanize_units : list (Z * string) :=
  [(86400, "d"); (3600, "h"); (60, "m"); (1, "s")].

(** One turn of the loop: [value, seconds = divmod(seconds, unit_seconds)]
    and the conditional [parts.append]. *)
Definition humanize_step (acc : Z * list string) (u : Z * string)
  : Z * list string :=
  let '(seconds, parts) := acc in
  let '(unit_seconds, suffix) := u in
  let value := seconds / unit_seconds in
  let seconds' := seconds mod unit_seconds in
  if value =? 0 then (seconds', parts)
  else (seconds', (parts ++ [pretty value +:+ suffix])%list).

Definition humanize_delta (delta : timedelta) : string :=
  let seconds := Time.total_seconds_int delta in
  let '(_, parts) := fold_left humanize_step humanize_units (seconds, []) in
  match parts with
  | [] => "0s"
  | _ => Text.join " " parts
  end.







(** ** [datetime.strptime] for the two formats of [_DATETIME_FORMATS]

    [parse_datetime_spec] and the handlers below take the library function
    as a parameter [strptime value fmt], [None] standing for [ValueError].
    This module is a reference model of it for the two formats the bot
    uses, following the regular expressions [_strptime] builds:
    [%Y] is [\d\d\d\d], [%m] is [1[0-2]|0[1-9]|[1-9]], [%d] is
    [3[0-1]|[1-2]\d|0[1-9]|[1-9]| [1-9]], [%H] is [2[0-3]|[0-1]\d|\d],
    [%M] is [[0-5]\d|\d], a blank of the format is [\s+], and letters match
    without regard to case.  A parser returns its successes in the order a
    backtracking matcher tries them; [strptime] takes the first match of
    the whole pattern and fails when input remains after it. *)

Module Strptime.

Definition parser (A : Type) : Type := string -> list (A * string).

Definition ret {A : Type} (a : A) : parser A := fun s => [(a, s)].

Definition bind {A B : Type} (p : parser A) (k : A -> parser B) : parser B :=
  fun s => flat_map (fun '(a, r) => k a r) (p s).

Definition alt {A : Type} (p q : parser A) : parser A :=
  fun s => (p s ++ q s)%list.

Definition satisfy (f : ascii -> bool) : parser ascii :=
  fun s =>
    match s with
    | String c s' => if f c then [(c, s')] else []
    | EmptyString => []
    end.

(** A digit whose value lies in [lo..hi]. *)
Definition digit (lo hi : Z) : parser Z :=
  bind (satisfy (fun c => Text.is_digit c
                          && (lo <=? Text.digit_value c)
                          && (Text.digit_value c <=? hi)))
       (fun c => ret (Text.digit_value c)).

Definition literal (l : ascii) : parser unit :=
  bind (satisfy (fun c => bool_decide (Text.lower_ascii c = Text.lower_ascii l)))
       (fun _ => ret tt).

Definition pair_of (lo1 hi1 lo2 hi2 : Z) : parser Z :=
  bind (digit lo1 hi1) (fun a => bind (digit lo2 hi2) (fun b => ret (10 * a + b))).

Definition directive_Y : parser Z :=
  bind (digit 0 9) (fun a => bind (digit 0 9) (fun b =>
  bind (digit 0 9) (fun c => bind (digit 0 9) (fun d =>
  ret (1000 * a + 100 * b + 10 * c + d))))).

Definition directive_m : parser Z :=
  alt (pair_of 1 1 0 2) (alt (pair_of 0 0 1 9) (digit 1 9)).

Definition directive_d : parser Z :=
  alt (pair_of 3 3 0 1) (alt (pair_of 1 2 0 9) (alt (pair_of 0 0 1 9)
    (alt (digit 1 9) (bind (literal " ") (fun _ => digit 1 9))))).

Definition directive_H : parser Z :=
  alt (pair_of 2 2 0 3) (alt (pair_of 0 1 0 9) (digit 0 9)).

Definition directive_M : parser Z :=
  alt (pair_of 0 5 0 9) (digit 0 9).

(** [\s+], greedy: the longest run first. *)
Fixpoint blanks (s : string) : list (unit * string) :=
  match s with
  | String c s' =>
      if Text.is_space c then (blanks s' ++ [(tt, s')])%list else []
  | EmptyString => []
  end.

Definition is_leap (year : Z) : bool :=
  (year mod 4 =? 0) && (negb (year mod 100 =? 0) || (year mod 400 =? 0)).

Definition days_in_month (year month : Z) : Z :=
  if month =? 2 then (if is_leap year then 29 else 28)
  else if (month =? 4) || (month =? 6) || (month =? 9) || (month =? 11)
  then 30 else 31.

Definition days_before_year (year : Z) : Z :=
  let y := year - 1 in y * 365 + y / 4 - y / 100 + y / 400.

Fixpoint days_before_month_go (year : Z) (m : nat) : Z :=
  match m with
  | O => 0
  | S k => days_before_month_go year k + days_in_month year (Z.of_nat (S k))
  end.

Definition days_before_month (year month : Z) : Z :=
  days_before_month_go year (Z.to_nat (month - 1)).

(** [date(year, month, day).toordinal()] *)
Definition ymd2ord (year month day : Z) : Z :=
  days_before_year year + days_before_month year month + day.

(** [datetime(year, month, day, hour, minute)], [None] for the
    [ValueError] of a year 0 or a day the month does not have. *)
Definition make_datetime (year month day hour minute : Z) : option datetime :=
  if (1 <=? year) && (1 <=? day) && (day <=? days_in_month year month)
  then Some (((ymd2ord year month day - 1) * 86400 + hour * 3600 + minute * 60)
             * Time.us_per_second)
  else None.

Definition fields (sep : parser unit) : parser (option datetime) :=
  bind directive_Y (fun y => bind (literal "-") (fun _ =>
  bind directive_m (fun m => bind (literal "-") (fun _ =>
  bind directive_d (fun d => bind sep (fun _ =>
  bind directive_H (fun h => bind (literal ":") (fun _ =>
  bind directive_M (fun mi => ret (make_datetime y m d h mi)))))))))).

Definition run (p : parser (option datetime)) (value : string) : option datetime :=
  match p value with
  | (dt, EmptyString) :: _ => dt
  | _ => None
  end.

Definition strptime (value fmt : string) : option datetime :=
  if String.eqb fmt "%Y-%m-%d %H:%M" then run (fields blanks) value
  else if String.eqb fmt "%Y-%m-%dT%H:%M" then run (fields (literal "T")) value
  else None.

End Strptime.









(** ** [parse_datetime_spec] *)

Definition DATETIME_FORMATS : list string :=
  ["%Y-%m-%d %H:%M"; "%Y-%m-%dT%H:%M"].

Section DatetimeSpec.

(** [datetime.strptime], [None] for [ValueError]. *)
Variable strptime : string -> string -> option datetime.

(** The inner [for fmt in _DATETIME_FORMATS] loop: the first format
    that parses [value]. *)
Fixpoint try_formats (value : string) (fmts : list string) : option datetime :=
  match fmts with
  | [] => None
  | fmt :: fmts' =>
      match strptime value fmt with
      | Some dt => Some dt
      | None => try_formats value fmts'
      end
  end.

(** The outer [for value, consumed in candidates] loop. *)
Fixpoint try_candidates (candidates : list (string * nat))
  : option (datetime * nat) :=
  match candidates with
  | [] => None
  | (value, consumed) :: rest =>
      match try_formats value DATETIME_FORMATS with
      | Some dt => Some (dt, consumed)
      | None => try_candidates rest
      end
  end.

Definition parse_datetime_spec (tokens : list string)
  : option (datetime * nat) :=
  match tokens with
  | [] => None
  | t0 :: rest =>
      let candidates :=
        match rest with
        | t1 :: _ => [(t0, 1%nat); (t0 +:+ " " +:+ t1, 2%nat)]
        | [] => [(t0, 1%nat)]
        end in
      try_candidates candidates
  end.

End DatetimeSpec.



(** ** Targets *)

Record User : Type := {
  user_id : Z;
  username : option string;
  full_name : string;
  (** what [user.mention_html()] returns *)
  mention_html : string
}.

Definition format_target_mention (user : option User) (fallback : string)
  : string :=
  match user with
  | Some u => mention_html u
  | None =>
      let cleaned := Text.strip fallback in
      let cleaned :=
        if Text.startswith_at cleaned then cleaned else "@" +:+ cleaned in
      Text.html_escape cleaned
  end.

Definition normalize_target_label (label : option string)
  : option string * bool :=
  match label with
  | None => (None, false)
  | Some l =>
      if negb (Text.nonempty l) then (None, false)
      else
        let stripped := Text.strip (Text.lstrip_at l) in
        let low := Text.lower stripped in
        if String.eqb low "all" || String.eqb low "всем"
        then (Some "всех", true)
        else (Some l, false)
  end.

Definition REPEAT_KEYWORDS : list string :=
  ["every"; "repeat"; "каждый"; "каждые"].



(** ** Insertion-ordered dictionaries with [str] keys *)

Module Dict.
Section Dict.
Context {V : Type}.

Fixpoint get (k : string) (d : list (string * V)) : option V :=
  match d with
  | [] => None
  | (k', v) :: d' => if String.eqb k k' then Some v else get k d'
  end.

(** [d[k] = v]: a known key keeps its place, a new one goes last. *)
Fixpoint set (k : string) (v : V) (d : list (string * V))
  : list (string * V) :=
  match d with
  | [] => [(k, v)]
  | (k', v') :: d' =>
      if String.eqb k k' then (k', v) :: d' else (k', v') :: set k v d'
  end.

Fixpoint remove (k : string) (d : list (string * V)) : list (string * V) :=
  match d with
  | [] => []
  | (k', v') :: d' =>
      if String.eqb k k' then d' else (k', v') :: remove k d'
  end.

(** [d.pop(k, None)]: the value found, and the dictionary afterwards. *)
Definition pop (k : string) (d : list (string * V))
  : option V * list (string * V) :=
  (get k d, remove k d).

Definition keys (d : list (string * V)) : list string := map fst d.
Definition values (d : list (string * V)) : list V := map snd d.
End Dict.
End Dict.

(** ** Jobs, the registry and the state of the application *)

(** The dictionary passed as [data=] to the job queue. *)
Record JobData : Type := {
  jd_chat_id : Z;
  jd_mention : option string;
  jd_text : string;
  jd_reply_to : option Z;
  jd_due_at : datetime;
  jd_repeat_interval : option timedelta
}.

Inductive Payload : Type :=
  | ReminderData (d : JobData)
  | MessageRef (chat_id message_id : Z).

Inductive Callback : Type :=
  | cb_send_reminder
  | cb_delete_message_job.

Inductive Trigger : Type :=
  | Once (when : timedelta)
  | Repeating (interval first : timedelta).

Record Job : Type := {
  job_callback : Callback;
  job_name : string;
  job_data : Payload;
  job_trigger : Trigger
}.

(** The record stored in [chat_data["jobs"][job_id]]; [ri_job] is the
    handle of the job object. *)
Record ReminderInfo : Type := {
  ri_job : nat;
  ri_target : option string;
  ri_text : string;
  ri_due_at : datetime;
  ri_repeat_interval : option timedelta
}.

(** [chat_data] maps a chat to its ["jobs"] dictionary (no entry: the key
    was never set); [job_queue] holds the armed jobs by handle;
    [next_handle] numbers job objects, so that no handle is used twice. *)
Record State : Type := {
  chat_data : gmap Z (list (string * ReminderInfo));
  job_queue : gmap nat Job;
  next_handle : nat
}.

Definition initial_state : State :=
  {| chat_data := ∅; job_queue := ∅; next_handle := 0%nat |}.

(** [context.chat_data.get("jobs", {})] *)
Definition chat_jobs_of (st : State) (chat_id : Z) : list (string * ReminderInfo) :=
  default [] (chat_data st !! chat_id).

Definition set_chat_jobs (st : State) (chat_id : Z)
  (d : list (string * ReminderInfo)) : State :=
  {| chat_data := <[chat_id := d]> (chat_data st);
     job_queue := job_queue st;
     next_handle := next_handle st |}.

(** A mutation of the dictionary [get("jobs", {})] returned: it reaches
    the state only when the key exists, otherwise the dictionary was a
    temporary. *)
Definition update_chat_jobs (st : State) (chat_id : Z)
  (d : list (string * ReminderInfo)) : State :=
  match chat_data st !! chat_id with
  | Some _ => set_chat_jobs st chat_id d
  | None => st
  end.

(** [job_queue.run_once] and [job_queue.run_repeating]: a new job object,
    armed. *)
Definition enqueue (st : State) (j : Job) : nat * State :=
  (next_handle st,
   {| chat_data := chat_data st;
      job_queue := <[next_handle st := j]> (job_queue st);
      next_handle := S (next_handle st) |}).

(** [job.schedule_removal()] *)
Definition schedule_removal (st : State) (h : nat) : State :=
  {| chat_data := chat_data st;
     job_queue := delete h (job_queue st);
     next_handle := next_handle st |}.

Definition set_job (st : State) (h : nat) (j : Job) : State :=
  {| chat_data := chat_data st;
     job_queue := <[h := j]> (job_queue st);
     next_handle := next_handle st |}.

(** ** Calls to the Bot API *)

Inductive BotCall : Type :=
  | reply_text (chat_id : Z) (text : string)
  | reply_html (chat_id : Z) (text : string)
  | send_message (chat_id : Z) (text : string) (reply_to_message_id : option Z)
  | delete_message (chat_id message_id : Z).

(** What the Bot API answers to a call: the message sent, or a failure
    raised as an exception. *)
Inductive Response : Type :=
  | Sent (chat_id message_id : Z)
  | Failed.

(** A run of a handler: the state it leaves, the calls it made and
    whether it returned or raised. *)
Record Run : Type := {
  run_state : State;
  run_calls : list BotCall;
  run_outcome : result unit
}.

Definition returned (st : State) (calls : list BotCall) : Run :=
  {| run_state := st; run_calls := calls; run_outcome := Ok tt |}.

Definition raised (st : State) (calls : list BotCall) (e : exn) : Run :=
  {| run_state := st; run_calls := calls; run_outcome := Raise e |}.

Definition delete_job (chat_id message_id : Z) (when_seconds : Z) : Job :=
  {| job_callback := cb_delete_message_job;
     job_name := "delete_message_job";
     job_data := MessageRef chat_id message_id;
     job_trigger := Once (when_seconds * Time.us_per_second) |}.

(** [await message.reply_...(...)] followed by [return]. *)
Definition reply_and_return (st : State) (call : BotCall) (resp : Response) : Run :=
  match resp with
  | Sent _ _ => returned st [call]
  | Failed => raised st [call] TelegramError
  end.

(** [response = await message.reply_html(...)] followed by
    [if response: job_queue.run_once(delete_message_job, when=..., ...)]. *)
Definition reply_and_autodelete (st : State) (call : BotCall) (resp : Response)
  (when_seconds : Z) : Run :=
  match resp with
  | Sent c m => returned (snd (enqueue st (delete_job c m when_seconds))) [call]
  | Failed => raised st [call] TelegramError
  end.

(** ** The handlers' inputs *)

(** The command message: its chat, its id, [context.args], and the
    message it replies to, if any (that message's id and author). *)
Record Update : Type := {
  upd_chat_id : Z;
  upd_message_id : Z;
  upd_args : list string;
  upd_reply_to : option (Z * option User)
}.

(** What a run reads from its environment: [datetime.now()],
    [int(time.time() * 1000)] and the answer to its Bot API call. *)
Record Env : Type := {
  env_now : datetime;
  env_clock_ms : Z;
  env_response : Response
}.

(** A phase of a handler either goes on with a value or has the handler
    reply with a text and return. *)
Inductive step (A : Type) : Type :=
  | Continue (a : A)
  | Stop (text : string).
Arguments Continue {A} a.
Arguments Stop {A} text.

Module Msg.
Import Text.

Definition need_time : string :=
  "Нужно указать время, например: /remind 10m текст".

Definition usage_short : string :=
  "Использование:" +:+ nl
  +:+ "• /remind 10m текст — без адресата" +:+ nl
  +:+ "• /remind @username 10m текст" +:+ nl
  +:+ "• или ответом на сообщение: /remind 10m текст".

Definition usage_long : string :=
  "Использование:" +:+ nl
  +:+ "• /remind 10m текст — без адресата" +:+ nl
  +:+ "• /remind @username 10m текст" +:+ nl
  +:+ "• /remind ALL 10m текст" +:+ nl
  +:+ "• /remind 2024-12-31 18:00 текст" +:+ nl
  +:+ "• или ответом на сообщение: /remind 10m текст".

Definition bad_time : string :=
  "Не понял время. Используй форматы вроде 10m, 1h20m, 2d3h "
  +:+ "или дату 2024-12-31 18:00.".

Definition past_time : string := "Указанная дата/время уже прошла.".

Definition need_interval : string :=
  "Укажи интервал повторения, например: every 1h".

Definition bad_interval : string :=
  "Не понял интервал повторения. Пример: every 1h".

Definition default_text : string := "Напоминание!".
Definition no_target : string := "без адресата".
Definition none_active : string := "Активных напоминаний нет.".
Definition all_cancelled : string := "Отменены все напоминания.".
Definition not_found : string := "Напоминание не найдено.".
Definition active_header : string := "Активные напоминания:" +:+ nl.

Definition specify_id (ids : list string) : string :=
  "Укажи ID напоминания: /cancel &lt;id&gt;" +:+ nl
  +:+ "Или отменить все: /cancel All" +:+ nl
  +:+ "Доступные ID:" +:+ nl
  +:+ join nl (map (fun job_id => "• <code>" +:+ html_escape job_id +:+ "</code>") ids).

Definition cancelled (job_id target_display : string) : string :=
  "Отменено: <code>" +:+ html_escape job_id +:+ "</code> для "
  +:+ target_display +:+ ".".

Definition reminder (mention : option string) (text : string) : string :=
  match mention with
  | Some m =>
      if nonempty m
      then "⏰ Напоминание для " +:+ m +:+ ":" +:+ nl +:+ html_escape text
      else "⏰ Напоминание:" +:+ nl +:+ html_escape text
  | None => "⏰ Напоминание:" +:+ nl +:+ html_escape text
  end.

End Msg.

(** [x or default] on an [Optional[str]]. *)
Definition str_or (o : option string) (default : string) : string :=
  match o with
  | Some s => if Text.nonempty s then s else default
  | None => default
  end.

(** [f"{chat_id}-{int(time.time() * 1000)}"] *)
Definition make_job_id (chat_id clock_ms : Z) : string :=
  pretty chat_id +:+ "-" +:+ pretty clock_ms.

(** ** [send_reminder] and [delete_message_job] *)

(** The callback of a reminder job, run with the job [h] whose [data] is
    [data].  The Bot API call comes first: when it raises, nothing below
    it runs.  The new [due_at] is written into [data], the dictionary of
    the job; the one-shot clean-up pops the job's name from the registry
    of the chat. *)
Definition send_reminder (st : State) (h : nat) (j : Job) (data : JobData)
  (env : Env) : Run :=
  let chat_id := jd_chat_id data in
  let call :=
    send_message chat_id (Msg.reminder (jd_mention data) (jd_text data))
                 (jd_reply_to data) in
  match env_response env with
  | Failed => raised st [call] TelegramError
  | Sent _ _ =>
      let chat_jobs := chat_jobs_of st chat_id in
      if Time.truthy (jd_repeat_interval data) then
        match Time.datetime_add (env_now env)
                (default 0 (jd_repeat_interval data)) with
        | Ok due =>
            let data' :=
              {| jd_chat_id := jd_chat_id data;
                 jd_mention := jd_mention data;
                 jd_text := jd_text data;
                 jd_reply_to := jd_reply_to data;
                 jd_due_at := due;
                 jd_repeat_interval := jd_repeat_interval data |} in
            let j' :=
              {| job_callback := job_callback j;
                 job_name := job_name j;
                 job_data := ReminderData data';
                 job_trigger := job_trigger j |} in
            returned (set_job st h j') [call]
        | Raise e => raised st [call] e
        end
      else
        returned
          (update_chat_jobs st chat_id (snd (Dict.pop (job_name j) chat_jobs)))
          [call]
  end.

(** The callback of a clean-up job: the failure of the call is caught
    and logged. *)
Definition delete_message_job (st : State) (chat_id message_id : Z) : Run :=
  if (chat_id =? 0) || (message_id =? 0) then returned st []
  else returned st [delete_message chat_id message_id].

(** The job queue runs the job [h]: its callback is called, an exception
    of the callback is reported and goes no further, and a job armed with
    [run_once] leaves the queue, one armed with [run_repeating] stays. *)
Definition fire (st : State) (h : nat) (env : Env) : Run :=
  match job_queue st !! h with
  | None => returned st []
  | Some j =>
      let r :=
        match job_data j with
        | ReminderData data => send_reminder st h j data env
        | MessageRef c m => delete_message_job st c m
        end in
      let st' :=
        match job_trigger j with
        | Once _ => schedule_removal (run_state r) h
        | Repeating _ _ => run_state r
        end in
      {| run_state := st'; run_calls := run_calls r; run_outcome := run_outcome r |}
  end.

(** ** [remind] *)

(** What [remind] has understood of a command once its tokens are
    parsed: the rendered addressee, the due instant, the delay until
    then, the repeat interval and the text. *)
Record Request : Type := {
  rq_mention : option string;
  rq_due_at : datetime;
  rq_delay : timedelta;
  rq_repeat_interval : option timedelta;
  rq_text : string
}.

Section Handlers.

Variable strptime : string -> string -> option datetime.

(** Lines 242-279: who is addressed and which tokens are left for the
    time and the text.  The result is the replied-to user, the target
    label and [time_args]. *)
Definition remind_target (u : Update)
  : result (step (option User * option string * list string)) :=
  let args := upd_args u in
  match upd_reply_to u with
  | Some (_, from_user) =>
      match args with
      | [] => Ok (Stop Msg.need_time)
      | _ =>
          match from_user with
          | None => Raise AttributeError
          | Some target_user =>
              Ok (Continue (Some target_user,
                            Some (str_or (username target_user)
                                         (full_name target_user)),
                            args))
          end
      end
  | None =>
      match args with
      | [] => Ok (Stop Msg.usage_short)
      | a0 :: rest =>
          tentative_delay <- parse_duration a0 ;;
          let tentative_datetime := parse_datetime_spec strptime args in
          if Time.truthy tentative_delay || bool_decide (is_Some tentative_datetime)
          then Ok (Continue (None, None, args))
          else if (length args <? 2)%nat
          then Ok (Stop Msg.usage_long)
          else Ok (Continue (None, Some a0, rest))
      end
  end.

(** Lines 281-298: [due_at], the number of tokens consumed and
    [delay]. *)
Definition remind_time (now : datetime) (time_args : list string)
  : result (step (datetime * nat * timedelta)) :=
  delay <- match time_args with
           | t0 :: _ => parse_duration t0
           | [] => Ok None
           end ;;
  if Time.truthy delay then
    due_at <- Time.datetime_add now (default 0 delay) ;;
    Ok (Continue (due_at, 1%nat, default 0 delay))
  else
    match parse_datetime_spec strptime time_args with
    | None => Ok (Stop Msg.bad_time)
    | Some (due_at, consumed) =>
        if due_at <=? now then Ok (Stop Msg.past_time)
        else Ok (Continue (due_at, consumed, due_at - now))
    end.

(** Lines 300-309: the repeat clause; [repeat_interval] and the tokens
    left for the text. *)
Definition remind_repeat (remaining : list string)
  : result (step (option timedelta * list string)) :=
  match remaining with
  | kw :: after_kw =>
      if bool_decide (Text.lower kw ∈ REPEAT_KEYWORDS) then
        match after_kw with
        | [] => Ok (Stop Msg.need_interval)
        | iv :: rest =>
            repeat_interval <- parse_duration iv ;;
            if Time.truthy repeat_interval
            then Ok (Continue (repeat_interval, rest))
            else Ok (Stop Msg.bad_interval)
        end
      else Ok (Continue (None, remaining))
  | [] => Ok (Continue (None, []))
  end.

(** Lines 321-323. *)
Definition remind_mention (target_user : option User)
  (target_label : option string) (is_all_target : bool) : option string :=
  match target_label with
  | Some l =>
      if Text.nonempty l then
        Some (if is_all_target then Text.html_escape l
              else format_target_mention target_user l)
      else None
  | None => None
  end.

(** Lines 359-370. *)
Definition remind_confirmation (job_id : string) (target : option string)
  (delay : timedelta) (reminder_text : string)
  (repeat_interval : option timedelta) : string :=
  let target_display := str_or target Msg.no_target in
  let repeat_note :=
    if Time.truthy repeat_interval
    then Text.nl +:+ "Повтор: каждые "
         +:+ humanize_delta (default 0 repeat_interval)
    else EmptyString in
  "🗓️ Запланировано для " +:+ target_display +:+ " через "
  +:+ humanize_delta delay +:+ "." +:+ Text.nl
  +:+ "ID: <code>" +:+ job_id +:+ "</code>" +:+ Text.nl
  +:+ "Текст: " +:+ Text.html_escape reminder_text
  +:+ repeat_note.

(** Line 311. *)
Definition remind_text (remaining : list string) : string :=
  let joined := Text.strip (Text.join " " remaining) in
  if Text.nonempty joined then joined else Msg.default_text.

(** Lines 242-312 and 321-323: the tokens of the command understood. *)
Definition remind_request (u : Update) (now : datetime)
  : result (step Request) :=
  match remind_target u with
  | Raise e => Raise e
  | Ok (Stop text) => Ok (Stop text)
  | Ok (Continue (target_user, target_label, time_args)) =>
      match remind_time now time_args with
      | Raise e => Raise e
      | Ok (Stop text) => Ok (Stop text)
      | Ok (Continue (due_at, consumed, delay)) =>
          match remind_repeat (drop consumed time_args) with
          | Raise e => Raise e
          | Ok (Stop text) => Ok (Stop text)
          | Ok (Continue (repeat_interval, remaining)) =>
              let '(target_label, is_all_target) :=
                normalize_target_label target_label in
              Ok (Continue
                    {| rq_mention :=
                         remind_mention target_user target_label is_all_target;
                       rq_due_at := due_at;
                       rq_delay := delay;
                       rq_repeat_interval := repeat_interval;
                       rq_text := remind_text remaining |})
          end
      end
  end.

(** The record [remind] stores in the registry for a request, given the
    handle of its job. *)
Definition reminder_info (job : nat) (rq : Request) : ReminderInfo :=
  {| ri_job := job;
     ri_target := rq_mention rq;
     ri_text := rq_text rq;
     ri_due_at := rq_due_at rq;
     ri_repeat_interval := rq_repeat_interval rq |}.

(** Lines 319-376: the id is allocated, the job armed, the record
    stored and the confirmation sent. *)
Definition remind_schedule (st : State) (u : Update) (env : Env)
  (rq : Request) : Run :=
  let chat_id := upd_chat_id u in
  let job_id := make_job_id chat_id (env_clock_ms env) in
  let job_data :=
    {| jd_chat_id := chat_id;
       jd_mention := rq_mention rq;
       jd_text := rq_text rq;
       jd_reply_to := option_map fst (upd_reply_to u);
       jd_due_at := rq_due_at rq;
       jd_repeat_interval := rq_repeat_interval rq |} in
  let trigger :=
    if Time.truthy (rq_repeat_interval rq)
    then Repeating (default 0 (rq_repeat_interval rq)) (rq_delay rq)
    else Once (rq_delay rq) in
  let '(job, st1) :=
    enqueue st {| job_callback := cb_send_reminder;
                  job_name := job_id;
                  job_data := ReminderData job_data;
                  job_trigger := trigger |} in
  let st2 :=
    set_chat_jobs st1 chat_id
      (Dict.set job_id (reminder_info job rq) (chat_jobs_of st1 chat_id)) in
  reply_and_autodelete st2
    (reply_html chat_id
       (remind_confirmation job_id (rq_mention rq) (rq_delay rq) (rq_text rq)
                            (rq_repeat_interval rq)))
    (env_response env) 15.

Definition remind (st : State) (u : Update) (env : Env) : Run :=
  let chat_id := upd_chat_id u in
  (* lines 226-232: the command message is deleted after ten seconds *)
  let st0 := snd (enqueue st (delete_job chat_id (upd_message_id u) 10)) in
  match remind_request u (env_now env) with
  | Raise e => raised st0 [] e
  | Ok (Stop text) =>
      reply_and_return st0 (reply_text chat_id text) (env_response env)
  | Ok (Continue rq) => remind_schedule st0 u env rq
  end.

(** ** [list_reminders] *)

(** One line of the listing (lines 392-400). *)
Definition list_line (now : datetime) (entry : string * ReminderInfo) : string :=
  let '(job_id, data) := entry in
  let eta := Z.max (ri_due_at data - now) 0 in
  let target_display := str_or (ri_target data) Msg.no_target in
  let repeat_text :=
    if Time.truthy (ri_repeat_interval data)
    then " — повтор каждые "
         +:+ humanize_delta (default 0 (ri_repeat_interval data))
    else EmptyString in
  job_id +:+ ": " +:+ target_display +:+ " — через " +:+ humanize_delta eta
  +:+ repeat_text +:+ " — " +:+ ri_text data.

Definition list_reminders (st : State) (u : Update) (env : Env) : Run :=
  let chat_id := upd_chat_id u in
  let chat_jobs := chat_jobs_of st chat_id in
  match chat_jobs with
  | [] => reply_and_return st (reply_text chat_id Msg.none_active) (env_response env)
  | _ =>
      let lines := map (list_line (env_now env)) chat_jobs in
      reply_and_autodelete st
        (reply_html chat_id
           (Msg.active_header +:+ Text.join Text.nl (map Text.html_escape lines)))
        (env_response env) 10
  end.

(** ** [cancel] *)

(** Lines 443-457: [/cancel all]. *)
Definition cancel_all (st : State) (u : Update) (env : Env) : Run :=
  let chat_id := upd_chat_id u in
  let chat_jobs := chat_jobs_of st chat_id in
  match chat_jobs with
  | [] => reply_and_return st (reply_text chat_id Msg.none_active) (env_response env)
  | _ =>
      let st1 :=
        fold_left (fun s data => schedule_removal s (ri_job data))
                  (Dict.values chat_jobs) st in
      let st2 := update_chat_jobs st1 chat_id [] in
      reply_and_autodelete st2 (reply_html chat_id Msg.all_cancelled)
        (env_response env) 10
  end.

(** Lines 443-475: what [cancel] does once [job_id] is chosen. *)
Definition cancel_id (st : State) (u : Update) (env : Env) (job_id : string) : Run :=
  let chat_id := upd_chat_id u in
  let chat_jobs := chat_jobs_of st chat_id in
  if String.eqb (Text.lower job_id) "all" then cancel_all st u env
  else
    let '(job_info, chat_jobs') := Dict.pop job_id chat_jobs in
    let st1 := update_chat_jobs st chat_id chat_jobs' in
    match job_info with
    | None => reply_and_return st1 (reply_text chat_id Msg.not_found) (env_response env)
    | Some info =>
        let st2 := schedule_removal st1 (ri_job info) in
        let target_display := str_or (ri_target info) Msg.no_target in
        reply_and_autodelete st2
          (reply_html chat_id (Msg.cancelled job_id target_display))
          (env_response env) 10
    end.

Definition cancel (st : State) (u : Update) (env : Env) : Run :=
  let chat_id := upd_chat_id u in
  let chat_jobs := chat_jobs_of st chat_id in
  match upd_args u with
  | [] =>
      match chat_jobs with
      | [] => reply_and_return st (reply_text chat_id Msg.none_active) (env_response env)
      | [(job_id, _)] => cancel_id st u env job_id
      | _ =>
          reply_and_autodelete st
            (reply_html chat_id (Msg.specify_id (Dict.keys chat_jobs)))
            (env_response env) 10
      end
  | job_id :: _ => cancel_id st u env job_id
  end.

End Handlers.

(** ** [start] and [handle_text_command] *)

Module Words.

(** [text.split()]: the maximal runs of characters that are not blanks. *)
Fixpoint split (s : string) : list string :=
  match s with
  | EmptyString => []
  | String c s' =>
      if Text.is_space c then split s'
      else
        match s' with
        | EmptyString => [String c EmptyString]
        | String d _ =>
            if Text.is_space d then String c EmptyString :: split s'
            else
              match split s' with
              | t :: ts => String c t :: ts
              | [] => [String c EmptyString]
              end
        end
  end.

(** [part.split("@", 1)[0]]: what stands before the first [@]. *)
Fixpoint before_at (s : string) : string :=
  match s with
  | EmptyString => EmptyString
  | String c s' =>
      if (Text.code c =? 64)%N then EmptyString else String c (before_at s')
  end.

(** [text.startswith("/")] *)
Definition startswith_slash (s : string) : bool :=
  match s with
  | String c _ => (Text.code c =? 47)%N
  | EmptyString => false
  end.

End Words.

(** The text of [start], line by line. *)
Definition help_text : string :=
  "Привет! Я бот-напоминалка созданный моим великим хозяином, специально для пацана Никиты, чтобы напоминать ему про папины сообщения."
  +:+ Text.nl +:+ Text.nl
  +:+ "Использование:" +:+ Text.nl
  +:+ "• Без адресата: /remind 10m текст" +:+ Text.nl
  +:+ "• Ответом на сообщение: /remind 10m текст" +:+ Text.nl
  +:+ "• Явно указать пользователя: /remind @username 10m текст" +:+ Text.nl
  +:+ "• Всем сразу: /remind ALL 10m текст" +:+ Text.nl
  +:+ "• На дату и время: /remind 2024-12-31 18:00 текст" +:+ Text.nl
  +:+ "• Повтор: /remind 10m every 1h текст" +:+ Text.nl +:+ Text.nl
  +:+ "• На дату и время + Повтор: /remind 2024-12-31 18:00 every 1h текст" +:+ Text.nl
  +:+ "Форматы времени: s — сек, m — мин, h — час, d — день." +:+ Text.nl
  +:+ "Форматы даты/времени: YYYY-MM-DD HH:MM или YYYY-MM-DDTHH:MM."
  +:+ Text.nl +:+ Text.nl
  +:+ "/list — показать активные напоминания" +:+ Text.nl
  +:+ "/cancel ID — отменить напоминание" +:+ Text.nl
  +:+ "/cancel All — отменить все напоминания".

Definition start (st : State) (u : Update) (env : Env) : Run :=
  reply_and_return st
    (reply_html (upd_chat_id u) (Text.html_escape help_text))
    (env_response env).

(** A message as [handle_text_command] reads it: its chat and id, its
    text if it has one, whether one of its entities is a [bot_command],
    and the message it replies to. *)
Record TextMessage : Type := {
  tm_chat_id : Z;
  tm_message_id : Z;
  tm_text : option string;
  tm_has_bot_command : bool;
  tm_reply_to : option (Z * option User)
}.

Section Fallback.

Variable strptime : string -> string -> option datetime.

(** Lines 207-218: the command word is lowered and cut at its [@], the
    other words become [context.args], and the handler of the command is
    called.  A text that begins with a slash has a first word, so the
    empty list of words is not met. *)
Definition dispatch_command (st : State) (m : TextMessage) (env : Env)
  (parts : list string) : Run :=
  match parts with
  | [] => returned st []
  | part0 :: args =>
      let command := Text.lower (Words.before_at part0) in
      let u := {| upd_chat_id := tm_chat_id m;
                  upd_message_id := tm_message_id m;
                  upd_args := args;
                  upd_reply_to := tm_reply_to m |} in
      if String.eqb command "/start" || String.eqb command "/help"
      then start st u env
      else if String.eqb command "/remind" then remind strptime st u env
      else if String.eqb command "/list" then list_reminders st u env
      else if String.eqb command "/cancel" then cancel st u env
      else returned st []
  end.

Definition handle_text_command (st : State) (m : TextMessage) (env : Env) : Run :=
  match tm_text m with
  | None => returned st []
  | Some raw =>
      if negb (Text.nonempty raw) then returned st []
      else if tm_has_bot_command m then returned st []
      else
        let text := Text.strip raw in
        if negb (Words.startswith_slash text) then returned st []
        else dispatch_command st m env (Words.split text)
  end.

End Fallback.

(** * What the claims are stated with *)

(** ** Predicates on text *)

Module Digits.

Fixpoint all_chars (p : ascii -> bool) (s : string) : bool :=
  match s with
  | EmptyString => true
  | String c s' => p c && all_chars p s'
  end.

(** Every character of the rendering of an integer is a digit or the
    sign. *)
Definition digit_or_sign (c : ascii) : bool :=
  Text.is_digit c || bool_decide (c = "-"%char).

(** [int] reads back what the rendering wrote. *)
Definition int_acc (acc : Z) (s : string) : Z :=
  fold_left (fun a c => 10 * a + Text.digit_value c) (list_ascii_of_string s) acc.

End Digits.

(** ** Durations *)

(** The seconds of a unit letter, in either case: s×1, m×60, h×3600,
    d×86400. *)
Definition unit_seconds (unit : ascii) : Z :=
  let l := Text.lower_ascii unit in
  if Ascii.eqb l "s" then 1
  else if Ascii.eqb l "m" then 60
  else if Ascii.eqb l "h" then 3600
  else if Ascii.eqb l "d" then 86400
  else 0.

(** The sum, over the matched pairs, of the value times the seconds of
    the unit. *)
Fixpoint duration_total (matches : list (string * ascii)) : Z :=
  match matches with
  | [] => 0
  | (value, unit) :: rest =>
      Text.int_of_digits value * unit_seconds unit + duration_total rest
  end.

(** The first number of seconds a [timedelta] cannot hold: 10^9 days. *)
Definition timedelta_limit : Z := 86400 * 1000000000.

(** The claim C5 as the specification states it, at the input [spec]. *)
Definition parse_duration_as_stated (spec : string) : Prop :=
  let matches := DURATION_RE_findall spec in
  let total := duration_total matches in
  (parse_duration spec = Ok None <-> matches = [] \/ total <= 0)
  /\ (matches ≠ [] -> 0 < total ->
      parse_duration spec = Ok (Some (total * Time.us_per_second))).

(** A duration string composed of pairs: each number in decimal followed
    by its unit letter. *)
Definition render_pairs (pairs : list (Z * ascii)) : string :=
  fold_right (fun p acc => pretty (fst p) +:+ String (snd p) acc) EmptyString pairs.

(** The rendering in the words of the specification: the numbers of
    days, hours, minutes and seconds of the duration, largest first, the
    zero ones left out, joined by blanks; ["0s"] when none is left. *)
Definition humanize_components (seconds : Z) : list (Z * string) :=
  [(seconds / 86400, "d"); ((seconds / 3600) mod 24, "h");
   ((seconds / 60) mod 60, "m"); (seconds mod 60, "s")].

Definition humanize_canonical (seconds : Z) : string :=
  let shown := List.filter (fun c => negb (fst c =? 0)) (humanize_components seconds) in
  match shown with
  | [] => "0s"
  | _ => Text.join " " (map (fun c => pretty (fst c) +:+ snd c) shown)
  end.

(** [humanize] composed with [parse_duration]. *)
Definition humanize_parsed (spec : string) : result (option string) :=
  d <- parse_duration spec ;; Ok (humanize_delta <$> d).

Definition not_minus (c : ascii) : bool := negb (bool_decide (c = "-"%char)).

(** The text shows no minus sign. *)
Definition no_minus (s : string) : bool := Digits.all_chars not_minus s.

(** ** Scenarios *)

Module Scenario.

Definition chat : Z := -1001.

(** 2024-12-31 18:00:00 *)
Definition t0 : datetime := 63871264800000000.

Definition command (message_id : Z) (args : list string) : Update :=
  {| upd_chat_id := chat; upd_message_id := message_id;
     upd_args := args; upd_reply_to := None |}.

Definition reading (now : datetime) (clock_ms : Z) (resp : Response) : Env :=
  {| env_now := now; env_clock_ms := clock_ms; env_response := resp |}.

Definition job_id : string := "-1001-1700000000000".

(** [/remind 10m every 1h hi] at [t0]; the reminder's job has handle 1. *)
Definition repeating_created : State :=
  run_state (remind Strptime.strptime initial_state
               (command 7 ["10m"; "every"; "1h"; "hi"])
               (reading t0 1700000000000 (Sent chat 8))).

(** [/remind 10m hi] at [t0]; the reminder's job has handle 1. *)
Definition one_shot_created : State :=
  run_state (remind Strptime.strptime initial_state
               (command 7 ["10m"; "hi"])
               (reading t0 1700000000000 (Sent chat 8))).

(** The job fires one second late. *)
Definition fire_time : datetime := t0 + 601000000.

(** A second reminder, [/remind @bob 2h call], created a second after the
    repeating one; its job has handle 4. *)
Definition two_created : State :=
  run_state (remind Strptime.strptime repeating_created
               (command 9 ["@bob"; "2h"; "call"])
               (reading (t0 + 1000000) 1700000001000 (Sent chat 10))).

(** The record of the one-shot reminder. *)
Definition one_shot_info : ReminderInfo :=
  {| ri_job := 1; ri_target := None; ri_text := "hi";
     ri_due_at := t0 + 600000000; ri_repeat_interval := None |}.

End Scenario.

(** Several fires in a row. *)
Definition fires (st : State) (h : nat) (envs : list Env) : State :=
  fold_left (fun s env => run_state (fire s h env)) envs st.

(** ** Statements that depend on [strptime] *)

Section Statements.

Variable strptime : string -> string -> option datetime.

(** The claim C3 as the specification states it, for two creates that
    follow each other in one chat. *)
Definition distinct_ids_as_stated (st : State) (u1 u2 : Update)
  (env1 env2 : Env) : Prop :=
  forall rq1 rq2,
    upd_chat_id u1 = upd_chat_id u2 ->
    remind_request strptime u1 (env_now env1) = Ok (Continue rq1) ->
    remind_request strptime u2 (env_now env2) = Ok (Continue rq2) ->
    let chat_id := upd_chat_id u1 in
    let id1 := make_job_id chat_id (env_clock_ms env1) in
    let id2 := make_job_id chat_id (env_clock_ms env2) in
    let st1 := run_state (remind strptime st u1 env1) in
    let st2 := run_state (remind strptime st1 u2 env2) in
    id1 ≠ id2
    /\ (exists h, Dict.get id1 (chat_jobs_of st2 chat_id) = Some (reminder_info h rq1))
    /\ (exists h, Dict.get id2 (chat_jobs_of st2 chat_id) = Some (reminder_info h rq2)).

(** The first token is a time: it parses as a duration, or it does not
    and the tokens begin an absolute date and time. *)
Definition begins_with_time (a0 : string) (rest : list string) : Prop :=
  (exists d, parse_duration a0 = Ok (Some d))
  \/ (parse_duration a0 = Ok None
      /\ is_Some (parse_datetime_spec strptime (a0 :: rest))).

(** The first token is no time. *)
Definition begins_with_label (a0 : string) (rest : list string) : Prop :=
  parse_duration a0 = Ok None
  /\ parse_datetime_spec strptime (a0 :: rest) = None.

(** The claim C4 as the specification states it, for a command that
    is no reply and has the tokens [a0 :: rest]. *)
Definition target_rule_as_stated (u : Update) (a0 : string)
  (rest : list string) : Prop :=
  upd_reply_to u = None ->
  upd_args u = a0 :: rest ->
  (begins_with_time a0 rest ->
   remind_target strptime u = Ok (Continue (None, None, a0 :: rest)))
  /\ (begins_with_label a0 rest ->
      remind_target strptime u = Ok (Continue (None, Some a0, rest))).

End Statements.

(** ** Reachable states *)

(** Handles are handed out in order, so every armed job and every job a
    record refers to has a handle below [next_handle]; and every id of a
    registry was allocated by [remind] for that chat. *)
Definition entry_allocated (st : State) (chat_id : Z)
  (entry : string * ReminderInfo) : Prop :=
  (ri_job (snd entry) < next_handle st)%nat
  /\ exists clock_ms, fst entry = make_job_id chat_id clock_ms.

Definition handles_allocated (st : State) : Prop :=
  (forall h j, job_queue st !! h = Some j -> (h < next_handle st)%nat)
  /\ (forall chat_id d entry,
        chat_data st !! chat_id = Some d -> In entry d ->
        entry_allocated st chat_id entry).

(** The states the handlers and the job queue lead to. *)
Inductive reachable (strptime : string -> string -> option datetime)
  : State -> Prop :=
  | reach_initial : reachable strptime initial_state
  | reach_remind st u env :
      reachable strptime st ->
      reachable strptime (run_state (remind strptime st u env))
  | reach_list st u env :
      reachable strptime st ->
      reachable strptime (run_state (list_reminders st u env))
  | reach_cancel st u env :
      reachable strptime st ->
      reachable strptime (run_state (cancel st u env))
  | reach_fire st h env :
      reachable strptime st ->
      reachable strptime (run_state (fire st h env)).


(** ** What the further properties are stated with *)

(** A match as the regular expression yields it: digits, at least one,
    and a unit letter. *)
Definition match_ok (m : string * ascii) : Prop :=
  Digits.all_chars Text.is_digit (fst m) = true
  /\ fst m ≠ EmptyString
  /\ DURATION_RE_unit (snd m) = true.

(** The components [humanize_delta] shows, with the unit as a letter. *)
Definition shown_components (seconds : Z) : list (Z * ascii) :=
  List.filter (fun c => negb (fst c =? 0))
    [(seconds / 86400, "d"%char); ((seconds / 3600) mod 24, "h"%char);
     ((seconds / 60) mod 60, "m"%char); (seconds mod 60, "s"%char)].

(** A word as [split] yields it: not empty and free of blanks. *)
Definition not_space (c : ascii) : bool := negb (Text.is_space c).

Definition token_ok (t : string) : Prop :=
  t ≠ EmptyString /\ Digits.all_chars not_space t = true.

(** A character that opens or closes no markup and no attribute. *)
Definition plain_char (c : ascii) : bool :=
  negb ((Text.code c =? 60)%N || (Text.code c =? 62)%N
        || (Text.code c =? 34)%N || (Text.code c =? 39)%N).

Definition markup_free (s : string) : bool := Digits.all_chars plain_char s.

(** No id stands twice in a registry. *)
Definition registry_keys_unique (st : State) : Prop :=
  forall chat_id d, chat_data st !! chat_id = Some d -> NoDup (Dict.keys d).

(** From [st] to [st'] the registries are the same, or the one of
    [chat_id] was replaced by a dictionary that keeps ids apart when the
    old one did. *)
Definition registry_changes_in (chat_id : Z) (st st' : State) : Prop :=
  chat_data st' = chat_data st
  \/ exists d', chat_data st' = <[chat_id := d']> (chat_data st)
               /\ (NoDup (Dict.keys (chat_jobs_of st chat_id)) -> NoDup (Dict.keys d')).

(** * Properties *)

(** ** Examples *)

Example parse_duration_10m : parse_duration "10m" = Ok (Some 600000000).
Proof. vm_compute. reflexivity. Qed.

Example parse_duration_mixed :
  parse_duration "please 1H 20m" = Ok (Some 4800000000).
Proof. vm_compute. reflexivity. Qed.

Example humanize_delta_4800 : humanize_delta 4800000000 = "1h 20m".
Proof. vm_compute. reflexivity. Qed.

Example strptime_space :
  Strptime.strptime "2024-12-31 18:00" "%Y-%m-%d %H:%M" = Some 63871264800000000.
Proof. vm_compute. reflexivity. Qed.

Example strptime_T :
  Strptime.strptime "2024-12-31T18:00" "%Y-%m-%dT%H:%M" = Some 63871264800000000.
Proof. vm_compute. reflexivity. Qed.

Example strptime_bad_day :
  Strptime.strptime "2023-02-29T18:00" "%Y-%m-%dT%H:%M" = None.
Proof. vm_compute. reflexivity. Qed.

Example strptime_bad_minute :
  Strptime.strptime "2024-12-31T18:75" "%Y-%m-%dT%H:%M" = None.
Proof. vm_compute. reflexivity. Qed.

Example parse_datetime_spec_two_tokens :
  parse_datetime_spec Strptime.strptime ["2024-12-31"; "18:00"; "bye"]
  = Some (63871264800000000, 2%nat).
Proof. vm_compute. reflexivity. Qed.

Example findall_restarts_after_a_failure :
  DURATION_RE_findall "12 34s 5S x7  d"
  = [("34", "s"%char); ("5", "S"%char); ("7", "d"%char)].
Proof. vm_compute. reflexivity. Qed.

Example request_with_label :
  remind_request Strptime.strptime
    (Scenario.command 7 ["@bob"; "10m"; "hello"]) Scenario.t0
  = Ok (Continue {| rq_mention := Some "@bob";
                    rq_due_at := Scenario.t0 + 600000000;
                    rq_delay := 600000000;
                    rq_repeat_interval := None;
                    rq_text := "hello" |}).
Proof. vm_compute. reflexivity. Qed.

Example request_to_all_repeating :
  remind_request Strptime.strptime
    (Scenario.command 7 ["ALL"; "10m"; "every"; "1h"; "hi"]) Scenario.t0
  = Ok (Continue {| rq_mention := Some "всех";
                    rq_due_at := Scenario.t0 + 600000000;
                    rq_delay := 600000000;
                    rq_repeat_interval := Some 3600000000;
                    rq_text := "hi" |}).
Proof. vm_compute. reflexivity. Qed.

Example request_in_the_past :
  remind_request Strptime.strptime
    (Scenario.command 7 ["2024-12-31"; "18:00"; "bye"]) (Scenario.t0 + 1)
  = Ok (Stop Msg.past_time).
Proof. vm_compute. reflexivity. Qed.

Example request_repeat_without_interval :
  remind_request Strptime.strptime
    (Scenario.command 7 ["10m"; "КАЖДЫЕ"]) Scenario.t0
  = Ok (Stop Msg.need_interval).
Proof. vm_compute. reflexivity. Qed.

Example normalize_cyrillic_capitals :
  normalize_target_label (Some "@ВСЕМ") = (Some "всех", true).
Proof. vm_compute. reflexivity. Qed.


(** ** Dictionaries *)

Module DictFacts.
Section DictFacts.
Context {V : Type}.
Implicit Types (d : list (string * V)) (k : string) (v : V).

Lemma get_set_same k v d : Dict.get k (Dict.set k v d) = Some v.
Proof.
  induction d as [|[k' v'] d IH]; simpl.
  - by rewrite String.eqb_refl.
  - destruct (String.eqb k k') eqn:E; simpl; rewrite E; [done | exact IH].
Qed.

Lemma get_set_other k k' v d :
  k ≠ k' -> Dict.get k' (Dict.set k v d) = Dict.get k' d.
Proof.
  intros Hne. induction d as [|[k0 v0] d IH]; simpl.
  - destruct (String.eqb k' k) eqn:E; [|done].
    apply String.eqb_eq in E. congruence.
  - destruct (String.eqb k k0) eqn:E; simpl.
    + apply String.eqb_eq in E. subst k0.
      destruct (String.eqb k' k) eqn:E'; [|done].
      apply String.eqb_eq in E'. congruence.
    + by rewrite IH.
Qed.

Lemma remove_absent k d : Dict.get k d = None -> Dict.remove k d = d.
Proof.
  induction d as [|[k' v'] d IH]; simpl; [done|].
  destruct (String.eqb k k'); [done|]. intros H. by rewrite IH.
Qed.

Lemma pop_absent k d : Dict.get k d = None -> Dict.pop k d = (None, d).
Proof. intros H. unfold Dict.pop. by rewrite H, remove_absent. Qed.

Lemma get_Some_In k v d : Dict.get k d = Some v -> In (k, v) d.
Proof.
  induction d as [|[k' v'] d IH]; simpl; [done|].
  destruct (String.eqb k k') eqn:E.
  - apply String.eqb_eq in E. intros [= ->]. left. by subst.
  - intros H. right. by apply IH.
Qed.

Lemma get_remove_In k k' v d :
  Dict.get k' (Dict.remove k d) = Some v -> In (k', v) d.
Proof.
  induction d as [|[k0 v0] d IH]; simpl; [done|].
  destruct (String.eqb k k0) eqn:E.
  - intros H. right. by apply get_Some_In.
  - simpl. destruct (String.eqb k' k0) eqn:E'.
    + apply String.eqb_eq in E'. intros [= ->]. left. by subst.
    + intros H. right. by apply IH.
Qed.

Lemma In_set k v k' v' d :
  In (k', v') (Dict.set k v d) -> (k' = k /\ v' = v) \/ In (k', v') d.
Proof.
  induction d as [|[k0 v0] d IH]; simpl.
  - intros [[= <- <-]|[]]. by left.
  - destruct (String.eqb k k0) eqn:E; simpl.
    + apply String.eqb_eq in E. subst k0.
      intros [[= <- <-]|H]; [by left | right; by right].
    + intros [H|H]; [right; by left|].
      destruct (IH H) as [?|?]; [by left | right; by right].
Qed.

Lemma In_remove k k' v' d : In (k', v') (Dict.remove k d) -> In (k', v') d.
Proof.
  induction d as [|[k0 v0] d IH]; simpl; [done|].
  destruct (String.eqb k k0); simpl.
  - intros H. by right.
  - intros [H|H]; [by left | right; by apply IH].
Qed.
End DictFacts.
End DictFacts.

(** ** The state *)

Lemma state_eq (s1 s2 : State) :
  chat_data s1 = chat_data s2 -> job_queue s1 = job_queue s2 ->
  next_handle s1 = next_handle s2 -> s1 = s2.
Proof. destruct s1, s2; simpl; intros; by subst. Qed.

Lemma update_chat_jobs_same (st : State) (chat_id : Z) :
  update_chat_jobs st chat_id (chat_jobs_of st chat_id) = st.
Proof.
  unfold update_chat_jobs, chat_jobs_of.
  destruct (chat_data st !! chat_id) as [d|] eqn:E; [|done].
  apply state_eq; simpl; [|done..]. by apply insert_id.
Qed.

Lemma chat_jobs_of_update (st : State) (chat_id : Z) d :
  chat_jobs_of st chat_id ≠ [] ->
  chat_jobs_of (update_chat_jobs st chat_id d) chat_id = d.
Proof.
  unfold update_chat_jobs, chat_jobs_of.
  destruct (chat_data st !! chat_id) as [d0|] eqn:E; simpl; [|done].
  intros _. by rewrite lookup_insert_eq.
Qed.

Lemma chat_jobs_of_enqueue (st : State) (j : Job) (chat_id : Z) :
  chat_jobs_of (snd (enqueue st j)) chat_id = chat_jobs_of st chat_id.
Proof. done. Qed.

Lemma chat_jobs_of_schedule_removal (st : State) (h : nat) (chat_id : Z) :
  chat_jobs_of (schedule_removal st h) chat_id = chat_jobs_of st chat_id.
Proof. done. Qed.

Lemma run_state_reply_and_return st call resp :
  run_state (reply_and_return st call resp) = st.
Proof. by destruct resp. Qed.

Lemma run_calls_reply_and_return st call resp :
  run_calls (reply_and_return st call resp) = [call].
Proof. by destruct resp. Qed.

Lemma run_calls_reply_and_autodelete st call resp w :
  run_calls (reply_and_autodelete st call resp w) = [call].
Proof. by destruct resp. Qed.

Lemma chat_data_reply_and_autodelete st call resp w :
  chat_data (run_state (reply_and_autodelete st call resp w)) = chat_data st.
Proof. by destruct resp. Qed.

(** A handle below [next_handle] that is not armed stays unarmed across a
    reply. *)
Lemma job_queue_reply_and_autodelete st call resp w (h : nat) :
  (h < next_handle st)%nat ->
  job_queue (run_state (reply_and_autodelete st call resp w)) !! h
  = job_queue st !! h.
Proof.
  intros Hh. destruct resp; simpl; [|done].
  apply lookup_insert_ne. lia.
Qed.

(** ** Cancelling *)

(** C7. A cancel that names an id absent from the registry of the chat
    answers "not found" and leaves the whole state as it was: the
    registry of the chat keeps its records and no job is disarmed.  The
    word [all], in any case, is the bulk keyword; every other argument is
    looked up as an id. *)
Theorem cancel_unknown_id_not_found
  (st : State) (u : Update) (env : Env) (job_id : string) (rest : list string) :
  upd_args u = job_id :: rest ->
  Text.lower job_id ≠ "all" ->
  Dict.get job_id (chat_jobs_of st (upd_chat_id u)) = None ->
  run_calls (cancel st u env) = [reply_text (upd_chat_id u) Msg.not_found]
  /\ run_state (cancel st u env) = st.
Proof.
  intros Hargs Hkw Habsent.
  unfold cancel. rewrite Hargs. unfold cancel_id.
  destruct (String.eqb (Text.lower job_id) "all") eqn:E.
  { apply String.eqb_eq in E. contradiction. }
  rewrite (DictFacts.pop_absent _ _ Habsent).
  rewrite run_calls_reply_and_return, run_state_reply_and_return.
  split; [done | apply update_chat_jobs_same].
Qed.

(** ** Decimal rendering *)

Module DigitsFacts.
Import Digits.

Lemma all_chars_app p s1 s2 :
  all_chars p (s1 +:+ s2) = all_chars p s1 && all_chars p s2.
Proof.
  induction s1 as [|c s1 IH]; [done|].
  change (String c s1 +:+ s2) with (String c (s1 +:+ s2)).
  simpl. rewrite IH. by rewrite andb_assoc.
Qed.

Lemma pretty_N_char_digit (x : N) : Text.is_digit (pretty_N_char x) = true.
Proof. unfold pretty_N_char. by repeat case_match. Qed.

Lemma pretty_N_char_value (x : N) :
  (x < 10)%N -> Text.digit_value (pretty_N_char x) = Z.of_N x.
Proof.
  intros Hx.
  assert (x = 0 \/ x = 1 \/ x = 2 \/ x = 3 \/ x = 4 \/ x = 5
          \/ x = 6 \/ x = 7 \/ x = 8 \/ x = 9)%N as H by lia.
  repeat (destruct H as [->|H]; [reflexivity|]). by subst.
Qed.

Lemma pretty_N_go_digits (x : N) (s : string) :
  all_chars Text.is_digit s = true ->
  all_chars Text.is_digit (pretty_N_go x s) = true.
Proof.
  revert s. induction (N.lt_wf_0 x) as [x _ IH]; intros s Hs.
  destruct (decide (x = 0%N)) as [->|Hx]; [by rewrite pretty_N_go_0|].
  rewrite pretty_N_go_step by lia.
  apply IH; [apply N.div_lt; lia|].
  simpl. by rewrite pretty_N_char_digit.
Qed.

Lemma pretty_N_go_length (x : N) (s : string) :
  (String.length s <= String.length (pretty_N_go x s))%nat.
Proof.
  revert s. induction (N.lt_wf_0 x) as [x _ IH]; intros s.
  destruct (decide (x = 0%N)) as [->|Hx]; [by rewrite pretty_N_go_0|].
  rewrite pretty_N_go_step by lia.
  etrans; [|apply IH; apply N.div_lt; lia]. simpl. lia.
Qed.

Lemma pretty_N_digits (x : N) : all_chars Text.is_digit (pretty x) = true.
Proof.
  unfold pretty, pretty_N. case_decide; [done|].
  by apply pretty_N_go_digits.
Qed.

Lemma pretty_N_nonempty (x : N) : pretty x ≠ EmptyString.
Proof.
  unfold pretty, pretty_N. case_decide; [done|].
  rewrite pretty_N_go_step by lia.
  intros Hnil.
  pose proof (pretty_N_go_length (x `div` 10)
                (String (pretty_N_char (x `mod` 10)) EmptyString)) as L.
  rewrite Hnil in L. simpl in L. lia.
Qed.

Lemma pretty_Z_nonneg (z : Z) : 0 <= z -> pretty z = pretty (Z.to_N z).
Proof. destruct z; [done | done | lia]. Qed.

Lemma pretty_Z_digits (z : Z) :
  0 <= z -> all_chars Text.is_digit (pretty z) = true.
Proof. intros H. rewrite pretty_Z_nonneg by done. apply pretty_N_digits. Qed.

Lemma pretty_Z_nonempty (z : Z) : pretty z ≠ EmptyString.
Proof.
  destruct z as [|p|p]; [done | apply (pretty_N_nonempty (Npos p)) | done].
Qed.

Lemma all_chars_weaken (p q : ascii -> bool) s :
  (forall c, p c = true -> q c = true) ->
  all_chars p s = true -> all_chars q s = true.
Proof.
  intros Hpq. induction s as [|c s IH]; [done|]. simpl.
  intros [H1 H2]%andb_prop. rewrite (Hpq _ H1). by apply IH.
Qed.

Lemma pretty_Z_chars (z : Z) : all_chars digit_or_sign (pretty z) = true.
Proof.
  assert (forall x : N, all_chars digit_or_sign (pretty x) = true) as HN.
  { intros x. eapply all_chars_weaken; [|apply pretty_N_digits].
    intros c Hc. unfold digit_or_sign. by rewrite Hc. }
  destruct z as [|p|p]; [done | apply (HN (Npos p)) |].
  change (pretty (Z.neg p)) with (String "-"%char (pretty (Npos p))).
  simpl. apply (HN (Npos p)).
Qed.

Lemma string_app_assoc (a b c : string) : (a +:+ b) +:+ c = a +:+ (b +:+ c).
Proof.
  induction a as [|x a IH]; [done|].
  change (String x a +:+ b) with (String x (a +:+ b)).
  change (String x (a +:+ b) +:+ c) with (String x ((a +:+ b) +:+ c)).
  by rewrite IH.
Qed.

Lemma string_app_nil_r (a : string) : a +:+ EmptyString = a.
Proof.
  induction a as [|x a IH]; [done|].
  change (String x a +:+ EmptyString) with (String x (a +:+ EmptyString)).
  by rewrite IH.
Qed.

Lemma string_app_length (a b : string) :
  String.length (a +:+ b) = (String.length a + String.length b)%nat.
Proof.
  induction a as [|x a IH]; [done|].
  change (String x a +:+ b) with (String x (a +:+ b)). simpl. by rewrite IH.
Qed.

Lemma int_acc_app (acc : Z) (a b : string) :
  int_acc acc (a +:+ b) = int_acc (int_acc acc a) b.
Proof.
  revert acc. induction a as [|x a IH]; intros acc; [done|].
  change (String x a +:+ b) with (String x (a +:+ b)).
  unfold int_acc in *. simpl. apply IH.
Qed.

Lemma pretty_N_go_prefix (x : N) (s : string) :
  pretty_N_go x s = pretty_N_go x EmptyString +:+ s.
Proof.
  revert s. induction (N.lt_wf_0 x) as [x _ IH]; intros s.
  destruct (decide (x = 0%N)) as [->|Hx]; [by rewrite !pretty_N_go_0|].
  rewrite !(pretty_N_go_step x) by lia.
  assert (x `div` 10 < x)%N as Hlt by (apply N.div_lt; lia).
  rewrite (IH _ Hlt (String (pretty_N_char (x `mod` 10)) s)).
  rewrite (IH _ Hlt (String (pretty_N_char (x `mod` 10)) EmptyString)).
  by rewrite string_app_assoc.
Qed.

Lemma int_acc_pretty_N_go (x : N) :
  int_acc 0 (pretty_N_go x EmptyString) = Z.of_N x.
Proof.
  induction (N.lt_wf_0 x) as [x _ IH].
  destruct (decide (x = 0%N)) as [->|Hx]; [done|].
  rewrite pretty_N_go_step by lia.
  rewrite pretty_N_go_prefix, int_acc_app.
  rewrite IH by (apply N.div_lt; lia).
  unfold int_acc. simpl.
  rewrite pretty_N_char_value by (apply N.mod_lt; lia).
  rewrite N2Z.inj_div, N2Z.inj_mod.
  pose proof (Z.div_mod (Z.of_N x) 10). lia.
Qed.

Lemma int_of_digits_pretty_N (x : N) : Text.int_of_digits (pretty x) = Z.of_N x.
Proof.
  unfold pretty, pretty_N. case_decide; [by subst|].
  apply int_acc_pretty_N_go.
Qed.

Lemma int_of_digits_pretty (z : Z) :
  0 <= z -> Text.int_of_digits (pretty z) = z.
Proof.
  intros H. rewrite pretty_Z_nonneg by done.
  rewrite int_of_digits_pretty_N. lia.
Qed.

End DigitsFacts.

(** ** Reminder ids *)

Lemma lower_all_head (s : string) :
  Text.lower s = "all" ->
  exists c s', s = String c s' /\ Digits.digit_or_sign c = false.
Proof.
  destruct s as [|c s']; [discriminate|].
  intros H. exists c, s'. split; [done|].
  simpl in H. destruct (Text.code c =? 208)%N eqn:E.
  - apply N.eqb_eq in E.
    destruct c as [[] [] [] [] [] [] [] []]; try discriminate E; reflexivity.
  - injection H as H _. clear E.
    destruct c as [[] [] [] [] [] [] [] []]; try discriminate H; reflexivity.
Qed.

(** No id the bot allocates reads as the keyword [all]. *)
Lemma make_job_id_not_all (chat_id clock_ms : Z) :
  Text.lower (make_job_id chat_id clock_ms) ≠ "all".
Proof.
  intros H. apply lower_all_head in H as (c & s' & Hs & Hc).
  unfold make_job_id in Hs.
  pose proof (DigitsFacts.pretty_Z_chars chat_id) as Hd.
  pose proof (DigitsFacts.pretty_Z_nonempty chat_id) as Hn.
  destruct (pretty chat_id) as [|c0 r]; [done|].
  change (String c0 r +:+ "-" +:+ pretty clock_ms)
    with (String c0 (r +:+ "-" +:+ pretty clock_ms)) in Hs.
  injection Hs as -> _. simpl in Hd.
  rewrite Hc in Hd. discriminate.
Qed.

(** Every character of an id the bot allocates is a digit or the
    sign. *)
Lemma make_job_id_chars (chat_id clock_ms : Z) :
  Digits.all_chars Digits.digit_or_sign (make_job_id chat_id clock_ms) = true.
Proof.
  unfold make_job_id. rewrite !DigitsFacts.all_chars_app.
  rewrite !DigitsFacts.pretty_Z_chars. reflexivity.
Qed.

Lemma digit_or_sign_not_escaped (c : ascii) :
  Digits.digit_or_sign c = true ->
  (Text.code c =? 38)%N = false /\ (Text.code c =? 60)%N = false
  /\ (Text.code c =? 62)%N = false /\ (Text.code c =? 34)%N = false
  /\ (Text.code c =? 39)%N = false.
Proof.
  intros H.
  destruct c as [[] [] [] [] [] [] [] []];
    vm_compute in H; try discriminate H; by vm_compute.
Qed.

(** [html.escape] leaves a string of digits and signs as it is. *)
Lemma html_escape_plain (s : string) :
  Digits.all_chars Digits.digit_or_sign s = true -> Text.html_escape s = s.
Proof.
  induction s as [|c s IH]; [done|].
  cbn [Digits.all_chars]. intros [Hc Hs]%andb_prop.
  destruct (digit_or_sign_not_escaped c Hc) as (H1 & H2 & H3 & H4 & H5).
  cbn [Text.html_escape]. cbv zeta.
  by rewrite H1, H2, H3, H4, H5, (IH Hs).
Qed.

(** The confirmation of a cancel, letter by letter: the id between the
    [<code>] tags, then the stored target, or the words for no target
    when none is stored or it is empty. *)
Lemma cancelled_text (job_id : string) (target : option string) :
  Msg.cancelled job_id (str_or target Msg.no_target)
  = "Отменено: <code>" +:+ Text.html_escape job_id +:+ "</code> для "
    +:+ match target with
        | Some (String c t) => String c t
        | _ => "без адресата"
        end
    +:+ ".".
Proof.
  unfold Msg.cancelled, str_or, Msg.no_target.
  by destruct target as [[|c t]|].
Qed.

(** C8. A cancel without an argument, in a chat whose registry holds one
    reminder, takes that reminder: the registry of the chat is empty
    afterwards, the reminder's job is no longer armed, and the one call
    made is the confirmation that names the id: the text
    [Отменено: <code>ID</code> для TARGET.] with the id as it is stored
    and, for the target, the stored one or [без адресата] when none is
    stored or it is empty.  The id is one the bot allocated and the job
    handle one the queue has handed out. *)
Theorem cancel_without_id_takes_single
  (st : State) (u : Update) (env : Env) (clock_ms : Z) (info : ReminderInfo) :
  let chat_id := upd_chat_id u in
  let job_id := make_job_id chat_id clock_ms in
  let shown := match ri_target info with
               | Some (String c t) => String c t
               | _ => "без адресата"
               end in
  upd_args u = [] ->
  chat_data st !! chat_id = Some [(job_id, info)] ->
  (ri_job info < next_handle st)%nat ->
  chat_data (run_state (cancel st u env)) !! chat_id = Some []
  /\ job_queue (run_state (cancel st u env)) !! ri_job info = None
  /\ run_calls (cancel st u env)
     = [reply_html chat_id
          ("Отменено: <code>" +:+ job_id +:+ "</code> для " +:+ shown +:+ ".")].
Proof.
  intros chat_id job_id shown Hargs Hreg Hh.
  unfold cancel. rewrite Hargs.
  fold chat_id. unfold chat_jobs_of. rewrite Hreg. simpl default.
  unfold cancel_id. fold chat_id.
  destruct (String.eqb (Text.lower job_id) "all") eqn:E.
  { apply String.eqb_eq in E. by apply make_job_id_not_all in E. }
  unfold chat_jobs_of. rewrite Hreg. simpl default.
  unfold Dict.pop. simpl Dict.get. simpl Dict.remove.
  rewrite String.eqb_refl.
  rewrite run_calls_reply_and_autodelete, chat_data_reply_and_autodelete.
  rewrite job_queue_reply_and_autodelete.
  2:{ unfold update_chat_jobs. by rewrite Hreg. }
  rewrite cancelled_text.
  rewrite (html_escape_plain job_id) by apply make_job_id_chars.
  unfold update_chat_jobs. rewrite Hreg. simpl.
  rewrite lookup_insert_eq, lookup_delete_eq. done.
Qed.

Lemma disarm_all_frame (infos : list ReminderInfo) (st : State) :
  let st' := fold_left (fun s data => schedule_removal s (ri_job data)) infos st in
  chat_data st' = chat_data st
  /\ next_handle st' = next_handle st
  /\ (forall h, job_queue st !! h = None -> job_queue st' !! h = None)
  /\ (forall info, In info infos -> job_queue st' !! ri_job info = None).
Proof.
  revert st. induction infos as [|i infos IH]; intros st; simpl.
  - repeat split; by auto.
  - destruct (IH (schedule_removal st (ri_job i))) as (Hc & Hn & Hkeep & Hgone).
    repeat split.
    + by rewrite Hc.
    + by rewrite Hn.
    + intros h Hh. apply Hkeep. simpl.
      destruct (decide (ri_job i = h)) as [->|Hne];
        [apply lookup_delete_eq | by rewrite lookup_delete_ne].
    + intros info [->|Hin]; [|by apply Hgone].
      apply Hkeep. simpl. apply lookup_delete_eq.
Qed.


(** ** Rendering a duration *)

Lemma divmod_hours (s : Z) : (s mod 86400) / 3600 = (s / 3600) mod 24.
Proof.
  change 86400 with (3600 * 24).
  rewrite Z.rem_mul_r by lia.
  rewrite Z.mul_comm, Z.div_add by lia.
  rewrite Z.div_small by (apply Z.mod_pos_bound; lia). lia.
Qed.

Lemma divmod_minutes (s : Z) : ((s mod 86400) mod 3600) / 60 = (s / 60) mod 60.
Proof.
  replace ((s mod 86400) mod 3600) with (s mod 3600).
  - change 3600 with (60 * 60).
    rewrite Z.rem_mul_r by lia.
    rewrite Z.mul_comm, Z.div_add by lia.
    rewrite Z.div_small by (apply Z.mod_pos_bound; lia). lia.
  - change 86400 with (3600 * 24).
    rewrite Z.rem_mul_r by lia.
    rewrite Z.mul_comm, Z.mod_add by lia.
    by rewrite Z.mod_mod by lia.
Qed.

Lemma divmod_seconds (s : Z) :
  (((s mod 86400) mod 3600) mod 60) / 1 = s mod 60.
Proof.
  rewrite Z.div_1_r.
  replace ((s mod 86400) mod 3600) with (s mod 3600).
  - change 3600 with (60 * 60).
    rewrite Z.rem_mul_r by lia.
    rewrite Z.mul_comm, Z.mod_add by lia.
    by rewrite Z.mod_mod by lia.
  - change 86400 with (3600 * 24).
    rewrite Z.rem_mul_r by lia.
    rewrite Z.mul_comm, Z.mod_add by lia.
    by rewrite Z.mod_mod by lia.
Qed.

(** The loop of [humanize_delta] computes the canonical rendering. *)
Lemma humanize_delta_canonical (delta : timedelta) :
  humanize_delta delta = humanize_canonical (Time.total_seconds_int delta).
Proof.
  unfold humanize_delta, humanize_canonical, humanize_components.
  generalize (Time.total_seconds_int delta) as s. intros s.
  unfold humanize_units, humanize_step. cbn [fold_left].
  rewrite <- (divmod_hours s), <- (divmod_minutes s), <- (divmod_seconds s).
  cbn [List.filter fst snd].
  destruct (s / 86400 =? 0); cbv beta iota zeta; cbn [negb app];
    destruct (s mod 86400 / 3600 =? 0); cbv beta iota zeta; cbn [negb app];
    destruct ((s mod 86400) mod 3600 / 60 =? 0); cbv beta iota zeta; cbn [negb app];
    destruct (((s mod 86400) mod 3600) mod 60 / 1 =? 0);
    cbv beta iota zeta; cbn [negb app map fst snd]; reflexivity.
Qed.

Lemma all_chars_join (p : ascii -> bool) (sep : string) (parts : list string) :
  Digits.all_chars p sep = true ->
  Forall (fun s => Digits.all_chars p s = true) parts ->
  Digits.all_chars p (Text.join sep parts) = true.
Proof.
  intros Hsep. induction 1 as [|x l Hx Hl IH]; [done|].
  destruct l as [|y l]; [done|].
  change (Text.join sep (x :: y :: l)) with (x +:+ sep +:+ Text.join sep (y :: l)).
  rewrite !DigitsFacts.all_chars_app, Hx, Hsep, IH. done.
Qed.

Lemma pretty_nonneg_no_minus (z : Z) : 0 <= z -> no_minus (pretty z) = true.
Proof.
  intros Hz. unfold no_minus.
  eapply DigitsFacts.all_chars_weaken; [|by apply DigitsFacts.pretty_Z_digits].
  intros c Hc. unfold not_minus. case_bool_decide as E; [|done].
  subst c. discriminate Hc.
Qed.

Lemma humanize_canonical_no_minus (seconds : Z) :
  0 <= seconds -> no_minus (humanize_canonical seconds) = true.
Proof.
  intros Hs. unfold humanize_canonical.
  assert (Forall (fun c => 0 <= fst c /\ no_minus (snd c) = true)
                 (humanize_components seconds)) as Hall.
  { unfold humanize_components.
    repeat constructor; simpl;
      try (apply Z.div_pos; lia); try (apply Z.mod_pos_bound; lia). }
  assert (Forall (fun c => 0 <= fst c /\ no_minus (snd c) = true)
            (List.filter (fun c => negb (fst c =? 0)) (humanize_components seconds)))
    as Hshown.
  { rewrite List.Forall_forall in *. intros c [Hc _]%filter_In. by apply Hall. }
  destruct (List.filter _ _) as [|c0 l]; [done|].
  apply all_chars_join; [done|].
  rewrite List.Forall_forall in *. intros part (c & <- & Hc)%in_map_iff.
  destruct (Hshown c Hc) as [Hpos Hsuf].
  unfold no_minus in *. rewrite DigitsFacts.all_chars_app, Hsuf, andb_true_r.
  by apply pretty_nonneg_no_minus.
Qed.

Lemma total_seconds_int_nonneg (d : timedelta) :
  0 <= d -> 0 <= Time.total_seconds_int d.
Proof.
  intros Hd. unfold Time.total_seconds_int, Time.us_per_second.
  apply Z.quot_pos; lia.
Qed.

(** ** Listing *)

(** C10. Every line of the listing shows, as the remaining time, the
    stored [due_at] minus the current time, clamped below at zero: the
    duration rendered is never negative, its text carries no minus sign,
    and a reminder whose [due_at] is not after the current time is shown
    with ["0s"]. *)
Theorem list_shows_clamped_remaining (st : State) (u : Update) (env : Env) :
  let chat_id := upd_chat_id u in
  let now := env_now env in
  chat_jobs_of st chat_id ≠ [] ->
  run_calls (list_reminders st u env)
  = [reply_html chat_id
       (Msg.active_header
        +:+ Text.join Text.nl
              (map Text.html_escape (map (list_line now) (chat_jobs_of st chat_id))))]
  /\ forall job_id data, In (job_id, data) (chat_jobs_of st chat_id) ->
       let eta := Z.max (ri_due_at data - now) 0 in
       let shown := humanize_canonical (Time.total_seconds_int eta) in
       let repeat_text :=
         if Time.truthy (ri_repeat_interval data)
         then " — повтор каждые "
              +:+ humanize_delta (default 0 (ri_repeat_interval data))
         else EmptyString in
       list_line now (job_id, data)
       = job_id +:+ ": " +:+ str_or (ri_target data) Msg.no_target
         +:+ " — через " +:+ shown +:+ repeat_text +:+ " — " +:+ ri_text data
       /\ 0 <= eta
       /\ no_minus shown = true
       /\ (ri_due_at data <= now -> shown = "0s").
Proof.
  intros chat_id now Hne. split.
  - unfold list_reminders. fold chat_id now.
    destruct (chat_jobs_of st chat_id) as [|e0 d0]; [done|].
    apply run_calls_reply_and_autodelete.
  - intros job_id data _ eta shown repeat_text.
    split; [|split; [|split]].
    + unfold list_line. fold eta. rewrite humanize_delta_canonical. reflexivity.
    + unfold eta. lia.
    + apply humanize_canonical_no_minus, total_seconds_int_nonneg.
      unfold eta. lia.
    + intros Hpast. unfold shown, eta.
      replace (Z.max (ri_due_at data - now) 0) with 0 by lia. reflexivity.
Qed.

(** ** Firing *)


Lemma send_reminder_failed (st : State) (h : nat) (j : Job) (data : JobData)
  (env : Env) :
  env_response env = Failed ->
  run_state (send_reminder st h j data env) = st
  /\ run_outcome (send_reminder st h j data env) = Raise TelegramError.
Proof. intros H. unfold send_reminder. by rewrite H. Qed.

(** A fire of a repeating reminder never touches the registry: whatever
    the delivery does, the records of every chat are what they were, and
    the job stays armed with the same interval. *)
Lemma fire_repeating_keeps_registry (st : State) (h : nat) (j : Job)
  (data : JobData) (env : Env) (interval first : timedelta) :
  job_queue st !! h = Some j ->
  job_data j = ReminderData data ->
  Time.truthy (jd_repeat_interval data) = true ->
  job_trigger j = Repeating interval first ->
  let st' := run_state (fire st h env) in
  chat_data st' = chat_data st
  /\ exists j' data',
       job_queue st' !! h = Some j'
       /\ job_data j' = ReminderData data'
       /\ jd_repeat_interval data' = jd_repeat_interval data
       /\ job_trigger j' = Repeating interval first.
Proof.
  intros Hq Hd Hrep Htr. unfold fire. rewrite Hq, Hd, Htr. simpl.
  unfold send_reminder. rewrite Hrep.
  destruct (env_response env); simpl.
  - destruct (Time.datetime_add _ _) as [due|e]; simpl.
    + split; [done|]. eexists _, _.
      rewrite lookup_insert_eq. repeat split; done.
    + split; [done|]. by exists j, data.
  - split; [done|]. by exists j, data.
Qed.

(** The next due time of a delivered repeating reminder is the fire time
    plus the interval, and it is written into the data of the job. *)
Lemma fire_repeating_job_data (st : State) (h : nat) (j : Job)
  (data : JobData) (env : Env) (interval first : timedelta) (c m : Z) :
  job_queue st !! h = Some j ->
  job_data j = ReminderData data ->
  jd_repeat_interval data = Some interval ->
  interval ≠ 0 ->
  job_trigger j = Repeating interval first ->
  env_response env = Sent c m ->
  0 <= env_now env + interval <= Time.datetime_max ->
  exists j' data',
    job_queue (run_state (fire st h env)) !! h = Some j'
    /\ job_data j' = ReminderData data'
    /\ jd_due_at data' = env_now env + interval.
Proof.
  intros Hq Hd Hrep Hnz Htr Hresp Hrange.
  unfold fire. rewrite Hq, Hd, Htr. simpl.
  unfold send_reminder. rewrite Hrep, Hresp. simpl.
  destruct (interval =? 0) eqn:E; [lia|]. simpl.
  unfold Time.datetime_add.
  destruct ((0 <=? env_now env + interval)
            && (env_now env + interval <=? Time.datetime_max)) eqn:E2.
  - simpl. eexists _, _. rewrite lookup_insert_eq. repeat split; done.
  - apply andb_false_iff in E2. lia.
Qed.

Lemma fires_repeating_keep_registry (envs : list Env) (st : State) (h : nat)
  (j : Job) (data : JobData) (interval first : timedelta) :
  job_queue st !! h = Some j ->
  job_data j = ReminderData data ->
  Time.truthy (jd_repeat_interval data) = true ->
  job_trigger j = Repeating interval first ->
  chat_data (fires st h envs) = chat_data st.
Proof.
  revert st j data. induction envs as [|env envs IH]; intros st j data Hq Hd Hrep Htr;
    [done|].
  unfold fires. simpl. fold (fires (run_state (fire st h env)) h envs).
  destruct (fire_repeating_keeps_registry st h j data env interval first Hq Hd Hrep Htr)
    as (Hc & j' & data' & Hq' & Hd' & Hi' & Htr').
  rewrite (IH _ j' data' Hq' Hd'); [done| by rewrite Hi' | done].
Qed.

(** C1. [/remind 10m every 1h hi] is created at [t0] and its job fires
    at [t0 + 601 s] with the delivery succeeding.  The next due time
    computed is the fire time plus one hour, and it is written into the
    data of the job; the record of the registry stays present with the
    [due_at] of the creation, [t0 + 10 min], and the listing asked right
    after the fire shows it as due in ["0s"].  However many times the
    job fires, the registry of the chat stays what it was. *)
Theorem fire_repeating_registry_due_at_stale :
  let st := Scenario.repeating_created in
  let env := Scenario.reading Scenario.fire_time 1700000601000 (Sent Scenario.chat 9) in
  let st' := run_state (fire st 1 env) in
  (job_data <$> job_queue st' !! 1%nat)
  = Some (ReminderData
            {| jd_chat_id := Scenario.chat; jd_mention := None; jd_text := "hi";
               jd_reply_to := None;
               jd_due_at := Scenario.fire_time + 3600000000;
               jd_repeat_interval := Some 3600000000 |})
  /\ (ri_due_at <$> Dict.get Scenario.job_id (chat_jobs_of st Scenario.chat))
     = Some (Scenario.t0 + 600000000)
  /\ (ri_due_at <$> Dict.get Scenario.job_id (chat_jobs_of st' Scenario.chat))
     = Some (Scenario.t0 + 600000000)
  /\ Scenario.t0 + 600000000 ≠ Scenario.fire_time + 3600000000
  /\ run_calls (list_reminders st' (Scenario.command 10 []) env)
     = [reply_html Scenario.chat
          (Msg.active_header
           +:+ "-1001-1700000000000: без адресата — через 0s — повтор каждые 1h — hi")]
  /\ forall envs, chat_data (fires st 1 envs) = chat_data st.
Proof.
  intros st env st'.
  assert (forall envs, chat_data (fires st 1 envs) = chat_data st) as Hfires.
  { intros envs.
    eapply (fires_repeating_keep_registry envs st 1 _ _ 3600000000 600000000);
      by vm_compute. }
  repeat split; try exact Hfires; try (by vm_compute).
Qed.

(** A delivered one-shot reminder leaves the registry. *)
Lemma fire_one_shot_delivered (st : State) (h : nat) (j : Job)
  (data : JobData) (env : Env) (c m : Z) :
  job_queue st !! h = Some j ->
  job_data j = ReminderData data ->
  Time.truthy (jd_repeat_interval data) = false ->
  env_response env = Sent c m ->
  chat_jobs_of (run_state (fire st h env)) (jd_chat_id data)
  = Dict.remove (job_name j) (chat_jobs_of st (jd_chat_id data)).
Proof.
  intros Hq Hd Hrep Hresp. unfold fire. rewrite Hq, Hd. simpl.
  unfold send_reminder. rewrite Hrep, Hresp. simpl.
  assert (forall s, chat_jobs_of
            match job_trigger j with
            | Once _ => schedule_removal s h
            | Repeating _ _ => s
            end (jd_chat_id data) = chat_jobs_of s (jd_chat_id data)) as ->.
  { intros s. by destruct (job_trigger j). }
  unfold update_chat_jobs, chat_jobs_of.
  destruct (chat_data st !! jd_chat_id data) as [d|] eqn:E; simpl.
  - by rewrite lookup_insert_eq.
  - by rewrite E.
Qed.

(** C2. [/remind 10m hi] is created at [t0] and its job fires with the
    delivery failing.  The callback raises at the call to the Bot API
    and nothing after it runs: the record of the one-shot reminder is
    still in the registry, although its job has left the queue. *)
Theorem fire_one_shot_failed_delivery_keeps_record :
  let st := Scenario.one_shot_created in
  let env := Scenario.reading Scenario.fire_time 1700000601000 Failed in
  let r := fire st 1 env in
  run_outcome r = Raise TelegramError
  /\ chat_jobs_of (run_state r) Scenario.chat = chat_jobs_of st Scenario.chat
  /\ (ri_text <$> Dict.get Scenario.job_id (chat_jobs_of (run_state r) Scenario.chat))
     = Some "hi"
  /\ job_queue (run_state r) !! 1%nat = None.
Proof. vm_compute. repeat split; done. Qed.

(** The same in general: a fire whose delivery fails leaves the
    registries of all chats as they were. *)
Lemma fire_failed_keeps_registry (st : State) (h : nat) (env : Env) :
  env_response env = Failed ->
  chat_data (run_state (fire st h env)) = chat_data st.
Proof.
  intros Hresp. unfold fire.
  destruct (job_queue st !! h) as [j|]; [|done]. simpl.
  assert (forall s, chat_data
            match job_trigger j with
            | Once _ => schedule_removal s h
            | Repeating _ _ => s
            end = chat_data s) as ->.
  { intros s. by destruct (job_trigger j). }
  destruct (job_data j) as [data|c m].
  - by rewrite (proj1 (send_reminder_failed st h j data env Hresp)).
  - unfold delete_message_job. by destruct (_ || _).
Qed.

(** ** Creating *)

Lemma make_job_id_inj (chat_id ms1 ms2 : Z) :
  make_job_id chat_id ms1 = make_job_id chat_id ms2 -> ms1 = ms2.
Proof.
  unfold make_job_id. intros H.
  apply (inj (String.app (pretty chat_id))) in H.
  apply (inj (String.app "-")) in H.
  by apply (inj pretty) in H.
Qed.

Section Creating.

Variable strptime : string -> string -> option datetime.

(** The registry of the chat after a [remind] that understood its
    command. *)
Lemma remind_creates (st : State) (u : Update) (env : Env) (rq : Request) :
  remind_request strptime u (env_now env) = Ok (Continue rq) ->
  chat_jobs_of (run_state (remind strptime st u env)) (upd_chat_id u)
  = Dict.set (make_job_id (upd_chat_id u) (env_clock_ms env))
             (reminder_info (S (next_handle st)) rq)
             (chat_jobs_of st (upd_chat_id u)).
Proof.
  intros Hrq. unfold remind. rewrite Hrq. unfold remind_schedule.
  cbn [enqueue snd fst next_handle].
  unfold chat_jobs_of. rewrite chat_data_reply_and_autodelete.
  cbn [set_chat_jobs chat_data]. by rewrite lookup_insert_eq.
Qed.

(** C3, as the code has it. Two creates in one chat whose readings of
    the clock differ in their millisecond allocate distinct ids, and both
    records are in the registry afterwards. *)
Theorem distinct_clock_distinct_ids (st : State) (u1 u2 : Update)
  (env1 env2 : Env) :
  env_clock_ms env1 ≠ env_clock_ms env2 ->
  distinct_ids_as_stated strptime st u1 u2 env1 env2.
Proof.
  intros Hms rq1 rq2 Hchat Hrq1 Hrq2 chat_id id1 id2 st1 st2.
  assert (id1 ≠ id2) as Hid.
  { intros E. by apply make_job_id_inj in E. }
  split; [done|].
  assert (chat_jobs_of st2 chat_id
          = Dict.set id2 (reminder_info (S (next_handle st1)) rq2)
              (Dict.set id1 (reminder_info (S (next_handle st)) rq1)
                 (chat_jobs_of st chat_id))) as ->.
  { subst st2 st1 id1 id2 chat_id. rewrite Hchat.
    rewrite (remind_creates _ u2 env2 rq2 Hrq2).
    rewrite <- Hchat.
    by rewrite (remind_creates st u1 env1 rq1 Hrq1). }
  split.
  - eexists. rewrite DictFacts.get_set_other by done.
    apply DictFacts.get_set_same.
  - eexists. apply DictFacts.get_set_same.
Qed.

End Creating.

(** Two creates of one chat within one millisecond: [/remind 10m a] and
    [/remind 10m b], both at clock reading 1700000000000.  They allocate
    the same id, and the record of the second takes the place of the
    first. *)
Lemma same_millisecond_same_id :
  ~ distinct_ids_as_stated Strptime.strptime initial_state
      (Scenario.command 7 ["10m"; "a"]) (Scenario.command 9 ["10m"; "b"])
      (Scenario.reading Scenario.t0 1700000000000 (Sent Scenario.chat 8))
      (Scenario.reading Scenario.t0 1700000000000 (Sent Scenario.chat 10)).
Proof.
  intros H.
  destruct (H {| rq_mention := None; rq_due_at := Scenario.t0 + 600000000;
                 rq_delay := 600000000; rq_repeat_interval := None;
                 rq_text := "a" |}
              {| rq_mention := None; rq_due_at := Scenario.t0 + 600000000;
                 rq_delay := 600000000; rq_repeat_interval := None;
                 rq_text := "b" |})
    as [Hne _]; [done | by vm_compute | by vm_compute |].
  by apply Hne.
Qed.

(** ** Parsing a duration *)

Lemma lower_single (u : ascii) :
  Text.lower (String u EmptyString) = String (Text.lower_ascii u) EmptyString.
Proof.
  simpl. destruct (Text.code u =? 208)%N eqn:E; [|done].
  apply N.eqb_eq in E. unfold Text.lower_ascii. by rewrite E.
Qed.

Lemma parse_duration_step_total (acc : Z) (value : string) (unit : ascii) :
  parse_duration_step acc (value, unit)
  = acc + Text.int_of_digits value * unit_seconds unit.
Proof.
  unfold parse_duration_step, unit_seconds. rewrite lower_single.
  cbn [String.eqb].
  destruct (Ascii.eqb (Text.lower_ascii unit) "s"); [lia|].
  destruct (Ascii.eqb (Text.lower_ascii unit) "m"); [lia|].
  destruct (Ascii.eqb (Text.lower_ascii unit) "h"); [lia|].
  destruct (Ascii.eqb (Text.lower_ascii unit) "d"); lia.
Qed.

Lemma parse_duration_loop_total (matches : list (string * ascii)) (acc : Z) :
  fold_left parse_duration_step matches acc = acc + duration_total matches.
Proof.
  revert acc. induction matches as [|[v u] ms IH]; intros acc;
    cbn [fold_left duration_total].
  - lia.
  - rewrite parse_duration_step_total, IH. lia.
Qed.

Lemma timedelta_of_seconds_in_range (n : Z) :
  0 <= n < timedelta_limit ->
  Time.timedelta_of_seconds n = Ok (n * Time.us_per_second).
Proof.
  intros [Hlo Hhi]. unfold Time.timedelta_of_seconds, Time.max_delta_days.
  assert (0 <= n / 86400 < 1000000000) as Hd.
  { split; [apply Z.div_pos; lia|].
    apply Z.div_lt_upper_bound; [lia|]. exact Hhi. }
  rewrite Z.abs_eq by lia.
  by rewrite (proj2 (Z.leb_le _ _)) by lia.
Qed.

Lemma timedelta_of_seconds_overflow (n : Z) :
  timedelta_limit <= n ->
  Time.timedelta_of_seconds n = Raise OverflowError.
Proof.
  intros Hhi. unfold Time.timedelta_of_seconds, Time.max_delta_days.
  assert (1000000000 <= n / 86400) as Hd.
  { apply Z.div_le_lower_bound; [lia|]. exact Hhi. }
  rewrite Z.abs_eq by lia.
  by rewrite (proj2 (Z.leb_gt _ _)) by lia.
Qed.

(** What [parse_duration] returns, by the matches and their total. *)
Lemma parse_duration_by_total (spec : string) :
  let matches := DURATION_RE_findall spec in
  let total := duration_total matches in
  parse_duration spec
  = match matches with
    | [] => Ok None
    | _ =>
        if total <=? 0 then Ok None
        else if total <? timedelta_limit
        then Ok (Some (total * Time.us_per_second))
        else Raise OverflowError
    end.
Proof.
  cbv zeta. unfold parse_duration.
  destruct (DURATION_RE_findall spec) as [|m ms]; [done|].
  rewrite parse_duration_loop_total. rewrite Z.add_0_l.
  set (total := duration_total (m :: ms)).
  destruct (total <=? 0) eqn:E0; [done|]. apply Z.leb_gt in E0.
  destruct (total <? timedelta_limit) eqn:E1.
  - apply Z.ltb_lt in E1. by rewrite timedelta_of_seconds_in_range by lia.
  - apply Z.ltb_ge in E1. by rewrite timedelta_of_seconds_overflow.
Qed.

(** C5, as the code has it. For every input whose summed total is
    below 10^9 days, the first duration a [timedelta] cannot hold, [parse_duration]
    returns the sum over the matched pairs of the value times the
    seconds of the unit, the unit letters read in either case, and it
    returns nothing exactly when no pair matches or the total is not
    positive. *)
Theorem parse_duration_sums_pairs (spec : string) :
  duration_total (DURATION_RE_findall spec) < timedelta_limit ->
  parse_duration_as_stated spec.
Proof.
  intros Hlim. unfold parse_duration_as_stated.
  rewrite parse_duration_by_total.
  destruct (DURATION_RE_findall spec) as [|m ms] eqn:E.
  - split; [split; auto | done].
  - set (total := duration_total (m :: ms)) in *.
    rewrite (proj2 (Z.ltb_lt _ _) Hlim).
    destruct (total <=? 0) eqn:E0.
    + apply Z.leb_le in E0. split; [split; auto | lia].
    + apply Z.leb_gt in E0. split; [|done].
      split; [discriminate | intros [?|?]; [done | lia]].
Qed.

(** A total of 10^9 days or more: the pair matches, the total is
    positive, and the conversion to a [timedelta] raises. *)
Lemma parse_duration_overflows :
  ~ parse_duration_as_stated "1000000000d".
Proof.
  intros [_ H].
  assert (parse_duration "1000000000d" = Raise OverflowError) as Hr
    by (by vm_compute).
  rewrite Hr in H. discriminate H; by vm_compute.
Qed.

(** ** Understanding the target *)

Lemma parse_duration_positive (s : string) (d : timedelta) :
  parse_duration s = Ok (Some d) -> 0 < d.
Proof.
  unfold parse_duration.
  destruct (DURATION_RE_findall s) as [|m ms]; [discriminate|].
  set (total := fold_left parse_duration_step (m :: ms) 0).
  destruct (total <=? 0) eqn:E; [discriminate|].
  apply Z.leb_gt in E.
  unfold Time.timedelta_of_seconds.
  destruct (_ <=? Time.max_delta_days); simpl; [|discriminate].
  intros [= <-]. unfold Time.us_per_second. lia.
Qed.

Lemma parse_duration_truthy (s : string) (d : timedelta) :
  parse_duration s = Ok (Some d) -> Time.truthy (Some d) = true.
Proof.
  intros H%parse_duration_positive. simpl.
  destruct (d =? 0) eqn:E; [lia | done].
Qed.

Section Target.

Variable strptime : string -> string -> option datetime.

Lemma remind_target_time (u : Update) (a0 : string) (rest : list string) :
  upd_reply_to u = None ->
  upd_args u = a0 :: rest ->
  begins_with_time strptime a0 rest ->
  remind_target strptime u = Ok (Continue (None, None, a0 :: rest)).
Proof.
  intros Hr Ha Ht. unfold remind_target. rewrite Hr, Ha.
  destruct Ht as [[d Hd]|[Hd Hdt]]; rewrite Hd; cbn [rbind].
  - apply parse_duration_truthy in Hd. by rewrite Hd.
  - rewrite bool_decide_eq_true_2 by done. done.
Qed.

Lemma remind_target_label (u : Update) (a0 : string) (rest : list string) :
  upd_reply_to u = None ->
  upd_args u = a0 :: rest ->
  begins_with_label strptime a0 rest ->
  remind_target strptime u
  = match rest with
    | [] => Ok (Stop Msg.usage_long)
    | _ => Ok (Continue (None, Some a0, rest))
    end.
Proof.
  intros Hr Ha [Hd Hdt]. unfold remind_target. rewrite Hr, Ha, Hd, Hdt.
  cbn [rbind]. rewrite bool_decide_eq_false_2 by (by intros [? ?]).
  simpl. by destruct rest as [|a1 [|a2 rest]].
Qed.

(** When [parse_duration] raises: exactly when the matched pairs total
    10^9 days or more, and then with [OverflowError]. *)
Lemma parse_duration_raises (spec : string) (e : exn) :
  parse_duration spec = Raise e ->
  e = OverflowError
  /\ timedelta_limit <= duration_total (DURATION_RE_findall spec).
Proof.
  rewrite parse_duration_by_total.
  destruct (DURATION_RE_findall spec) as [|m ms]; [discriminate|].
  set (total := duration_total (m :: ms)).
  destruct (total <=? 0); [discriminate|].
  destruct (total <? timedelta_limit) eqn:E; [discriminate|].
  apply Z.ltb_ge in E. intros [= <-]. done.
Qed.

Lemma parse_duration_overflow (spec : string) :
  timedelta_limit <= duration_total (DURATION_RE_findall spec) ->
  parse_duration spec = Raise OverflowError.
Proof.
  intros Hlim. rewrite parse_duration_by_total.
  destruct (DURATION_RE_findall spec) as [|m ms].
  - cbn [duration_total] in Hlim. unfold timedelta_limit in Hlim. lia.
  - set (total := duration_total (m :: ms)) in *.
    assert (0 < timedelta_limit) by (unfold timedelta_limit; lia).
    rewrite (proj2 (Z.leb_gt total 0)) by lia.
    by rewrite (proj2 (Z.ltb_ge total timedelta_limit)) by lia.
Qed.

Lemma remind_target_overflow (u : Update) (a0 : string) (rest : list string) :
  upd_reply_to u = None ->
  upd_args u = a0 :: rest ->
  timedelta_limit <= duration_total (DURATION_RE_findall a0) ->
  remind_target strptime u = Raise OverflowError.
Proof.
  intros Hr Ha Hlim. unfold remind_target. rewrite Hr, Ha.
  by rewrite (parse_duration_overflow a0 Hlim).
Qed.

(** The first token of a command is a time, or it is none, or the pairs
    matched in it total 10^9 days or more. *)
Lemma first_token_cases (a0 : string) (rest : list string) :
  begins_with_time strptime a0 rest
  \/ begins_with_label strptime a0 rest
  \/ timedelta_limit <= duration_total (DURATION_RE_findall a0).
Proof.
  destruct (parse_duration a0) as [[d|]|e] eqn:Hd.
  - left. left. by exists d.
  - destruct (parse_datetime_spec strptime (a0 :: rest)) as [r|] eqn:Hdt.
    + left. right. split; [done|]. rewrite Hdt. by eexists.
    + right. left. by split.
  - right. right. by apply parse_duration_raises in Hd as [_ Hd].
Qed.

(** C4, as the code has it. For a command that is no reply and has
    tokens: when the first token is a time, no target is taken and all tokens are
    left for the time and the text; when it is not and a second token
    follows, the first token is the target label and the rest are left
    for the time and the text; when it is not and it is the only token,
    the command is answered with the usage text.  The tokens
    ["10m"; "hello"] give no target, the due instant ten minutes after
    the reading of the clock and the text ["hello"], for every reading
    that leaves ten minutes before the last instant a [datetime]
    holds.  When the pairs matched in the first token total 10^9 days or
    more, [parse_duration] raises on it and the handler raises
    [OverflowError] with it: no target is worked out, no call is made
    to the chat and the registry is left as it was.  Every first token
    falls under one of the three cases. *)
Theorem target_rule (u : Update) (a0 : string) (rest : list string) :
  upd_reply_to u = None ->
  upd_args u = a0 :: rest ->
  (begins_with_time strptime a0 rest ->
   remind_target strptime u = Ok (Continue (None, None, a0 :: rest)))
  /\ (begins_with_label strptime a0 rest -> rest ≠ [] ->
      remind_target strptime u = Ok (Continue (None, Some a0, rest)))
  /\ (begins_with_label strptime a0 rest -> rest = [] ->
      remind_target strptime u = Ok (Stop Msg.usage_long))
  /\ (a0 = "10m" -> rest = ["hello"] ->
      forall now, 0 <= now -> now + 600000000 <= Time.datetime_max ->
        remind_request strptime u now
        = Ok (Continue {| rq_mention := None;
                          rq_due_at := now + 600000000;
                          rq_delay := 600000000;
                          rq_repeat_interval := None;
                          rq_text := "hello" |}))
  /\ (timedelta_limit <= duration_total (DURATION_RE_findall a0) ->
      parse_duration a0 = Raise OverflowError
      /\ remind_target strptime u = Raise OverflowError
      /\ forall (st : State) (env : Env),
           run_outcome (remind strptime st u env) = Raise OverflowError
           /\ run_calls (remind strptime st u env) = []
           /\ chat_data (run_state (remind strptime st u env)) = chat_data st)
  /\ (begins_with_time strptime a0 rest
      \/ begins_with_label strptime a0 rest
      \/ timedelta_limit <= duration_total (DURATION_RE_findall a0)).
Proof.
  intros Hr Ha.
  split; [by apply remind_target_time|].
  split.
  { intros Hl Hne. rewrite (remind_target_label u a0 rest) by done.
    by destruct rest. }
  split.
  { intros Hl ->. by rewrite (remind_target_label u a0 []). }
  split.
  { intros -> -> now Hlo Hhi.
    assert (parse_duration "10m" = Ok (Some 600000000)) as Hd
      by (by vm_compute).
    unfold remind_request.
    rewrite (remind_target_time u "10m" ["hello"]) by (try done; left; eauto).
    unfold remind_time. rewrite Hd. cbn [rbind].
    cbn [Time.truthy Z.eqb negb default].
    unfold Time.datetime_add, id.
    rewrite (proj2 (Z.leb_le 0 (now + 600000000))) by lia.
    rewrite (proj2 (Z.leb_le (now + 600000000) Time.datetime_max)) by lia.
    cbn [rbind]. cbn [andb drop].
    reflexivity. }
  split; [|apply first_token_cases].
  intros Hlim.
  split; [by apply parse_duration_overflow|].
  pose proof (remind_target_overflow u a0 rest Hr Ha Hlim) as Ht.
  split; [exact Ht|].
  intros st env. unfold remind, remind_request. rewrite Ht.
  unfold raised. cbn [run_outcome run_calls run_state].
  done.
Qed.

End Target.

(** A single token that is no time: [/remind @bob] is answered with the
    usage text, and no token is taken as a target. *)
Lemma single_label_token_is_usage :
  ~ target_rule_as_stated Strptime.strptime
      (Scenario.command 7 ["@bob"]) "@bob" [].
Proof.
  intros H. destruct (H eq_refl eq_refl) as [_ H2].
  assert (begins_with_label Strptime.strptime "@bob" []) as Hl
    by (split; by vm_compute).
  specialize (H2 Hl). vm_compute in H2. discriminate H2.
Qed.

(** ** The matches of well-formed duration strings *)

Lemma span_app (p : ascii -> bool) (ds r : string) :
  Digits.all_chars p ds = true ->
  match r with String c _ => p c = false | EmptyString => True end ->
  Text.span p (ds +:+ r) = (ds, r).
Proof.
  intros Hds Hr. induction ds as [|c ds IH].
  - change (EmptyString +:+ r) with r.
    destruct r as [|c r]; [done|]. simpl. by rewrite Hr.
  - change (String c ds +:+ r) with (String c (ds +:+ r)).
    simpl in Hds. apply andb_prop in Hds as [Hc Hds].
    simpl. by rewrite Hc, (IH Hds).
Qed.

Lemma unit_not_digit_nor_space (u : ascii) :
  DURATION_RE_unit u = true ->
  Text.is_digit u = false /\ Text.is_space u = false.
Proof.
  intros H.
  destruct u as [[] [] [] [] [] [] [] []];
    vm_compute in H; try discriminate H; by vm_compute.
Qed.

Lemma unit_seconds_positive (u : ascii) :
  DURATION_RE_unit u = true -> 0 < unit_seconds u.
Proof.
  intros H.
  destruct u as [[] [] [] [] [] [] [] []];
    vm_compute in H; try discriminate H; by vm_compute.
Qed.

Lemma scan_skip (x rest : string) (k : nat) :
  DURATION_RE_scan (String.length x + k) (x +:+ rest) = DURATION_RE_scan k rest.
Proof.
  induction x as [|c x IH]; [done|].
  change (String c x +:+ rest) with (String c (x +:+ rest)). simpl. apply IH.
Qed.

Lemma match_pair (ds : string) (u : ascii) (rest : string) :
  Digits.all_chars Text.is_digit ds = true ->
  ds ≠ EmptyString ->
  DURATION_RE_unit u = true ->
  DURATION_RE_match (ds +:+ String u rest)
  = Some ((ds, u), (String.length ds + 0 + 1)%nat).
Proof.
  intros Hds Hne Hu. unfold DURATION_RE_match.
  destruct (unit_not_digit_nor_space u Hu) as [Hd Hs].
  rewrite (span_app Text.is_digit ds (String u rest)) by done.
  destruct ds as [|c ds]; [done|].
  simpl Text.span. rewrite Hs, Hu. done.
Qed.

Lemma scan_pair (ds : string) (u : ascii) (rest : string) :
  Digits.all_chars Text.is_digit ds = true ->
  ds ≠ EmptyString ->
  DURATION_RE_unit u = true ->
  DURATION_RE_scan 0 (ds +:+ String u rest) = (ds, u) :: DURATION_RE_scan 0 rest.
Proof.
  intros Hds Hne Hu.
  pose proof (match_pair ds u rest Hds Hne Hu) as Hm.
  destruct ds as [|c ds]; [done|].
  change (String c ds +:+ String u rest)
    with (String c (ds +:+ String u rest)) in *.
  cbn [DURATION_RE_scan]. rewrite Hm. f_equal.
  replace (String.length (String c ds) + 0 + 1 - 1)%nat
    with (String.length ds + 1)%nat by (simpl; lia).
  rewrite scan_skip. done.
Qed.

(** The matches of a string composed of pairs are its pairs. *)
Lemma findall_render_pairs (pairs : list (Z * ascii)) :
  Forall (fun p => 0 <= fst p /\ DURATION_RE_unit (snd p) = true) pairs ->
  DURATION_RE_findall (render_pairs pairs)
  = map (fun p => (pretty (fst p), snd p)) pairs.
Proof.
  unfold DURATION_RE_findall.
  induction 1 as [|[n u] ps [Hn Hu] _ IH]; [done|].
  cbn [render_pairs fold_right fst snd map]. fold (render_pairs ps).
  rewrite scan_pair;
    [by rewrite IH | by apply DigitsFacts.pretty_Z_digits
     | apply DigitsFacts.pretty_Z_nonempty | done].
Qed.

Lemma duration_total_render_pairs (pairs : list (Z * ascii)) :
  Forall (fun p => 0 <= fst p /\ DURATION_RE_unit (snd p) = true) pairs ->
  duration_total (map (fun p => (pretty (fst p), snd p)) pairs)
  = fold_right (fun p acc => fst p * unit_seconds (snd p) + acc) 0 pairs.
Proof.
  induction 1 as [|[n u] ps [Hn Hu] _ IH]; [done|].
  cbn [map duration_total fold_right fst snd].
  by rewrite DigitsFacts.int_of_digits_pretty, IH by done.
Qed.

(** For a string composed of pairs, [parse_duration] returns the
    arithmetic sum of the pairs. *)
Lemma parse_duration_render_pairs (pairs : list (Z * ascii)) :
  Forall (fun p => 0 <= fst p /\ DURATION_RE_unit (snd p) = true) pairs ->
  let total := fold_right (fun p acc => fst p * unit_seconds (snd p) + acc) 0 pairs in
  0 < total < timedelta_limit ->
  parse_duration (render_pairs pairs) = Ok (Some (total * Time.us_per_second)).
Proof.
  intros Hps total [Hlo Hhi].
  rewrite parse_duration_by_total.
  rewrite findall_render_pairs, duration_total_render_pairs by done.
  fold total.
  destruct pairs as [|p ps]; [simpl in total; lia|].
  cbn [map].
  rewrite (proj2 (Z.leb_gt _ _)) by lia.
  by rewrite (proj2 (Z.ltb_lt _ _)) by lia.
Qed.

Lemma duration_total_permutation (ms1 ms2 : list (string * ascii)) :
  Permutation ms1 ms2 -> duration_total ms1 = duration_total ms2.
Proof.
  induction 1 as [|[v u] l1 l2 _ IH|[v1 u1] [v2 u2] l|l1 l2 l3 _ IH1 _ IH2];
    simpl; lia.
Qed.

Lemma total_seconds_int_of_seconds (n : Z) :
  Time.total_seconds_int (n * Time.us_per_second) = n.
Proof.
  unfold Time.total_seconds_int, Time.us_per_second.
  apply Z.quot_mul. lia.
Qed.

Lemma parse_duration_value (spec : string) (d : timedelta) :
  parse_duration spec = Ok (Some d) ->
  d = duration_total (DURATION_RE_findall spec) * Time.us_per_second.
Proof.
  rewrite parse_duration_by_total.
  destruct (DURATION_RE_findall spec) as [|m ms]; [discriminate|].
  destruct (_ <=? 0); [discriminate|].
  destruct (_ <? timedelta_limit); [|discriminate].
  by intros [= <-].
Qed.

(** ** Rendering what was parsed *)

Lemma humanize_parsed_valid (spec : string) (d : timedelta) :
  parse_duration spec = Ok (Some d) ->
  humanize_parsed spec
  = Ok (Some (humanize_canonical (duration_total (DURATION_RE_findall spec)))).
Proof.
  intros H. unfold humanize_parsed. rewrite H. cbn [rbind fmap option_fmap option_map].
  rewrite (parse_duration_value spec d H).
  by rewrite humanize_delta_canonical, total_seconds_int_of_seconds.
Qed.

(** C6. Two valid duration strings whose components are the same up to
    their order, or whose totals are equal, are rendered alike by
    [humanize_delta] after [parse_duration], and the rendering is the
    canonical one of the total: days, hours, minutes and seconds, largest
    first, zero components left out, joined by blanks.  A zero duration
    is rendered ["0s"]; ["1h20m"] and ["20m1h"] are both rendered
    ["1h 20m"]. *)
Theorem humanize_parse_canonical (x y : string) (dx dy : timedelta) :
  parse_duration x = Ok (Some dx) ->
  parse_duration y = Ok (Some dy) ->
  Permutation (DURATION_RE_findall x) (DURATION_RE_findall y)
  \/ duration_total (DURATION_RE_findall x) = duration_total (DURATION_RE_findall y) ->
  humanize_parsed x
  = Ok (Some (humanize_canonical (duration_total (DURATION_RE_findall x))))
  /\ humanize_parsed y = humanize_parsed x
  /\ humanize_delta 0 = "0s"
  /\ humanize_parsed "1h20m" = Ok (Some "1h 20m")
  /\ humanize_parsed "20m1h" = Ok (Some "1h 20m").
Proof.
  intros Hx Hy Hsame.
  assert (duration_total (DURATION_RE_findall x)
          = duration_total (DURATION_RE_findall y)) as Htotal.
  { destruct Hsame as [Hperm|Heq]; [by apply duration_total_permutation | done]. }
  rewrite (humanize_parsed_valid x dx Hx), (humanize_parsed_valid y dy Hy).
  rewrite Htotal. repeat split; by vm_compute.
Qed.

(** ** What holds of every state the bot reaches *)

Lemma entry_allocated_mono (st st' : State) (chat_id : Z) entry :
  (next_handle st <= next_handle st')%nat ->
  entry_allocated st chat_id entry -> entry_allocated st' chat_id entry.
Proof. intros Hle [Hh Hid]. split; [lia | done]. Qed.

Lemma allocated_entries (st : State) (chat_id : Z) entry :
  handles_allocated st ->
  In entry (chat_jobs_of st chat_id) ->
  entry_allocated st chat_id entry.
Proof.
  intros [_ Hreg] Hin. unfold chat_jobs_of in Hin.
  destruct (chat_data st !! chat_id) as [d|] eqn:E; simpl in Hin; [|done].
  by apply (Hreg chat_id d).
Qed.

Lemma allocated_enqueue (st : State) (j : Job) :
  handles_allocated st -> handles_allocated (snd (enqueue st j)).
Proof.
  intros [Hq Hreg]. split; simpl.
  - intros h j' Hl. destruct (decide (next_handle st = h)) as [<-|Hne]; [lia|].
    rewrite lookup_insert_ne in Hl by done. apply Hq in Hl. lia.
  - intros c d e Hd Hin.
    apply (entry_allocated_mono st); [simpl; lia | by apply (Hreg c d)].
Qed.

Lemma allocated_schedule_removal (st : State) (h : nat) :
  handles_allocated st -> handles_allocated (schedule_removal st h).
Proof.
  intros [Hq Hreg]. split; simpl.
  - intros h' j Hl. destruct (decide (h = h')) as [<-|Hne].
    + by rewrite lookup_delete_eq in Hl.
    + rewrite lookup_delete_ne in Hl by done. by apply Hq in Hl.
  - intros c d e Hd Hin. by apply (Hreg c d).
Qed.

Lemma allocated_set_job (st : State) (h : nat) (j : Job) :
  (h < next_handle st)%nat ->
  handles_allocated st -> handles_allocated (set_job st h j).
Proof.
  intros Hh [Hq Hreg]. split; simpl.
  - intros h' j' Hl. destruct (decide (h = h')) as [<-|Hne]; [done|].
    rewrite lookup_insert_ne in Hl by done. by apply Hq in Hl.
  - intros c d e Hd Hin. by apply (Hreg c d).
Qed.

Lemma allocated_set_chat_jobs (st : State) (chat_id : Z) d :
  (forall entry, In entry d -> entry_allocated st chat_id entry) ->
  handles_allocated st -> handles_allocated (set_chat_jobs st chat_id d).
Proof.
  intros Hd [Hq Hreg]. split; simpl; [done|].
  intros c d' e Hl Hin. destruct (decide (chat_id = c)) as [<-|Hne].
  - rewrite lookup_insert_eq in Hl. injection Hl as <-. by apply Hd.
  - rewrite lookup_insert_ne in Hl by done. by apply (Hreg c d').
Qed.

Lemma allocated_update_chat_jobs (st : State) (chat_id : Z) d :
  (forall entry, In entry d -> entry_allocated st chat_id entry) ->
  handles_allocated st -> handles_allocated (update_chat_jobs st chat_id d).
Proof.
  intros Hd Hst. unfold update_chat_jobs.
  destruct (chat_data st !! chat_id); [by apply allocated_set_chat_jobs | done].
Qed.

Lemma allocated_reply_and_return st call resp :
  handles_allocated st ->
  handles_allocated (run_state (reply_and_return st call resp)).
Proof. by rewrite run_state_reply_and_return. Qed.

Lemma allocated_reply_and_autodelete st call resp w :
  handles_allocated st ->
  handles_allocated (run_state (reply_and_autodelete st call resp w)).
Proof. intros H. destruct resp; simpl; [by apply allocated_enqueue | done]. Qed.

Lemma allocated_remove st chat_id k entry :
  handles_allocated st ->
  In entry (Dict.remove k (chat_jobs_of st chat_id)) ->
  entry_allocated st chat_id entry.
Proof.
  intros Hst Hin. apply allocated_entries; [done|].
  destruct entry as [k' v']. by apply DictFacts.In_remove in Hin.
Qed.

Section Reachable.

Variable strptime : string -> string -> option datetime.

Lemma allocated_remind st u env :
  handles_allocated st ->
  handles_allocated (run_state (remind strptime st u env)).
Proof.
  intros Hst. unfold remind.
  set (st0 := snd (enqueue st _)).
  assert (handles_allocated st0) as H0 by (by apply allocated_enqueue).
  destruct (remind_request strptime u (env_now env)) as [[rq|text]|e]; simpl.
  - unfold remind_schedule. cbn [enqueue].
    apply allocated_reply_and_autodelete.
    set (st1 := {| chat_data := chat_data st0;
                   job_queue := <[next_handle st0 := _]> (job_queue st0);
                   next_handle := S (next_handle st0) |}).
    assert (handles_allocated st1) as H1
      by exact (allocated_enqueue st0 _ H0).
    apply allocated_set_chat_jobs; [|done].
    intros [k v] Hin. apply DictFacts.In_set in Hin as [[-> ->]|Hin].
    + split; simpl; [lia | by eexists].
    + by apply allocated_entries.
  - by apply allocated_reply_and_return.
  - done.
Qed.

Lemma allocated_list_reminders st u env :
  handles_allocated st ->
  handles_allocated (run_state (list_reminders st u env)).
Proof.
  intros Hst. unfold list_reminders.
  destruct (chat_jobs_of st (upd_chat_id u));
    [by apply allocated_reply_and_return
    | by apply allocated_reply_and_autodelete].
Qed.

Lemma allocated_disarm_all (infos : list ReminderInfo) st :
  handles_allocated st ->
  handles_allocated
    (fold_left (fun s data => schedule_removal s (ri_job data)) infos st).
Proof.
  revert st. induction infos as [|i infos IH]; intros st Hst; [done|].
  simpl. by apply IH, allocated_schedule_removal.
Qed.

Lemma allocated_cancel_all st u env :
  handles_allocated st ->
  handles_allocated (run_state (cancel_all st u env)).
Proof.
  intros Hst. unfold cancel_all.
  destruct (chat_jobs_of st (upd_chat_id u)) as [|e0 d0];
    [by apply allocated_reply_and_return|].
  apply allocated_reply_and_autodelete, allocated_update_chat_jobs; [done|].
  by apply allocated_disarm_all.
Qed.

Lemma allocated_cancel_id st u env job_id :
  handles_allocated st ->
  handles_allocated (run_state (cancel_id st u env job_id)).
Proof.
  intros Hst. unfold cancel_id.
  destruct (String.eqb _ "all"); [by apply allocated_cancel_all|].
  unfold Dict.pop.
  assert (handles_allocated
            (update_chat_jobs st (upd_chat_id u)
               (Dict.remove job_id (chat_jobs_of st (upd_chat_id u))))) as H1.
  { apply allocated_update_chat_jobs; [|done].
    intros e He. by apply (allocated_remove st _ job_id). }
  destruct (Dict.get job_id _) as [info|].
  - by apply allocated_reply_and_autodelete, allocated_schedule_removal.
  - by apply allocated_reply_and_return.
Qed.

Lemma allocated_cancel st u env :
  handles_allocated st ->
  handles_allocated (run_state (cancel st u env)).
Proof.
  intros Hst. unfold cancel.
  destruct (upd_args u) as [|a0 rest]; [|by apply allocated_cancel_id].
  destruct (chat_jobs_of st (upd_chat_id u)) as [|[k v] [|e1 d]].
  - by apply allocated_reply_and_return.
  - by apply allocated_cancel_id.
  - by apply allocated_reply_and_autodelete.
Qed.

Lemma allocated_send_reminder st h j data env :
  (h < next_handle st)%nat ->
  handles_allocated st ->
  handles_allocated (run_state (send_reminder st h j data env)).
Proof.
  intros Hh Hst. unfold send_reminder.
  destruct (env_response env); [|done].
  destruct (Time.truthy _).
  - destruct (Time.datetime_add _ _); simpl; [by apply allocated_set_job | done].
  - simpl. apply allocated_update_chat_jobs; [|done].
    intros e He. by apply (allocated_remove st _ (job_name j)).
Qed.

Lemma allocated_fire st h env :
  handles_allocated st ->
  handles_allocated (run_state (fire st h env)).
Proof.
  intros Hst. unfold fire.
  destruct (job_queue st !! h) as [j|] eqn:E; [|done]. simpl.
  assert (h < next_handle st)%nat as Hh by (by apply (proj1 Hst h j)).
  assert (forall s, handles_allocated s ->
            handles_allocated
              match job_trigger j with
              | Once _ => schedule_removal s h
              | Repeating _ _ => s
              end) as Htr.
  { intros s Hs. destruct (job_trigger j);
      [by apply allocated_schedule_removal | done]. }
  apply Htr. destruct (job_data j) as [data|c m].
  - by apply allocated_send_reminder.
  - unfold delete_message_job. by destruct (_ || _).
Qed.

(** Every reachable state has its handles and ids allocated. *)
Lemma reachable_allocated st :
  reachable strptime st -> handles_allocated st.
Proof.
  induction 1.
  - split; intros *; simpl; by rewrite lookup_empty.
  - by apply allocated_remind.
  - by apply allocated_list_reminders.
  - by apply allocated_cancel.
  - by apply allocated_fire.
Qed.

(** In a reachable state every record of a registry has a handle the
    queue has handed out and an id that does not read as the keyword
    [all]: what the theorems on [cancel] ask of the state. *)
Lemma reachable_registry_entry st chat_id d job_id info :
  reachable strptime st ->
  chat_data st !! chat_id = Some d ->
  In (job_id, info) d ->
  (ri_job info < next_handle st)%nat
  /\ (exists clock_ms, job_id = make_job_id chat_id clock_ms)
  /\ Text.lower job_id ≠ "all".
Proof.
  intros Hr Hd Hin.
  destruct (reachable_allocated st Hr) as [_ Hreg].
  destruct (Hreg chat_id d (job_id, info) Hd Hin) as [Hh [ms Hid]].
  simpl in Hh, Hid. split; [done|]. split; [by exists ms|].
  subst job_id. apply make_job_id_not_all.
Qed.

End Reachable.


(** ** The theorems at the scenarios *)

Lemma cancel_unknown_id_not_found_witness :
  let st := Scenario.one_shot_created in
  let u := Scenario.command 11 ["-1001-42"] in
  let env := Scenario.reading Scenario.fire_time 1700000601000 (Sent Scenario.chat 12) in
  (upd_args u = ["-1001-42"]
   /\ Text.lower "-1001-42" ≠ "all"
   /\ Dict.get "-1001-42" (chat_jobs_of st (upd_chat_id u)) = None)
  /\ run_calls (cancel st u env) = [reply_text Scenario.chat Msg.not_found]
  /\ run_state (cancel st u env) = st.
Proof.
  intros st u env.
  assert (upd_args u = ["-1001-42"]) as H1 by reflexivity.
  assert (Text.lower "-1001-42" ≠ "all") as H2 by (vm_compute; discriminate).
  assert (Dict.get "-1001-42" (chat_jobs_of st (upd_chat_id u)) = None) as H3
    by (vm_compute; reflexivity).
  split; [by repeat split|].
  exact (cancel_unknown_id_not_found st u env "-1001-42" [] H1 H2 H3).
Defined.

Lemma cancel_without_id_takes_single_witness :
  let st := Scenario.one_shot_created in
  let u := Scenario.command 11 [] in
  let env := Scenario.reading Scenario.fire_time 1700000601000 (Sent Scenario.chat 12) in
  (upd_args u = []
   /\ chat_data st !! Scenario.chat
      = Some [(make_job_id Scenario.chat 1700000000000, Scenario.one_shot_info)]
   /\ (ri_job Scenario.one_shot_info < next_handle st)%nat)
  /\ chat_data (run_state (cancel st u env)) !! Scenario.chat = Some []
  /\ job_queue (run_state (cancel st u env)) !! 1%nat = None
  /\ run_calls (cancel st u env)
     = [reply_html Scenario.chat
          "Отменено: <code>-1001-1700000000000</code> для без адресата."].
Proof.
  intros st u env.
  assert (upd_args u = []) as H1 by reflexivity.
  assert (chat_data st !! upd_chat_id u
          = Some [(make_job_id (upd_chat_id u) 1700000000000, Scenario.one_shot_info)])
    as H2 by (vm_compute; reflexivity).
  assert (ri_job Scenario.one_shot_info < next_handle st)%nat as H3
    by (vm_compute; lia).
  split; [by repeat split|].
  exact (cancel_without_id_takes_single st u env 1700000000000
           Scenario.one_shot_info H1 H2 H3).
Defined.


Lemma list_shows_clamped_remaining_witness :
  let st := Scenario.repeating_created in
  let u := Scenario.command 11 [] in
  let env := Scenario.reading Scenario.fire_time 1700000601000 (Sent Scenario.chat 12) in
  chat_jobs_of st (upd_chat_id u) ≠ []
  /\ run_calls (list_reminders st u env)
     = [reply_html Scenario.chat
          (Msg.active_header
           +:+ "-1001-1700000000000: без адресата — через 0s — повтор каждые 1h — hi")].
Proof.
  intros st u env.
  assert (chat_jobs_of st (upd_chat_id u) ≠ []) as H1 by (vm_compute; discriminate).
  destruct (list_shows_clamped_remaining st u env H1) as [Hcalls _].
  split; [exact H1|]. rewrite Hcalls. vm_compute. reflexivity.
Defined.

Lemma distinct_clock_distinct_ids_witness :
  let u1 := Scenario.command 7 ["10m"; "a"] in
  let u2 := Scenario.command 9 ["10m"; "b"] in
  let env1 := Scenario.reading Scenario.t0 1700000000000 (Sent Scenario.chat 8) in
  let env2 := Scenario.reading Scenario.t0 1700000000001 (Sent Scenario.chat 10) in
  let st2 :=
    run_state (remind Strptime.strptime
                 (run_state (remind Strptime.strptime initial_state u1 env1))
                 u2 env2) in
  env_clock_ms env1 ≠ env_clock_ms env2
  /\ "-1001-1700000000000" ≠ "-1001-1700000000001"
  /\ (exists info, Dict.get "-1001-1700000000000" (chat_jobs_of st2 Scenario.chat)
                   = Some info /\ ri_text info = "a")
  /\ (exists info, Dict.get "-1001-1700000000001" (chat_jobs_of st2 Scenario.chat)
                   = Some info /\ ri_text info = "b").
Proof.
  intros u1 u2 env1 env2 st2.
  assert (env_clock_ms env1 ≠ env_clock_ms env2) as Hms by (vm_compute; discriminate).
  split; [exact Hms|].
  destruct (distinct_clock_distinct_ids Strptime.strptime initial_state
              u1 u2 env1 env2 Hms
              {| rq_mention := None; rq_due_at := Scenario.t0 + 600000000;
                 rq_delay := 600000000; rq_repeat_interval := None;
                 rq_text := "a" |}
              {| rq_mention := None; rq_due_at := Scenario.t0 + 600000000;
                 rq_delay := 600000000; rq_repeat_interval := None;
                 rq_text := "b" |}
              eq_refl ltac:(vm_compute; reflexivity) ltac:(vm_compute; reflexivity))
    as (Hne & [h1 Hg1] & [h2 Hg2]).
  split; [exact Hne|]. split; eexists; split; [exact Hg1 | reflexivity | exact Hg2 | reflexivity].
Defined.

Lemma target_rule_witness :
  let u := Scenario.command 7 ["10m"; "hello"] in
  let v := Scenario.command 7 ["@bob"; "10m"; "hello"] in
  let w := Scenario.command 7 ["@bob"] in
  let x := Scenario.command 7 ["1000000000d"; "hi"] in
  let env := Scenario.reading Scenario.t0 1700000000000 (Sent Scenario.chat 8) in
  (upd_reply_to u = None /\ upd_args u = ["10m"; "hello"])
  /\ remind_target Strptime.strptime u = Ok (Continue (None, None, ["10m"; "hello"]))
  /\ remind_request Strptime.strptime u Scenario.t0
     = Ok (Continue {| rq_mention := None;
                       rq_due_at := Scenario.t0 + 600000000;
                       rq_delay := 600000000;
                       rq_repeat_interval := None;
                       rq_text := "hello" |})
  /\ remind_target Strptime.strptime v
     = Ok (Continue (None, Some "@bob", ["10m"; "hello"]))
  /\ remind_target Strptime.strptime w = Ok (Stop Msg.usage_long)
  /\ timedelta_limit <= duration_total (DURATION_RE_findall "1000000000d")
  /\ remind_target Strptime.strptime x = Raise OverflowError
  /\ run_outcome (remind Strptime.strptime initial_state x env) = Raise OverflowError
  /\ run_calls (remind Strptime.strptime initial_state x env) = []
  /\ chat_data (run_state (remind Strptime.strptime initial_state x env))
     = chat_data initial_state.
Proof.
  intros u v w x env.
  assert (begins_with_time Strptime.strptime "10m" ["hello"]) as Ht.
  { left. exists 600000000. vm_compute. reflexivity. }
  assert (begins_with_label Strptime.strptime "@bob" ["10m"; "hello"]) as Hl.
  { split; vm_compute; reflexivity. }
  assert (begins_with_label Strptime.strptime "@bob" []) as Hl1.
  { split; vm_compute; reflexivity. }
  assert (timedelta_limit <= duration_total (DURATION_RE_findall "1000000000d"))
    as Hlim.
  { vm_compute. discriminate. }
  destruct (target_rule Strptime.strptime u "10m" ["hello"] eq_refl eq_refl)
    as (Hu1 & _ & _ & Hu4 & _ & _).
  destruct (target_rule Strptime.strptime v "@bob" ["10m"; "hello"] eq_refl eq_refl)
    as (_ & Hv2 & _ & _ & _ & _).
  destruct (target_rule Strptime.strptime w "@bob" [] eq_refl eq_refl)
    as (_ & _ & Hw3 & _ & _ & _).
  destruct (target_rule Strptime.strptime x "1000000000d" ["hi"] eq_refl eq_refl)
    as (_ & _ & _ & _ & Hx5 & _).
  destruct (Hx5 Hlim) as (_ & Hx & Hrun).
  destruct (Hrun initial_state env) as (Ho & Hc & Hd).
  split; [by split|].
  split; [exact (Hu1 Ht)|].
  split; [apply (Hu4 eq_refl eq_refl); vm_compute; discriminate|].
  split; [apply (Hv2 Hl); discriminate|].
  split; [exact (Hw3 Hl1 eq_refl)|].
  split; [exact Hlim|].
  split; [exact Hx|].
  split; [exact Ho|].
  split; [exact Hc | exact Hd].
Defined.

Lemma parse_duration_sums_pairs_witness :
  duration_total (DURATION_RE_findall "1h 20M") < timedelta_limit
  /\ DURATION_RE_findall "1h 20M" = [("1", "h"%char); ("20", "M"%char)]
  /\ parse_duration_as_stated "1h 20M"
  /\ parse_duration "1h 20M" = Ok (Some (4800 * Time.us_per_second)).
Proof.
  assert (duration_total (DURATION_RE_findall "1h 20M") < timedelta_limit) as H
    by (vm_compute; reflexivity).
  pose proof (parse_duration_sums_pairs "1h 20M" H) as Hs.
  split; [vm_compute; reflexivity|].
  split; [vm_compute; reflexivity|].
  split; [exact Hs|].
  destruct Hs as [_ Hv]. apply Hv; [discriminate | vm_compute; reflexivity].
Defined.

Lemma humanize_parse_canonical_witness :
  (parse_duration "1h20m" = Ok (Some 4800000000)
   /\ parse_duration "20m1h" = Ok (Some 4800000000)
   /\ Permutation (DURATION_RE_findall "1h20m") (DURATION_RE_findall "20m1h"))
  /\ humanize_parsed "1h20m" = Ok (Some (humanize_canonical 4800))
  /\ humanize_parsed "20m1h" = humanize_parsed "1h20m".
Proof.
  assert (parse_duration "1h20m" = Ok (Some 4800000000)) as Hx
    by (vm_compute; reflexivity).
  assert (parse_duration "20m1h" = Ok (Some 4800000000)) as Hy
    by (vm_compute; reflexivity).
  assert (Permutation (DURATION_RE_findall "1h20m") (DURATION_RE_findall "20m1h"))
    as Hp by (vm_compute; apply perm_swap).
  destruct (humanize_parse_canonical "1h20m" "20m1h" 4800000000 4800000000
              Hx Hy (or_introl Hp)) as (H1 & H2 & _).
  split; [by repeat split|]. split; [exact H1 | exact H2].
Defined.


(** * Further properties of the code *)

(** ** [parse_duration] *)

Lemma span_fst_all (p : ascii -> bool) (s : string) :
  Digits.all_chars p (fst (Text.span p s)) = true.
Proof.
  induction s as [|c s IH]; [done|]. simpl.
  destruct (p c) eqn:E; [|done].
  destruct (Text.span p s) as [a b]. simpl in *. by rewrite E, IH.
Qed.

Lemma match_is_ok (s : string) m len :
  DURATION_RE_match s = Some (m, len) -> match_ok m.
Proof.
  unfold DURATION_RE_match.
  pose proof (span_fst_all Text.is_digit s) as Hd.
  destruct (Text.span Text.is_digit s) as [digits r1]. simpl in Hd.
  destruct digits as [|c ds]; [discriminate|].
  destruct (Text.span Text.is_space r1) as [blanks r2].
  destruct r2 as [|u r3]; [discriminate|].
  destruct (DURATION_RE_unit u) eqn:Hu; [|discriminate].
  intros [= <- _]. by repeat split.
Qed.

Lemma scan_all_ok (s : string) (skip : nat) :
  Forall match_ok (DURATION_RE_scan skip s).
Proof.
  revert skip. induction s as [|c s IH]; intros skip; [constructor|].
  cbn [DURATION_RE_scan]. destruct skip as [|k]; [|apply IH].
  destruct (DURATION_RE_match (String c s)) as [[m len]|] eqn:E; [|apply IH].
  constructor; [by eapply match_is_ok | apply IH].
Qed.

Lemma digit_value_nonneg (c : ascii) :
  Text.is_digit c = true -> 0 <= Text.digit_value c.
Proof.
  unfold Text.is_digit, Text.digit_value.
  intros [H1 _]%andb_prop. apply N.leb_le in H1. lia.
Qed.

Lemma int_acc_nonneg (s : string) (acc : Z) :
  Digits.all_chars Text.is_digit s = true -> 0 <= acc ->
  0 <= Digits.int_acc acc s.
Proof.
  revert acc. induction s as [|c s IH]; intros acc Hs Hacc; [done|].
  simpl in Hs. apply andb_prop in Hs as [Hc Hs].
  unfold Digits.int_acc in *. simpl. apply IH; [done|].
  pose proof (digit_value_nonneg c Hc). lia.
Qed.

(** A matched amount is never negative, and no unit counts a negative
    number of seconds: a letter the loop knows counts its seconds, any
    other counts none. *)
Lemma match_amount_nonneg (m : string * ascii) :
  match_ok m -> 0 <= Text.int_of_digits (fst m).
Proof.
  intros (Hd & _ & _). by apply (int_acc_nonneg (fst m) 0).
Qed.

Lemma unit_seconds_nonneg (u : ascii) : 0 <= unit_seconds u.
Proof.
  unfold unit_seconds. cbv zeta.
  destruct (Ascii.eqb _ "s"); [lia|].
  destruct (Ascii.eqb _ "m"); [lia|].
  destruct (Ascii.eqb _ "h"); [lia|].
  destruct (Ascii.eqb _ "d"); lia.
Qed.

Lemma duration_total_nonneg (ms : list (string * ascii)) :
  Forall match_ok ms -> 0 <= duration_total ms.
Proof.
  induction 1 as [|[v u] ms Hm _ IH]; [done|].
  cbn [duration_total]. pose proof (match_amount_nonneg _ Hm) as Hv.
  pose proof (unit_seconds_nonneg u) as Hu.
  simpl in Hv. nia.
Qed.

Lemma duration_total_zero (ms : list (string * ascii)) :
  Forall match_ok ms ->
  duration_total ms = 0
  <-> Forall (fun m => Text.int_of_digits (fst m) = 0 \/ unit_seconds (snd m) = 0) ms.
Proof.
  induction 1 as [|[v u] ms Hm Hms IH]; [by split|].
  cbn [duration_total]. pose proof (match_amount_nonneg _ Hm) as Hv.
  pose proof (unit_seconds_nonneg u) as Hu.
  simpl in Hv. pose proof (duration_total_nonneg ms Hms) as Ht.
  split.
  - intros H0.
    assert (Text.int_of_digits v * unit_seconds u = 0) as Hp by nia.
    constructor; [simpl; by apply Z.mul_eq_0 | apply IH; nia].
  - intros H0. inversion H0 as [|? ? Hz Hrest]; subst. simpl in Hz.
    apply IH in Hrest. rewrite Hrest. destruct Hz as [-> | ->]; lia.
Qed.

(** X1. A duration [parse_duration] returns is a positive whole number
    of seconds, the sum of its matches, and lies below 10^9 days. *)
Theorem parse_duration_returns_positive_seconds (spec : string) (d : timedelta) :
  parse_duration spec = Ok (Some d) ->
  let total := duration_total (DURATION_RE_findall spec) in
  d = total * Time.us_per_second /\ 0 < total < timedelta_limit.
Proof.
  intros H total. split; [by apply parse_duration_value|].
  rewrite parse_duration_by_total in H. fold total in H.
  destruct (DURATION_RE_findall spec) as [|m ms]; [discriminate|].
  destruct (total <=? 0) eqn:E0; [discriminate|].
  destruct (total <? timedelta_limit) eqn:E1; [|discriminate].
  apply Z.leb_gt in E0. apply Z.ltb_lt in E1. lia.
Qed.

Lemma parse_duration_returns_positive_seconds_witness :
  parse_duration "2d3h" = Ok (Some 183600000000)
  /\ 183600000000 = 183600 * Time.us_per_second
  /\ 0 < 183600 < timedelta_limit.
Proof.
  assert (parse_duration "2d3h" = Ok (Some 183600000000)) as H
    by (vm_compute; reflexivity).
  split; [exact H|].
  exact (parse_duration_returns_positive_seconds "2d3h" 183600000000 H).
Defined.

(** X2. [parse_duration] returns nothing exactly when every pair it
    matches counts nothing, which includes the case that nothing
    matches: the amount of the pair is zero, or its unit is none of the
    letters [s], [m], [h], [d] once lowered, so that the loop adds
    nothing for it (the long s, which the class admits when case is
    ignored, is such a unit).  An amount is never negative, so the guard
    [total_seconds <= 0] only ever catches a total of zero. *)
Theorem parse_duration_none_iff_nothing_counts (spec : string) :
  parse_duration spec = Ok None
  <-> Forall (fun m => Text.int_of_digits (fst m) = 0 \/ unit_seconds (snd m) = 0)
        (DURATION_RE_findall spec).
Proof.
  rewrite parse_duration_by_total.
  pose proof (scan_all_ok spec 0) as Hok. fold (DURATION_RE_findall spec) in Hok.
  destruct (DURATION_RE_findall spec) as [|m ms] eqn:E; [by split|].
  set (total := duration_total (m :: ms)).
  pose proof (duration_total_nonneg _ Hok) as Hnn. fold total in Hnn.
  pose proof (duration_total_zero _ Hok) as Hz. fold total in Hz.
  destruct (total <=? 0) eqn:E0.
  - apply Z.leb_le in E0. split; [intros _; apply Hz; lia | done].
  - apply Z.leb_gt in E0. split.
    + destruct (total <? timedelta_limit); discriminate.
    + intros H0. apply Hz in H0. lia.
Qed.

(** X3. The pairs of a string written as numbers followed by unit
    letters are what [parse_duration] matches, and what it returns is
    their arithmetic sum. *)
Theorem parse_duration_of_written_pairs (pairs : list (Z * ascii)) :
  Forall (fun p => 0 <= fst p /\ DURATION_RE_unit (snd p) = true) pairs ->
  let total := fold_right (fun p acc => fst p * unit_seconds (snd p) + acc) 0 pairs in
  0 < total < timedelta_limit ->
  DURATION_RE_findall (render_pairs pairs)
  = map (fun p => (pretty (fst p), snd p)) pairs
  /\ parse_duration (render_pairs pairs) = Ok (Some (total * Time.us_per_second)).
Proof.
  intros Hps total Htotal. split.
  - by apply findall_render_pairs.
  - by apply parse_duration_render_pairs.
Qed.

Lemma parse_duration_of_written_pairs_witness :
  render_pairs [(2, "D"%char); (3, "h"%char); (0, "s"%char)] = "2D3h0s"
  /\ DURATION_RE_findall "2D3h0s" = [("2", "D"%char); ("3", "h"%char); ("0", "s"%char)]
  /\ parse_duration "2D3h0s" = Ok (Some (183600 * Time.us_per_second)).
Proof.
  assert (Forall (fun p => 0 <= fst p /\ DURATION_RE_unit (snd p) = true)
            [(2, "D"%char); (3, "h"%char); (0, "s"%char)]) as Hps.
  { repeat constructor; simpl; lia. }
  assert (0 < 183600 < timedelta_limit) as Ht by (vm_compute; split; reflexivity).
  split; [vm_compute; reflexivity|].
  exact (parse_duration_of_written_pairs
           [(2, "D"%char); (3, "h"%char); (0, "s"%char)] Hps Ht).
Defined.

(** ** [humanize_delta] read back by [parse_duration] *)

Lemma scan_blank (rest : string) :
  DURATION_RE_scan 0 (String " "%char rest) = DURATION_RE_scan 0 rest.
Proof. reflexivity. Qed.

Lemma findall_joined_pairs (pairs : list (Z * ascii)) :
  Forall (fun p => 0 <= fst p /\ DURATION_RE_unit (snd p) = true) pairs ->
  DURATION_RE_findall
    (Text.join " " (map (fun p => pretty (fst p) +:+ String (snd p) EmptyString) pairs))
  = map (fun p => (pretty (fst p), snd p)) pairs.
Proof.
  unfold DURATION_RE_findall.
  induction 1 as [|[n u] ps [Hn Hu] Hps IH]; [done|].
  destruct ps as [|q ps].
  - cbn [map Text.join fst snd].
    rewrite scan_pair;
      [done | by apply DigitsFacts.pretty_Z_digits
       | apply DigitsFacts.pretty_Z_nonempty | done].
  - change (Text.join " " (map _ ((n, u) :: q :: ps)))
      with ((pretty n +:+ String u EmptyString) +:+ " "
            +:+ Text.join " "
                  (map (fun p => pretty (fst p) +:+ String (snd p) EmptyString)
                       (q :: ps))).
    rewrite DigitsFacts.string_app_assoc.
    change (String u EmptyString +:+ " " +:+ ?r) with (String u (String " "%char r)).
    rewrite scan_pair;
      [| by apply DigitsFacts.pretty_Z_digits
       | apply DigitsFacts.pretty_Z_nonempty | done].
    rewrite scan_blank, IH. done.
Qed.

Lemma humanize_canonical_shown (seconds : Z) :
  humanize_canonical seconds
  = match shown_components seconds with
    | [] => "0s"
    | cs => Text.join " "
              (map (fun p => pretty (fst p) +:+ String (snd p) EmptyString) cs)
    end.
Proof.
  unfold humanize_canonical, humanize_components, shown_components.
  cbn [List.filter fst snd].
  destruct (seconds / 86400 =? 0); destruct ((seconds / 3600) mod 24 =? 0);
    destruct ((seconds / 60) mod 60 =? 0); destruct (seconds mod 60 =? 0);
    reflexivity.
Qed.

Lemma seconds_decomposition (n : Z) :
  n = (n / 86400) * 86400 + ((n / 3600) mod 24) * 3600
      + ((n / 60) mod 60) * 60 + n mod 60.
Proof.
  pose proof (Z.div_mod n 86400 ltac:(lia)) as H1.
  pose proof (Z.rem_mul_r n 3600 24 ltac:(lia) ltac:(lia)) as H2.
  pose proof (Z.rem_mul_r n 60 60 ltac:(lia) ltac:(lia)) as H3.
  change (3600 * 24) with 86400 in H2. change (60 * 60) with 3600 in H3.
  lia.
Qed.

Lemma shown_components_total (n : Z) :
  fold_right (fun p acc => fst p * unit_seconds (snd p) + acc) 0
             (shown_components n) = n.
Proof.
  pose proof (seconds_decomposition n) as Hn.
  unfold shown_components. cbn [List.filter fst].
  destruct (n / 86400 =? 0) eqn:E1; destruct ((n / 3600) mod 24 =? 0) eqn:E2;
    destruct ((n / 60) mod 60 =? 0) eqn:E3; destruct (n mod 60 =? 0) eqn:E4;
    cbn [negb fold_right fst snd];
    change (unit_seconds "d") with 86400; change (unit_seconds "h") with 3600;
    change (unit_seconds "m") with 60; change (unit_seconds "s") with 1;
    rewrite ?Z.eqb_eq in *; lia.
Qed.

Lemma shown_components_ok (n : Z) :
  0 <= n ->
  Forall (fun p => 0 <= fst p /\ DURATION_RE_unit (snd p) = true)
         (shown_components n).
Proof.
  intros Hn. unfold shown_components.
  rewrite List.Forall_forall. intros p [Hin _]%filter_In.
  simpl in Hin.
  destruct Hin as [<-|[<-|[<-|[<-|[]]]]]; simpl; split; try done;
    try (apply Z.div_pos; lia); apply Z.mod_pos_bound; lia.
Qed.

(** X4. What [humanize_delta] renders, [parse_duration] reads back: for
    a duration of a positive whole number of seconds below 10^9 days the
    rendering parses to that duration. *)
Theorem parse_duration_of_humanize_delta (n : Z) :
  0 < n < timedelta_limit ->
  parse_duration (humanize_delta (n * Time.us_per_second))
  = Ok (Some (n * Time.us_per_second)).
Proof.
  intros [Hlo Hhi].
  rewrite humanize_delta_canonical, total_seconds_int_of_seconds.
  rewrite humanize_canonical_shown.
  pose proof (shown_components_total n) as Ht.
  pose proof (shown_components_ok n ltac:(lia)) as Hok.
  destruct (shown_components n) as [|c cs] eqn:E.
  { simpl in Ht. lia. }
  rewrite parse_duration_by_total.
  rewrite findall_joined_pairs by done.
  rewrite duration_total_render_pairs by done. rewrite Ht.
  cbn [map].
  rewrite (proj2 (Z.leb_gt _ _)) by lia.
  by rewrite (proj2 (Z.ltb_lt _ _)) by lia.
Qed.

Lemma parse_duration_of_humanize_delta_witness :
  0 < 93784 < timedelta_limit
  /\ humanize_delta (93784 * Time.us_per_second) = "1d 2h 3m 4s"
  /\ parse_duration "1d 2h 3m 4s" = Ok (Some (93784 * Time.us_per_second)).
Proof.
  assert (0 < 93784 < timedelta_limit) as H by (vm_compute; split; reflexivity).
  split; [exact H|]. split; [vm_compute; reflexivity|].
  exact (parse_duration_of_humanize_delta 93784 H).
Defined.

(** ** [parse_datetime_spec] *)

Section DatetimeSpecFacts.

Variable strptime : string -> string -> option datetime.

Lemma try_formats_Some (value : string) (fmts : list string) (dt : datetime) :
  try_formats strptime value fmts = Some dt ->
  exists fmt, In fmt fmts /\ strptime value fmt = Some dt.
Proof.
  induction fmts as [|f fmts IH]; [discriminate|]. simpl.
  destruct (strptime value f) as [d|] eqn:E.
  - intros [= <-]. exists f. split; [by left | done].
  - intros H. destruct (IH H) as (fmt & Hin & Hs).
    exists fmt. split; [by right | done].
Qed.

Lemma try_formats_None (value : string) (fmts : list string) :
  try_formats strptime value fmts = None ->
  forall fmt, In fmt fmts -> strptime value fmt = None.
Proof.
  induction fmts as [|f fmts IH]; [by intros _ ? []|]. simpl.
  destruct (strptime value f) as [d|] eqn:E; [discriminate|].
  intros H fmt [<-|Hin]; [done | by apply IH].
Qed.

(** X5. When [parse_datetime_spec] answers, the instant is what
    [strptime] reads, in one of the two formats, from the first token
    (one token consumed) or from the first two joined by a blank (two
    consumed, and then no format reads the first token alone); it never
    consumes more tokens than it was given. Without tokens it answers
    nothing. *)
Theorem parse_datetime_spec_consumes (tokens : list string)
  (dt : datetime) (consumed : nat) :
  parse_datetime_spec strptime tokens = Some (dt, consumed) ->
  (consumed <= length tokens)%nat
  /\ ((consumed = 1%nat
       /\ exists t0 rest fmt,
            tokens = t0 :: rest /\ In fmt DATETIME_FORMATS
            /\ strptime t0 fmt = Some dt)
      \/ (consumed = 2%nat
          /\ exists t0 t1 rest fmt,
               tokens = t0 :: t1 :: rest /\ In fmt DATETIME_FORMATS
               /\ strptime (t0 +:+ " " +:+ t1) fmt = Some dt
               /\ forall fmt', In fmt' DATETIME_FORMATS -> strptime t0 fmt' = None))
  /\ parse_datetime_spec strptime [] = None.
Proof.
  intros H. split; [|split; [|done]].
  - destruct tokens as [|t0 [|t1 rest]]; [discriminate|..];
      cbn [parse_datetime_spec try_candidates] in H.
    + destruct (try_formats strptime t0 DATETIME_FORMATS); [|discriminate].
      injection H as _ <-. simpl. lia.
    + destruct (try_formats strptime t0 DATETIME_FORMATS).
      { injection H as _ <-. simpl. lia. }
      destruct (try_formats strptime _ DATETIME_FORMATS); [|discriminate].
      injection H as _ <-. simpl. lia.
  - destruct tokens as [|t0 [|t1 rest]]; [discriminate|..];
      cbn [parse_datetime_spec try_candidates] in H.
    + destruct (try_formats strptime t0 DATETIME_FORMATS) as [d|] eqn:E;
        [|discriminate].
      injection H as <- <-. left. split; [done|].
      apply try_formats_Some in E as (fmt & Hin & Hs). by exists t0, [], fmt.
    + destruct (try_formats strptime t0 DATETIME_FORMATS) as [d|] eqn:E.
      { injection H as <- <-. left. split; [done|].
        apply try_formats_Some in E as (fmt & Hin & Hs).
        by exists t0, (t1 :: rest), fmt. }
      destruct (try_formats strptime (t0 +:+ " " +:+ t1) DATETIME_FORMATS)
        as [d|] eqn:E2; [|discriminate].
      injection H as <- <-. right. split; [done|].
      apply try_formats_Some in E2 as (fmt & Hin & Hs).
      exists t0, t1, rest, fmt. repeat split; try done.
      by apply try_formats_None.
Qed.

End DatetimeSpecFacts.

Lemma parse_datetime_spec_consumes_witness :
  parse_datetime_spec Strptime.strptime ["2024-12-31"; "18:00"; "bye"]
  = Some (Scenario.t0, 2%nat)
  /\ (2 <= length ["2024-12-31"; "18:00"; "bye"])%nat
  /\ Strptime.strptime "2024-12-31" "%Y-%m-%d %H:%M" = None.
Proof.
  assert (parse_datetime_spec Strptime.strptime ["2024-12-31"; "18:00"; "bye"]
          = Some (Scenario.t0, 2%nat)) as H by (vm_compute; reflexivity).
  destruct (parse_datetime_spec_consumes Strptime.strptime
              ["2024-12-31"; "18:00"; "bye"] Scenario.t0 2%nat H)
    as (Hlen & Hcase & _).
  split; [exact H|]. split; [exact Hlen|].
  destruct Hcase as [[Hc _]|[_ Hex]]; [discriminate Hc|].
  destruct Hex as (t0 & t1 & rest & fmt & Ht & _ & _ & Hnone).
  injection Ht as <- _ _. apply Hnone. by left.
Defined.

(** ** What [remind] understands and stores *)

Section RemindFacts.

Variable strptime : string -> string -> option datetime.

Lemma parse_datetime_spec_bound (tokens : list string) dt consumed :
  parse_datetime_spec strptime tokens = Some (dt, consumed) ->
  (1 <= consumed <= length tokens)%nat.
Proof.
  destruct tokens as [|t0 [|t1 rest]]; [discriminate|..];
    cbn [parse_datetime_spec try_candidates]; intros H.
  - destruct (try_formats strptime t0 DATETIME_FORMATS); [|discriminate].
    injection H as _ <-. simpl. lia.
  - destruct (try_formats strptime t0 DATETIME_FORMATS).
    { injection H as _ <-. simpl. lia. }
    destruct (try_formats strptime _ DATETIME_FORMATS); [|discriminate].
    injection H as _ <-. simpl. lia.
Qed.

Lemma remind_time_sound (now : datetime) (time_args : list string)
  due_at consumed delay :
  remind_time strptime now time_args = Ok (Continue (due_at, consumed, delay)) ->
  now < due_at /\ delay = due_at - now
  /\ (1 <= consumed <= length time_args)%nat.
Proof.
  unfold remind_time.
  destruct time_args as [|t0 rest].
  { cbn [rbind Time.truthy parse_datetime_spec]. discriminate. }
  destruct (parse_duration t0) as [[d|]|e] eqn:Hd; cbn [rbind]; [| |discriminate].
  - rewrite (parse_duration_truthy t0 d Hd). cbn [default from_option id].
    unfold Time.datetime_add.
    destruct ((0 <=? now + d) && (now + d <=? Time.datetime_max));
      cbn [rbind]; [|discriminate].
    intros [= <- <- <-]. apply parse_duration_positive in Hd.
    simpl. repeat split; lia.
  - cbn [Time.truthy].
    destruct (parse_datetime_spec strptime (t0 :: rest)) as [[dt n]|] eqn:E;
      [|discriminate].
    destruct (dt <=? now) eqn:Hle; [discriminate|].
    intros [= <- <- <-]. apply Z.leb_gt in Hle.
    apply parse_datetime_spec_bound in E. repeat split; lia.
Qed.

Lemma remind_repeat_sound (remaining : list string) ri rest :
  remind_repeat remaining = Ok (Continue (ri, rest)) ->
  (forall i, ri = Some i -> 0 < i)
  /\ ((ri = None /\ rest = remaining)
      \/ (exists kw iv, remaining = kw :: iv :: rest
                        /\ Text.lower kw ∈ REPEAT_KEYWORDS
                        /\ parse_duration iv = Ok ri)).
Proof.
  unfold remind_repeat.
  destruct remaining as [|kw after_kw].
  { intros [= <- <-]. split; [discriminate | by left]. }
  case_bool_decide as Hkw.
  - destruct after_kw as [|iv rest']; [discriminate|].
    destruct (parse_duration iv) as [[d|]|e] eqn:Hd; cbn [rbind]; [| |discriminate].
    + rewrite (parse_duration_truthy iv d Hd). intros [= <- <-].
      split; [intros i [= <-]; by eapply parse_duration_positive|].
      right. by exists kw, iv.
    + discriminate.
  - intros [= <- <-]. split; [discriminate | by left].
Qed.

Lemma remind_text_nonempty (remaining : list string) :
  remind_text remaining ≠ EmptyString.
Proof.
  unfold remind_text.
  destruct (Text.strip (Text.join " " remaining)) as [|c s]; simpl; done.
Qed.

Lemma remind_request_sound (u : Update) (now : datetime) (rq : Request) :
  remind_request strptime u now = Ok (Continue rq) ->
  now < rq_due_at rq
  /\ rq_delay rq = rq_due_at rq - now
  /\ (forall i, rq_repeat_interval rq = Some i -> 0 < i)
  /\ rq_text rq ≠ EmptyString.
Proof.
  unfold remind_request.
  destruct (remind_target strptime u) as [[[[tu tl] time_args]|text]|e];
    [|discriminate..].
  destruct (remind_time strptime now time_args)
    as [[[[due_at consumed] delay]|text]|e] eqn:Ht; [|discriminate..].
  destruct (remind_repeat (drop consumed time_args))
    as [[[ri rest]|text]|e] eqn:Hr; [|discriminate..].
  destruct (normalize_target_label tl) as [tl' is_all].
  intros [= <-]. cbn [rq_due_at rq_delay rq_repeat_interval rq_text].
  apply remind_time_sound in Ht as (Hdue & Hdelay & _).
  apply remind_repeat_sound in Hr as [Hri _].
  repeat split; try done. apply remind_text_nonempty.
Qed.

(** X6. Every request [remind] goes on to schedule is due strictly
    after the reading of the clock, its delay is the time from that
    reading to the due instant, its repeat interval, when it has one, is
    positive, and its text is not empty. *)
Theorem remind_request_invariants (u : Update) (now : datetime) (rq : Request) :
  remind_request strptime u now = Ok (Continue rq) ->
  now < rq_due_at rq
  /\ rq_delay rq = rq_due_at rq - now
  /\ 0 < rq_delay rq
  /\ (forall i, rq_repeat_interval rq = Some i -> 0 < i)
  /\ rq_text rq ≠ EmptyString.
Proof.
  intros H. destruct (remind_request_sound u now rq H) as (H1 & H2 & H3 & H4).
  repeat split; try done. lia.
Qed.

(** X7. A [remind] that does not understand its command stores and arms
    nothing: the registries are what they were and the one job added is
    the deletion of the command message; its one call is the reply that
    says what is wrong, or none when parsing raised. *)
Theorem remind_rejected_stores_nothing (st : State) (u : Update) (env : Env) :
  (forall rq, remind_request strptime u (env_now env) ≠ Ok (Continue rq)) ->
  let r := remind strptime st u env in
  chat_data (run_state r) = chat_data st
  /\ job_queue (run_state r)
     = <[next_handle st := delete_job (upd_chat_id u) (upd_message_id u) 10]>
         (job_queue st)
  /\ (forall text, remind_request strptime u (env_now env) = Ok (Stop text) ->
                   run_calls r = [reply_text (upd_chat_id u) text])
  /\ (forall e, remind_request strptime u (env_now env) = Raise e ->
                run_calls r = [] /\ run_outcome r = Raise e).
Proof.
  intros Hno r. unfold r, remind.
  destruct (remind_request strptime u (env_now env)) as [[rq|text]|e].
  - by destruct (Hno rq).
  - rewrite run_state_reply_and_return, run_calls_reply_and_return.
    split; [done|]. split; [done|]. split.
    + by intros ? [= <-].
    + intros e He. discriminate He.
  - split; [done|]. split; [done|]. split.
    + intros text He. discriminate He.
    + by intros ? [= <-].
Qed.

(** X8. A [remind] that understands its command arms one job for it and
    stores one record under the new id, and the two agree: the record
    holds the handle of the job, the job is named by the id and calls
    [send_reminder], and both carry the due instant, the interval and
    the text of the request; the job repeats exactly when the request
    has an interval. *)
Theorem remind_accepted_arms_and_stores (st : State) (u : Update) (env : Env)
  (rq : Request) :
  remind_request strptime u (env_now env) = Ok (Continue rq) ->
  let r := remind strptime st u env in
  let job_id := make_job_id (upd_chat_id u) (env_clock_ms env) in
  let h := S (next_handle st) in
  Dict.get job_id (chat_jobs_of (run_state r) (upd_chat_id u))
  = Some (reminder_info h rq)
  /\ job_queue (run_state r) !! h
     = Some {| job_callback := cb_send_reminder;
               job_name := job_id;
               job_data :=
                 ReminderData
                   {| jd_chat_id := upd_chat_id u;
                      jd_mention := rq_mention rq;
                      jd_text := rq_text rq;
                      jd_reply_to := option_map fst (upd_reply_to u);
                      jd_due_at := rq_due_at rq;
                      jd_repeat_interval := rq_repeat_interval rq |};
               job_trigger :=
                 match rq_repeat_interval rq with
                 | Some interval => Repeating interval (rq_delay rq)
                 | None => Once (rq_delay rq)
                 end |}
  /\ run_calls r
     = [reply_html (upd_chat_id u)
          (remind_confirmation job_id (rq_mention rq) (rq_delay rq)
             (rq_text rq) (rq_repeat_interval rq))].
Proof.
  intros Hrq r job_id h.
  split; [|split].
  - unfold r. rewrite (remind_creates strptime st u env rq Hrq).
    apply DictFacts.get_set_same.
  - destruct (remind_request_sound u (env_now env) rq Hrq) as (_ & _ & Hpos & _).
    unfold r, remind. rewrite Hrq. unfold remind_schedule. cbn [enqueue snd fst].
    rewrite job_queue_reply_and_autodelete by (simpl; lia).
    cbn [set_chat_jobs job_queue next_handle]. rewrite lookup_insert_eq.
    do 2 f_equal.
    destruct (rq_repeat_interval rq) as [i|]; [|done].
    cbn [Time.truthy default from_option id].
    destruct (i =? 0) eqn:E; [|done].
    apply Z.eqb_eq in E. specialize (Hpos i eq_refl). lia.
  - unfold r, remind. rewrite Hrq. unfold remind_schedule. cbn [enqueue].
    apply run_calls_reply_and_autodelete.
Qed.

End RemindFacts.


(** ** Ids of a registry *)

Module DictKeys.
Section DictKeys.
Context {V : Type}.
Implicit Types (d : list (string * V)) (k : string) (v : V).

Lemma get_None_keys k d : Dict.get k d = None <-> ~ In k (Dict.keys d).
Proof.
  induction d as [|[k' v'] d IH]; simpl; [by split; auto|].
  destruct (String.eqb k k') eqn:E.
  - apply String.eqb_eq in E. subst. split; [discriminate | intros H; destruct H; by left].
  - apply String.eqb_neq in E. rewrite IH. split.
    + intros H [->|Hin]; [done | by apply H].
    + intros H Hin. apply H. by right.
Qed.

Lemma keys_set k v d :
  Dict.keys (Dict.set k v d)
  = if bool_decide (k ∈ Dict.keys d) then Dict.keys d
    else (Dict.keys d ++ [k])%list.
Proof.
  unfold Dict.keys.
  induction d as [|[k' v'] d IH]; cbn [Dict.set map fst].
  - rewrite bool_decide_eq_false_2; [done | apply not_elem_of_nil].
  - destruct (String.eqb k k') eqn:E.
    + apply String.eqb_eq in E. subst. cbn [map fst].
      rewrite bool_decide_eq_true_2; [done | apply list_elem_of_here].
    + apply String.eqb_neq in E. cbn [map fst]. rewrite IH.
      case_bool_decide as H1; case_bool_decide as H2; try done.
      * destruct H2. by apply list_elem_of_further.
      * apply elem_of_cons in H2 as [->|H2]; [done | by destruct H1].
Qed.

Lemma NoDup_set k v d : NoDup (Dict.keys d) -> NoDup (Dict.keys (Dict.set k v d)).
Proof.
  intros Hd. rewrite keys_set. case_bool_decide as H; [done|].
  apply NoDup_app. split; [done|]. split; [|apply NoDup_singleton].
  intros x Hx Hk. apply list_elem_of_singleton in Hk. by subst.
Qed.

Lemma In_keys_remove k k' d :
  In k' (Dict.keys (Dict.remove k d)) -> In k' (Dict.keys d).
Proof.
  induction d as [|[k0 v0] d IH]; simpl; [done|].
  destruct (String.eqb k k0); simpl; [by right|].
  intros [->|H]; [by left | right; by apply IH].
Qed.

Lemma NoDup_remove k d : NoDup (Dict.keys d) -> NoDup (Dict.keys (Dict.remove k d)).
Proof.
  induction d as [|[k0 v0] d IH]; simpl; [done|].
  intros [Hnot Hd]%NoDup_cons.
  destruct (String.eqb k k0); simpl; [done|].
  apply NoDup_cons. split; [|by apply IH].
  intros Hin%list_elem_of_In%In_keys_remove. by apply Hnot, list_elem_of_In.
Qed.

Lemma get_remove_same k d :
  NoDup (Dict.keys d) -> Dict.get k (Dict.remove k d) = None.
Proof.
  induction d as [|[k0 v0] d IH]; simpl; [done|].
  intros [Hnot Hd]%NoDup_cons.
  destruct (String.eqb k k0) eqn:E.
  - apply String.eqb_eq in E. subst. apply get_None_keys.
    intros Hin. by apply Hnot, list_elem_of_In.
  - simpl. rewrite E. by apply IH.
Qed.

Lemma get_remove_other k k' d :
  k ≠ k' -> Dict.get k' (Dict.remove k d) = Dict.get k' d.
Proof.
  intros Hne. induction d as [|[k0 v0] d IH]; simpl; [done|].
  destruct (String.eqb k k0) eqn:E; simpl.
  - apply String.eqb_eq in E. subst.
    destruct (String.eqb k' k0) eqn:E'; [|done].
    apply String.eqb_eq in E'. congruence.
  - by rewrite IH.
Qed.

End DictKeys.
End DictKeys.

Lemma chat_jobs_of_NoDup (st : State) (chat_id : Z) :
  registry_keys_unique st -> NoDup (Dict.keys (chat_jobs_of st chat_id)).
Proof.
  intros Hu. unfold chat_jobs_of.
  destruct (chat_data st !! chat_id) as [d|] eqn:E; simpl;
    [by apply (Hu chat_id) | apply NoDup_nil_2].
Qed.

Lemma changes_same (chat_id : Z) (st st' : State) :
  chat_data st' = chat_data st -> registry_changes_in chat_id st st'.
Proof. intros H. by left. Qed.

Lemma changes_set (chat_id : Z) (st st0 : State) d' :
  chat_data st0 = chat_data st ->
  (NoDup (Dict.keys (chat_jobs_of st chat_id)) -> NoDup (Dict.keys d')) ->
  registry_changes_in chat_id st (set_chat_jobs st0 chat_id d').
Proof. intros H0 Hd. right. exists d'. simpl. by rewrite H0. Qed.

Lemma changes_update (chat_id : Z) (st st0 : State) d' :
  chat_data st0 = chat_data st ->
  (NoDup (Dict.keys (chat_jobs_of st chat_id)) -> NoDup (Dict.keys d')) ->
  registry_changes_in chat_id st (update_chat_jobs st0 chat_id d').
Proof.
  intros H0 Hd. unfold update_chat_jobs.
  destruct (chat_data st0 !! chat_id); [by apply changes_set | by left].
Qed.

Lemma changes_then_same (chat_id : Z) (st st1 st' : State) :
  registry_changes_in chat_id st st1 ->
  chat_data st' = chat_data st1 ->
  registry_changes_in chat_id st st'.
Proof.
  intros [H|(d' & H & Hd)] H'; [left | right; exists d']; by rewrite H'.
Qed.

Lemma changes_keep_unique (chat_id : Z) (st st' : State) :
  registry_changes_in chat_id st st' ->
  registry_keys_unique st -> registry_keys_unique st'.
Proof.
  intros [H|(d' & H & Hd)] Hu c d; rewrite H; [apply Hu|].
  destruct (decide (chat_id = c)) as [<-|Hne].
  - rewrite lookup_insert_eq. intros [= <-]. by apply Hd, chat_jobs_of_NoDup.
  - rewrite lookup_insert_ne by done. apply Hu.
Qed.

Lemma changes_other_chat (chat_id other : Z) (st st' : State) :
  registry_changes_in chat_id st st' ->
  other ≠ chat_id ->
  chat_data st' !! other = chat_data st !! other.
Proof.
  intros [H|(d' & H & _)] Hne; rewrite H; [done|].
  by rewrite lookup_insert_ne.
Qed.

Lemma chat_data_disarm_all (infos : list ReminderInfo) (st : State) :
  chat_data (fold_left (fun s data => schedule_removal s (ri_job data)) infos st)
  = chat_data st.
Proof. by destruct (disarm_all_frame infos st) as [H _]. Qed.

Lemma list_reminders_changes st u env :
  registry_changes_in (upd_chat_id u) st (run_state (list_reminders st u env)).
Proof.
  apply changes_same. unfold list_reminders.
  destruct (chat_jobs_of st (upd_chat_id u));
    [by rewrite run_state_reply_and_return
    | by rewrite chat_data_reply_and_autodelete].
Qed.

Lemma cancel_all_changes st u env :
  registry_changes_in (upd_chat_id u) st (run_state (cancel_all st u env)).
Proof.
  unfold cancel_all.
  destruct (chat_jobs_of st (upd_chat_id u)) as [|e0 d0];
    [apply changes_same; by rewrite run_state_reply_and_return|].
  eapply changes_then_same; [|apply chat_data_reply_and_autodelete].
  apply changes_update; [apply chat_data_disarm_all | intros _; apply NoDup_nil_2].
Qed.

Lemma cancel_id_changes st u env job_id :
  registry_changes_in (upd_chat_id u) st (run_state (cancel_id st u env job_id)).
Proof.
  unfold cancel_id.
  destruct (String.eqb _ "all"); [apply cancel_all_changes|].
  unfold Dict.pop.
  assert (registry_changes_in (upd_chat_id u) st
            (update_chat_jobs st (upd_chat_id u)
               (Dict.remove job_id (chat_jobs_of st (upd_chat_id u))))) as H1
    by (apply changes_update; [done | apply DictKeys.NoDup_remove]).
  destruct (Dict.get job_id _) as [info|].
  - eapply changes_then_same; [exact H1|].
    by rewrite chat_data_reply_and_autodelete.
  - eapply changes_then_same; [exact H1|].
    by rewrite run_state_reply_and_return.
Qed.

Lemma cancel_changes st u env :
  registry_changes_in (upd_chat_id u) st (run_state (cancel st u env)).
Proof.
  unfold cancel.
  destruct (upd_args u) as [|a0 rest]; [|apply cancel_id_changes].
  destruct (chat_jobs_of st (upd_chat_id u)) as [|[k v] [|e1 d]] eqn:E.
  - apply changes_same. by rewrite run_state_reply_and_return.
  - apply cancel_id_changes.
  - apply changes_same. by rewrite chat_data_reply_and_autodelete.
Qed.

Lemma remind_changes strptime st u env :
  registry_changes_in (upd_chat_id u) st (run_state (remind strptime st u env)).
Proof.
  unfold remind.
  destruct (remind_request strptime u (env_now env)) as [[rq|text]|e].
  - unfold remind_schedule. cbn [enqueue snd fst].
    eapply changes_then_same; [|apply chat_data_reply_and_autodelete].
    apply changes_set; [done|]. apply DictKeys.NoDup_set.
  - apply changes_same. by rewrite run_state_reply_and_return.
  - by apply changes_same.
Qed.

Lemma send_reminder_changes st h j data env :
  registry_changes_in (jd_chat_id data) st
    (run_state (send_reminder st h j data env)).
Proof.
  unfold send_reminder.
  destruct (env_response env); [|by apply changes_same].
  destruct (Time.truthy _).
  - destruct (Time.datetime_add _ _); by apply changes_same.
  - simpl. apply changes_update; [done | apply DictKeys.NoDup_remove].
Qed.

Lemma fire_changes st h env :
  exists chat_id, registry_changes_in chat_id st (run_state (fire st h env)).
Proof.
  unfold fire.
  destruct (job_queue st !! h) as [j|]; [|exists 0; by apply changes_same].
  cbn [run_state].
  assert (forall s, chat_data
            match job_trigger j with
            | Once _ => schedule_removal s h
            | Repeating _ _ => s
            end = chat_data s) as Htr.
  { intros s. by destruct (job_trigger j). }
  destruct (job_data j) as [data|c m].
  - exists (jd_chat_id data).
    eapply changes_then_same; [apply send_reminder_changes | apply Htr].
  - exists 0. apply changes_same. rewrite Htr.
    unfold delete_message_job. by destruct (_ || _).
Qed.

(** X9. A command touches the registry of its own chat only: after
    [remind], [list_reminders] or [cancel] the registry of every other
    chat is what it was. *)
Theorem commands_touch_one_chat strptime (st : State) (u : Update) (env : Env)
  (other : Z) :
  other ≠ upd_chat_id u ->
  chat_data (run_state (remind strptime st u env)) !! other = chat_data st !! other
  /\ chat_data (run_state (list_reminders st u env)) !! other = chat_data st !! other
  /\ chat_data (run_state (cancel st u env)) !! other = chat_data st !! other.
Proof.
  intros Hne. split; [|split].
  - exact (changes_other_chat _ _ _ _ (remind_changes strptime st u env) Hne).
  - exact (changes_other_chat _ _ _ _ (list_reminders_changes st u env) Hne).
  - exact (changes_other_chat _ _ _ _ (cancel_changes st u env) Hne).
Qed.

Lemma reachable_unique strptime st :
  reachable strptime st -> registry_keys_unique st.
Proof.
  induction 1 as [|st u env _ IH|st u env _ IH|st u env _ IH|st h env _ IH].
  - intros c d. simpl. by rewrite lookup_empty.
  - by apply (changes_keep_unique _ _ _ (remind_changes strptime st u env)).
  - by apply (changes_keep_unique _ _ _ (list_reminders_changes st u env)).
  - by apply (changes_keep_unique _ _ _ (cancel_changes st u env)).
  - destruct (fire_changes st h env) as [c Hc].
    by apply (changes_keep_unique _ _ _ Hc).
Qed.

(** X10. In every state the bot reaches, whatever commands and fires
    led to it: no id stands twice in a registry, every id has the form
    the bot allocates for its chat, and every armed job and every job a
    record refers to has a handle the queue has handed out. *)
Theorem reachable_registry_well_formed strptime (st : State) :
  reachable strptime st ->
  registry_keys_unique st /\ handles_allocated st.
Proof.
  intros H. split; [by eapply reachable_unique | by eapply reachable_allocated].
Qed.

(** ** [cancel], further *)

Lemma registry_of_get (st : State) (chat_id : Z) k info :
  Dict.get k (chat_jobs_of st chat_id) = Some info ->
  chat_data st !! chat_id = Some (chat_jobs_of st chat_id).
Proof.
  unfold chat_jobs_of.
  destruct (chat_data st !! chat_id) as [d|]; simpl; [done | discriminate].
Qed.

(** X11. A cancel that names an id of the registry takes that record
    and no other: the id is gone, every other id gives what it gave,
    the job of the record is no longer armed, every other job handed out
    so far is armed or not as it was, and the one call is the
    confirmation that names the id: the text
    [Отменено: <code>ID</code> для TARGET.] with the id escaped for HTML,
    which leaves an id of digits and signs, as the bot allocates them,
    letter for letter, and, for the target, the stored one or
    [без адресата] when none is stored or it is empty. *)
Theorem cancel_known_id_removes_it
  (st : State) (u : Update) (env : Env) (job_id : string) (rest : list string)
  (info : ReminderInfo) :
  let chat_id := upd_chat_id u in
  upd_args u = job_id :: rest ->
  Text.lower job_id ≠ "all" ->
  Dict.get job_id (chat_jobs_of st chat_id) = Some info ->
  NoDup (Dict.keys (chat_jobs_of st chat_id)) ->
  (ri_job info < next_handle st)%nat ->
  let st' := run_state (cancel st u env) in
  let shown := match ri_target info with
               | Some (String c t) => String c t
               | _ => "без адресата"
               end in
  Dict.get job_id (chat_jobs_of st' chat_id) = None
  /\ (forall other, other ≠ job_id ->
        Dict.get other (chat_jobs_of st' chat_id)
        = Dict.get other (chat_jobs_of st chat_id))
  /\ job_queue st' !! ri_job info = None
  /\ (forall h, h ≠ ri_job info -> (h < next_handle st)%nat ->
        job_queue st' !! h = job_queue st !! h)
  /\ run_calls (cancel st u env)
     = [reply_html chat_id
          ("Отменено: <code>" +:+ Text.html_escape job_id +:+ "</code> для "
           +:+ shown +:+ ".")]
  /\ (Digits.all_chars Digits.digit_or_sign job_id = true ->
      run_calls (cancel st u env)
      = [reply_html chat_id
           ("Отменено: <code>" +:+ job_id +:+ "</code> для " +:+ shown +:+ ".")]).
Proof.
  intros chat_id Hargs Hkw Hget Hnd Hh st' shown.
  pose proof (registry_of_get st chat_id job_id info Hget) as Hreg.
  assert (run_state (cancel st u env)
          = run_state
              (reply_and_autodelete
                 (schedule_removal
                    (set_chat_jobs st chat_id
                       (Dict.remove job_id (chat_jobs_of st chat_id)))
                    (ri_job info))
                 (reply_html chat_id
                    (Msg.cancelled job_id (str_or (ri_target info) Msg.no_target)))
                 (env_response env) 10)
          /\ run_calls (cancel st u env)
             = [reply_html chat_id
                  (Msg.cancelled job_id (str_or (ri_target info) Msg.no_target))])
    as [Hst Hcalls].
  { unfold cancel. rewrite Hargs. unfold cancel_id. fold chat_id.
    destruct (String.eqb (Text.lower job_id) "all") eqn:E.
    { apply String.eqb_eq in E. contradiction. }
    unfold Dict.pop. rewrite Hget.
    unfold update_chat_jobs. rewrite Hreg.
    split; [done | apply run_calls_reply_and_autodelete]. }
  subst st'. rewrite Hst.
  assert (forall k, Dict.get k
            (chat_jobs_of
               (run_state
                  (reply_and_autodelete
                     (schedule_removal
                        (set_chat_jobs st chat_id
                           (Dict.remove job_id (chat_jobs_of st chat_id)))
                        (ri_job info))
                     (reply_html chat_id
                        (Msg.cancelled job_id (str_or (ri_target info) Msg.no_target)))
                     (env_response env) 10)) chat_id)
          = Dict.get k (Dict.remove job_id (chat_jobs_of st chat_id))) as Hjobs.
  { intros k. unfold chat_jobs_of at 1.
    rewrite chat_data_reply_and_autodelete. simpl.
    by rewrite lookup_insert_eq. }
  split; [by rewrite Hjobs, DictKeys.get_remove_same|].
  split; [intros other Hne; by rewrite Hjobs, DictKeys.get_remove_other|].
  split.
  - rewrite job_queue_reply_and_autodelete by done. simpl. apply lookup_delete_eq.
  - split.
    { intros h Hne Hlt.
      rewrite job_queue_reply_and_autodelete by done. simpl.
      by rewrite lookup_delete_ne. }
    rewrite cancelled_text in Hcalls. fold shown in Hcalls.
    split; [exact Hcalls|].
    intros Hid. rewrite Hcalls. by rewrite (html_escape_plain job_id Hid).
Qed.

(** X12. A cancel without an argument, in a chat that has no reminder or
    more than one, cancels nothing: the registries are what they were,
    every job handed out so far is armed or not as it was, and the reply
    says that nothing is active, or asks for an id and shows the ids of
    the chat in their order. *)
Theorem cancel_without_id_asks
  (st : State) (u : Update) (env : Env) :
  let chat_id := upd_chat_id u in
  upd_args u = [] ->
  length (chat_jobs_of st chat_id) ≠ 1%nat ->
  let st' := run_state (cancel st u env) in
  chat_data st' = chat_data st
  /\ (forall h, (h < next_handle st)%nat -> job_queue st' !! h = job_queue st !! h)
  /\ run_calls (cancel st u env)
     = [match chat_jobs_of st chat_id with
        | [] => reply_text chat_id Msg.none_active
        | d => reply_html chat_id (Msg.specify_id (Dict.keys d))
        end].
Proof.
  intros chat_id Hargs Hlen st'. subst st'. unfold cancel. rewrite Hargs.
  fold chat_id.
  destruct (chat_jobs_of st chat_id) as [|[k v] [|e1 d]]; [|done|].
  - by rewrite run_state_reply_and_return, run_calls_reply_and_return.
  - rewrite chat_data_reply_and_autodelete, run_calls_reply_and_autodelete.
    split; [done|]. split; [|done].
    intros h Hh. by rewrite job_queue_reply_and_autodelete.
Qed.

(** ** [send_reminder] and the job queue, further *)

(** X13. When the job of a one-shot reminder fires and the delivery
    succeeds, the message sent is the reminder, the record named like
    the job is gone from the registry of its chat, every other id gives
    what it gave, and of the jobs only the fired one leaves the queue. *)
Theorem fire_one_shot_delivered_removes_record
  (st : State) (h : nat) (j : Job) (data : JobData) (env : Env)
  (when : timedelta) (c m : Z) :
  job_queue st !! h = Some j ->
  job_data j = ReminderData data ->
  Time.truthy (jd_repeat_interval data) = false ->
  job_trigger j = Once when ->
  env_response env = Sent c m ->
  NoDup (Dict.keys (chat_jobs_of st (jd_chat_id data))) ->
  let r := fire st h env in
  run_calls r
  = [send_message (jd_chat_id data)
       (Msg.reminder (jd_mention data) (jd_text data)) (jd_reply_to data)]
  /\ Dict.get (job_name j) (chat_jobs_of (run_state r) (jd_chat_id data)) = None
  /\ (forall other, other ≠ job_name j ->
        Dict.get other (chat_jobs_of (run_state r) (jd_chat_id data))
        = Dict.get other (chat_jobs_of st (jd_chat_id data)))
  /\ job_queue (run_state r) !! h = None
  /\ (forall h', h' ≠ h -> job_queue (run_state r) !! h' = job_queue st !! h').
Proof.
  intros Hq Hd Hrep Htr Hresp Hnd r.
  pose proof (fire_one_shot_delivered st h j data env c m Hq Hd Hrep Hresp) as Hjobs.
  fold r in Hjobs. rewrite Hjobs.
  split; [|split; [by apply DictKeys.get_remove_same|]].
  { unfold r, fire. rewrite Hq, Hd. simpl.
    unfold send_reminder. by rewrite Hrep, Hresp. }
  split; [intros other Hne; by apply DictKeys.get_remove_other|].
  assert (job_queue (run_state r) = delete h (job_queue st)) as ->.
  { unfold r, fire. rewrite Hq, Hd, Htr. simpl.
    unfold send_reminder. rewrite Hrep, Hresp. simpl.
    unfold update_chat_jobs. by destruct (chat_data st !! jd_chat_id data). }
  split; [apply lookup_delete_eq | intros h' Hne; by apply lookup_delete_ne].
Qed.

Lemma In_chat_jobs_update_remove (st : State) (chat_id other : Z) k entry :
  In entry (chat_jobs_of
              (update_chat_jobs st chat_id
                 (Dict.remove k (chat_jobs_of st chat_id))) other) ->
  In entry (chat_jobs_of st other).
Proof.
  unfold update_chat_jobs.
  destruct (chat_data st !! chat_id) as [d|] eqn:E; [|done].
  unfold chat_jobs_of at 1. simpl.
  destruct (decide (chat_id = other)) as [<-|Hne].
  - rewrite lookup_insert_eq. simpl. destruct entry as [k' v'].
    apply DictFacts.In_remove.
  - rewrite lookup_insert_ne by done. done.
Qed.

(** X14. A fire creates nothing: no record enters a registry, no job
    enters the queue and no handle is handed out, whichever job fires
    and whatever the delivery does. *)
Theorem fire_creates_nothing (st : State) (h : nat) (env : Env) :
  let st' := run_state (fire st h env) in
  next_handle st' = next_handle st
  /\ (forall h' j', job_queue st' !! h' = Some j' -> is_Some (job_queue st !! h'))
  /\ (forall chat_id entry,
        In entry (chat_jobs_of st' chat_id) -> In entry (chat_jobs_of st chat_id)).
Proof.
  intros st'. subst st'. unfold fire.
  destruct (job_queue st !! h) as [j|] eqn:Hq; [|by repeat split; eauto].
  cbn [run_state].
  set (r := match job_data j with
            | ReminderData data => send_reminder st h j data env
            | MessageRef c m => delete_message_job st c m
            end).
  assert (next_handle (run_state r) = next_handle st
          /\ (forall h' j', job_queue (run_state r) !! h' = Some j' ->
                            is_Some (job_queue st !! h'))
          /\ (forall chat_id entry,
                In entry (chat_jobs_of (run_state r) chat_id) ->
                In entry (chat_jobs_of st chat_id))) as (Hn & Hjq & Hreg).
  { unfold r. destruct (job_data j) as [data|c m].
    - unfold send_reminder. destruct (env_response env); [|by repeat split; eauto].
      destruct (Time.truthy _).
      + destruct (Time.datetime_add _ _); simpl; [|by repeat split; eauto].
        split; [done|]. split; [|done].
        intros h' j' Hl. destruct (decide (h = h')) as [<-|Hne]; [by eauto|].
        rewrite lookup_insert_ne in Hl by done. by eauto.
      + simpl. split; [|split].
        * unfold update_chat_jobs. by destruct (chat_data st !! _).
        * intros h' j' Hl. unfold update_chat_jobs in Hl.
          destruct (chat_data st !! _); simpl in Hl; by eauto.
        * intros cid entry. apply In_chat_jobs_update_remove.
    - unfold delete_message_job. destruct (_ || _); by repeat split; eauto. }
  destruct (job_trigger j); simpl; [|done].
  split; [done|]. split; [|done].
  intros h' j' Hl. destruct (decide (h = h')) as [<-|Hne].
  - by rewrite lookup_delete_eq in Hl.
  - rewrite lookup_delete_ne in Hl by done. by eauto.
Qed.

(** X15. A delivered fire of a repeating reminder writes the fire time
    plus the interval into the data of the job as its next due instant,
    leaves the job armed as it was, and leaves every registry as it
    was. *)
Theorem fire_repeating_delivered
  (st : State) (h : nat) (j : Job) (data : JobData) (env : Env)
  (interval first : timedelta) (c m : Z) :
  job_queue st !! h = Some j ->
  job_data j = ReminderData data ->
  jd_repeat_interval data = Some interval ->
  interval ≠ 0 ->
  job_trigger j = Repeating interval first ->
  env_response env = Sent c m ->
  0 <= env_now env + interval <= Time.datetime_max ->
  let st' := run_state (fire st h env) in
  chat_data st' = chat_data st
  /\ exists j' data',
       job_queue st' !! h = Some j'
       /\ job_data j' = ReminderData data'
       /\ jd_due_at data' = env_now env + interval
       /\ jd_repeat_interval data' = Some interval
       /\ job_trigger j' = Repeating interval first
       /\ job_name j' = job_name j.
Proof.
  intros Hq Hd Hrep Hnz Htr Hresp Hrange st'. subst st'.
  unfold fire. rewrite Hq, Hd, Htr. simpl.
  unfold send_reminder. rewrite Hrep, Hresp. simpl.
  destruct (interval =? 0) eqn:E; [lia|]. simpl.
  unfold Time.datetime_add.
  destruct ((0 <=? env_now env + interval)
            && (env_now env + interval <=? Time.datetime_max)) eqn:E2.
  - simpl. split; [done|]. eexists _, _. rewrite lookup_insert_eq.
    repeat split; done.
  - apply andb_false_iff in E2. lia.
Qed.

(** X16. A fire whose delivery fails changes no registry, whatever job
    it is; a reminder job reports the failure of the transport, and it
    leaves the queue when it was armed once and stays when it
    repeats. *)
Theorem fire_failed_delivery
  (st : State) (h : nat) (j : Job) (data : JobData) (env : Env) :
  job_queue st !! h = Some j ->
  job_data j = ReminderData data ->
  env_response env = Failed ->
  let r := fire st h env in
  chat_data (run_state r) = chat_data st
  /\ run_outcome r = Raise TelegramError
  /\ job_queue (run_state r) !! h
     = match job_trigger j with
       | Once _ => None
       | Repeating _ _ => Some j
       end.
Proof.
  intros Hq Hd Hresp r. unfold r, fire. rewrite Hq, Hd. cbn [run_state run_outcome].
  destruct (send_reminder_failed st h j data env Hresp) as [-> ->].
  destruct (job_trigger j); simpl; [|done].
  repeat split. apply lookup_delete_eq.
Qed.

(** ** The order of a registry *)

Lemma set_absent_appends {V : Type} (k : string) (v : V) (d : list (string * V)) :
  Dict.get k d = None -> Dict.set k v d = (d ++ [(k, v)])%list.
Proof.
  induction d as [|[k' v'] d IH]; simpl; [done|].
  destruct (String.eqb k k'); [discriminate|]. intros H. by rewrite IH.
Qed.

Lemma set_present_keeps_keys {V : Type} (k : string) (v : V) (d : list (string * V)) :
  is_Some (Dict.get k d) -> Dict.keys (Dict.set k v d) = Dict.keys d.
Proof.
  intros [v0 H]. rewrite DictKeys.keys_set.
  rewrite bool_decide_eq_true_2; [done|].
  apply list_elem_of_In.
  destruct (in_dec String.string_dec k (Dict.keys d)) as [Hin|Hnot]; [done|].
  apply DictKeys.get_None_keys in Hnot. congruence.
Qed.

Section Order.

Variable strptime : string -> string -> option datetime.

(** X17. A registry keeps the order of creation: the record of a new
    reminder goes last, so that it is listed after the reminders the
    chat already has; when the id is taken the record takes its place
    and the ids of the chat and their order stay. *)
Theorem remind_keeps_creation_order (st : State) (u : Update) (env : Env)
  (rq : Request) :
  remind_request strptime u (env_now env) = Ok (Continue rq) ->
  let chat_id := upd_chat_id u in
  let job_id := make_job_id chat_id (env_clock_ms env) in
  let info := reminder_info (S (next_handle st)) rq in
  let before := chat_jobs_of st chat_id in
  let after := chat_jobs_of (run_state (remind strptime st u env)) chat_id in
  (Dict.get job_id before = None ->
   after = (before ++ [(job_id, info)])%list
   /\ forall now, map (list_line now) after
                  = (map (list_line now) before ++ [list_line now (job_id, info)])%list)
  /\ (is_Some (Dict.get job_id before) -> Dict.keys after = Dict.keys before).
Proof.
  intros Hrq chat_id job_id info before after.
  assert (after = Dict.set job_id info before) as ->
    by apply (remind_creates strptime st u env rq Hrq).
  split.
  - intros Hnew. rewrite (set_absent_appends _ _ _ Hnew).
    split; [done | intros now; by rewrite map_app].
  - apply set_present_keeps_keys.
Qed.

End Order.

(** ** Words *)

Module WordsFacts.

Lemma split_all_ok (s : string) : Forall token_ok (Words.split s).
Proof.
  induction s as [|c s IH]; [constructor|].
  cbn [Words.split]. destruct (Text.is_space c) eqn:Ec; [done|].
  assert (token_ok (String c EmptyString)) as Hc.
  { split; [done|]. simpl. unfold not_space. by rewrite Ec. }
  destruct s as [|d s']; [by constructor|].
  destruct (Text.is_space d) eqn:Ed; [by constructor|].
  destruct (Words.split (String d s')) as [|t ts]; [by constructor|].
  inversion IH as [|? ? [Hne Ht] Hts]; subst.
  constructor; [|done]. split; [done|].
  simpl. unfold not_space at 1. by rewrite Ec.
Qed.

Lemma split_head (c : ascii) (s : string) :
  Text.is_space c = false ->
  exists t ts, Words.split (String c s) = String c t :: ts.
Proof.
  intros Ec. cbn [Words.split]. rewrite Ec.
  destruct s as [|d s']; [by eexists _, _|].
  destruct (Text.is_space d); [by eexists _, _|].
  destruct (Words.split (String d s')); by eexists _, _.
Qed.

Lemma split_two (a b : ascii) (s : string) :
  Text.is_space a = false -> Text.is_space b = false ->
  Words.split (String a (String b s))
  = match Words.split (String b s) with
    | t :: ts => String a t :: ts
    | [] => [String a EmptyString]
    end.
Proof.
  intros Ha Hb.
  change (Words.split (String a (String b s)))
    with (if Text.is_space a then Words.split (String b s)
          else if Text.is_space b
               then String a EmptyString :: Words.split (String b s)
               else match Words.split (String b s) with
                    | t :: ts => String a t :: ts
                    | [] => [String a EmptyString]
                    end).
  by rewrite Ha, Hb.
Qed.

Lemma split_token_then_blank (t : string) (c : ascii) (rest : string) :
  token_ok t -> Text.is_space c = true ->
  Words.split (t +:+ String c rest) = t :: Words.split rest.
Proof.
  intros [Hne Hall] Hc. induction t as [|a t IH]; [done|].
  simpl in Hall. apply andb_prop in Hall as [Ha Hall].
  unfold not_space in Ha. apply negb_true_iff in Ha.
  destruct t as [|b t'].
  - change (String a EmptyString +:+ String c rest)
      with (String a (String c rest)).
    cbn [Words.split]. by rewrite Ha, Hc.
  - pose proof Hall as Hall2.
    simpl in Hall. apply andb_prop in Hall as [Hb _].
    unfold not_space in Hb. apply negb_true_iff in Hb.
    change (String a (String b t') +:+ String c rest)
      with (String a (String b (t' +:+ String c rest))).
    rewrite split_two by done.
    change (String b (t' +:+ String c rest))
      with (String b t' +:+ String c rest).
    by rewrite IH.
Qed.

Lemma split_token (t : string) : token_ok t -> Words.split t = [t].
Proof.
  intros [Hne Hall]. induction t as [|a t IH]; [done|].
  simpl in Hall. apply andb_prop in Hall as [Ha Hall].
  unfold not_space in Ha. apply negb_true_iff in Ha.
  destruct t as [|b t'].
  - cbn [Words.split]. by rewrite Ha.
  - pose proof Hall as Hall2.
    simpl in Hall. apply andb_prop in Hall as [Hb _].
    unfold not_space in Hb. apply negb_true_iff in Hb.
    rewrite split_two by done. by rewrite IH.
Qed.

Lemma split_join (tokens : list string) :
  Forall token_ok tokens -> Words.split (Text.join " " tokens) = tokens.
Proof.
  induction 1 as [|t ts Ht Hts IH]; [done|].
  destruct ts as [|t2 ts]; [by apply split_token|].
  change (Text.join " " (t :: t2 :: ts))
    with (t +:+ " " +:+ Text.join " " (t2 :: ts)).
  change (" " +:+ ?r) with (String " "%char r).
  by rewrite split_token_then_blank, IH.
Qed.

Lemma rev_app_spec (a b : string) :
  String.rev_app a b = String.rev a +:+ b.
Proof.
  unfold String.rev. revert b. induction a as [|c a IH]; intros b; [done|].
  simpl. rewrite (IH (String c b)), (IH (String c EmptyString)).
  by rewrite DigitsFacts.string_app_assoc.
Qed.

Lemma rev_cons (c : ascii) (a : string) :
  String.rev (String c a) = String.rev a +:+ String c EmptyString.
Proof. unfold String.rev at 1. simpl. apply rev_app_spec. Qed.

Lemma rev_app (a b : string) :
  String.rev (a +:+ b) = String.rev b +:+ String.rev a.
Proof.
  induction a as [|c a IH].
  - change (EmptyString +:+ b) with b.
    by rewrite DigitsFacts.string_app_nil_r.
  - change (String c a +:+ b) with (String c (a +:+ b)).
    by rewrite !rev_cons, IH, DigitsFacts.string_app_assoc.
Qed.

Lemma rev_involutive (a : string) : String.rev (String.rev a) = a.
Proof.
  induction a as [|c a IH]; [done|].
  rewrite rev_cons, rev_app, IH. done.
Qed.

Lemma rev_token (t : string) :
  token_ok t ->
  exists c r, String.rev t = String c r /\ Text.is_space c = false.
Proof.
  intros [Hne Hall]. induction t as [|a t IH]; [done|].
  simpl in Hall. apply andb_prop in Hall as [Ha Hall].
  unfold not_space in Ha. apply negb_true_iff in Ha.
  rewrite rev_cons. destruct t as [|b t'].
  - exists a, EmptyString. by split.
  - destruct IH as (c & r & Hr & Hc); [done | done |].
    rewrite Hr. exists c, (r +:+ String a EmptyString). by split.
Qed.

Lemma join_ends_with_token (tokens : list string) :
  Forall token_ok tokens -> tokens ≠ [] ->
  exists s t, Text.join " " tokens = s +:+ t /\ token_ok t.
Proof.
  induction 1 as [|t ts Ht Hts IH]; [done|]. intros _.
  destruct ts as [|t2 ts]; [by exists EmptyString, t|].
  destruct IH as (s & l & Hj & Hl); [done|].
  exists (t +:+ " " +:+ s), l. split; [|done].
  change (Text.join " " (t :: t2 :: ts))
    with (t +:+ " " +:+ Text.join " " (t2 :: ts)).
  by rewrite Hj, !DigitsFacts.string_app_assoc.
Qed.

Lemma strip_join (tokens : list string) :
  Forall token_ok tokens -> tokens ≠ [] ->
  Text.strip (Text.join " " tokens) = Text.join " " tokens.
Proof.
  intros Hok Hne. unfold Text.strip.
  assert (Text.lstrip_with Text.is_space (Text.join " " tokens)
          = Text.join " " tokens) as ->.
  { destruct Hok as [|t ts [Htne Hall] _]; [done|].
    destruct t as [|c t]; [done|].
    simpl in Hall. apply andb_prop in Hall as [Hc _].
    unfold not_space in Hc. apply negb_true_iff in Hc.
    destruct ts as [|t2 ts].
    - simpl. by rewrite Hc.
    - change (Text.join " " (String c t :: t2 :: ts))
        with (String c (t +:+ " " +:+ Text.join " " (t2 :: ts))).
      simpl. by rewrite Hc. }
  destruct (join_ends_with_token tokens Hok Hne) as (s & t & -> & Ht).
  unfold Text.rstrip_with. rewrite rev_app.
  destruct (rev_token t Ht) as (c & r & Hr & Hc). rewrite Hr.
  change (String c r +:+ String.rev s) with (String c (r +:+ String.rev s)).
  simpl Text.lstrip_with. rewrite Hc.
  change (String c (r +:+ String.rev s)) with (String c r +:+ String.rev s).
  by rewrite <- Hr, <- rev_app, rev_involutive.
Qed.

End WordsFacts.

(** X18. The text of a reminder is its tokens joined by single blanks:
    for tokens as [split] yields them, at least one, the text [remind]
    stores is their join, nothing is stripped from it, and splitting it
    gives the tokens back. *)
Theorem remind_text_joins_tokens (remaining : list string) :
  Forall token_ok remaining ->
  remaining ≠ [] ->
  remind_text remaining = Text.join " " remaining
  /\ Words.split (remind_text remaining) = remaining.
Proof.
  intros Hok Hne.
  assert (remind_text remaining = Text.join " " remaining) as ->.
  { unfold remind_text. rewrite WordsFacts.strip_join by done.
    destruct (WordsFacts.join_ends_with_token remaining Hok Hne)
      as (s & t & Hj & [Htne _]).
    destruct (Text.join " " remaining) as [|c r] eqn:E; [|done].
    destruct s; [|discriminate Hj]. by destruct t. }
  split; [done | by apply WordsFacts.split_join].
Qed.

Lemma remind_text_joins_tokens_witness :
  Forall token_ok ["call"; "bob"; "now"]
  /\ remind_text ["call"; "bob"; "now"] = "call bob now"
  /\ Words.split "call bob now" = ["call"; "bob"; "now"].
Proof.
  assert (Forall token_ok ["call"; "bob"; "now"]) as Hok.
  { repeat constructor; done. }
  split; [exact Hok|].
  destruct (remind_text_joins_tokens ["call"; "bob"; "now"] Hok ltac:(discriminate))
    as [H1 H2].
  split; [exact H1|]. rewrite H1 in H2. exact H2.
Defined.

(** ** [handle_text_command] *)

Section FallbackFacts.

Variable strptime : string -> string -> option datetime.

(** X19. A text that begins, after its blanks, with a slash and has no
    [bot_command] entity always has a first word, which begins with the
    slash; its words are free of blanks and none is empty.  The command
    is that word without what follows an [@], in lower case, and the
    handler of the command runs with the other words as its arguments;
    a word that names no command does nothing. *)
Theorem handle_text_command_dispatches (st : State) (m : TextMessage)
  (env : Env) (raw : string) :
  tm_text m = Some raw ->
  tm_has_bot_command m = false ->
  Words.startswith_slash (Text.strip raw) = true ->
  exists part0 args,
    Words.split (Text.strip raw) = part0 :: args
    /\ Words.startswith_slash part0 = true
    /\ Forall token_ok (part0 :: args)
    /\ let command := Text.lower (Words.before_at part0) in
       let u := {| upd_chat_id := tm_chat_id m;
                   upd_message_id := tm_message_id m;
                   upd_args := args;
                   upd_reply_to := tm_reply_to m |} in
       let r := handle_text_command strptime st m env in
       (command = "/start" \/ command = "/help" -> r = start st u env)
       /\ (command = "/remind" -> r = remind strptime st u env)
       /\ (command = "/list" -> r = list_reminders st u env)
       /\ (command = "/cancel" -> r = cancel st u env)
       /\ (command ∉ ["/start"; "/help"; "/remind"; "/list"; "/cancel"] ->
           r = returned st []).
Proof.
  intros Htext Hent Hslash.
  destruct (Text.strip raw) as [|c text] eqn:Hstrip; [discriminate|].
  simpl in Hslash. apply N.eqb_eq in Hslash.
  assert (Text.is_space c = false) as Hc.
  { unfold Text.is_space. rewrite Hslash. reflexivity. }
  destruct (WordsFacts.split_head c text Hc) as (t & ts & Hsplit).
  exists (String c t), ts.
  split; [done|]. split; [simpl; by rewrite Hslash|].
  split; [rewrite <- Hsplit; apply WordsFacts.split_all_ok|].
  intros command u r.
  assert (r = dispatch_command strptime st m env (String c t :: ts)) as ->.
  { unfold r, handle_text_command. rewrite Htext, Hent.
    destruct raw as [|c0 raw']; [discriminate Hstrip|].
    cbn [Text.nonempty negb]. rewrite Hstrip.
    cbn [Words.startswith_slash]. rewrite Hslash. cbn [N.eqb Pos.eqb negb].
    by rewrite Hsplit. }
  unfold dispatch_command. fold command. fold u.
  split; [intros [->| ->]; reflexivity|].
  split; [intros ->; reflexivity|].
  split; [intros ->; reflexivity|].
  split; [intros ->; reflexivity|].
  intros Hnot.
  destruct (String.eqb command "/start") eqn:E1.
  { apply String.eqb_eq in E1. destruct Hnot. rewrite E1. set_solver. }
  destruct (String.eqb command "/help") eqn:E2.
  { apply String.eqb_eq in E2. destruct Hnot. rewrite E2. set_solver. }
  destruct (String.eqb command "/remind") eqn:E3.
  { apply String.eqb_eq in E3. destruct Hnot. rewrite E3. set_solver. }
  destruct (String.eqb command "/list") eqn:E4.
  { apply String.eqb_eq in E4. destruct Hnot. rewrite E4. set_solver. }
  destruct (String.eqb command "/cancel") eqn:E5.
  { apply String.eqb_eq in E5. destruct Hnot. rewrite E5. set_solver. }
  reflexivity.
Qed.

End FallbackFacts.

(** ** The addressee *)

Lemma html_escape_markup_free (s : string) :
  markup_free (Text.html_escape s) = true.
Proof.
  unfold markup_free. induction s as [|c s IH]; [done|].
  cbn [Text.html_escape]. cbv zeta.
  destruct (Text.code c =? 38)%N eqn:E1.
  { rewrite DigitsFacts.all_chars_app. by rewrite IH. }
  destruct (Text.code c =? 60)%N eqn:E2.
  { rewrite DigitsFacts.all_chars_app. by rewrite IH. }
  destruct (Text.code c =? 62)%N eqn:E3.
  { rewrite DigitsFacts.all_chars_app. by rewrite IH. }
  destruct (Text.code c =? 34)%N eqn:E4.
  { rewrite DigitsFacts.all_chars_app. by rewrite IH. }
  destruct (Text.code c =? 39)%N eqn:E5.
  { rewrite DigitsFacts.all_chars_app. by rewrite IH. }
  cbn [Digits.all_chars]. rewrite IH. unfold plain_char.
  by rewrite E2, E3, E4, E5.
Qed.

Lemma html_escape_keeps_at (s : string) :
  Text.startswith_at s = true -> Text.startswith_at (Text.html_escape s) = true.
Proof.
  destruct s as [|c s]; [discriminate|].
  cbn [Text.startswith_at Text.html_escape]. cbv zeta. intros H.
  apply N.eqb_eq in H. rewrite H. cbn [N.eqb Pos.eqb].
  cbn [Text.startswith_at]. by rewrite H.
Qed.

Lemma format_target_mention_plain (fallback : string) :
  markup_free (format_target_mention None fallback) = true
  /\ Text.startswith_at (format_target_mention None fallback) = true.
Proof.
  unfold format_target_mention. split; [apply html_escape_markup_free|].
  apply html_escape_keeps_at.
  destruct (Text.startswith_at (Text.strip fallback)) eqn:E; [done|].
  reflexivity.
Qed.

Lemma remind_mention_plain (target_label : option string) :
  match remind_mention None (fst (normalize_target_label target_label))
          (snd (normalize_target_label target_label)) with
  | None => True
  | Some m => markup_free m = true /\ (m = "всех" \/ Text.startswith_at m = true)
  end.
Proof.
  unfold normalize_target_label.
  destruct target_label as [l|]; [|done].
  destruct (Text.nonempty l) eqn:Hl; [|done]. cbn [negb].
  destruct (String.eqb _ "all" || String.eqb _ "всем").
  - cbn [fst snd remind_mention]. split; [by vm_compute | left; by vm_compute].
  - cbn [fst snd remind_mention]. rewrite Hl.
    destruct (format_target_mention_plain l) as [H1 H2]. by split; [|right].
Qed.

Section AddresseeFacts.

Variable strptime : string -> string -> option datetime.

Lemma remind_target_no_reply (u : Update) tu tl ta :
  upd_reply_to u = None ->
  remind_target strptime u = Ok (Continue (tu, tl, ta)) ->
  tu = None.
Proof.
  intros Hr. unfold remind_target. rewrite Hr.
  destruct (upd_args u) as [|a0 rest]; [discriminate|].
  destruct (parse_duration a0) as [o|e]; cbn [rbind]; [|discriminate].
  destruct (_ || _); [by intros [= <- _ _]|].
  destruct (_ <? _)%nat; [discriminate | by intros [= <- _ _]].
Qed.

(** X20. The addressee of a reminder that is no reply carries no
    markup: it is absent, or the word for everybody, or the label with a
    leading [@], and in no case does it hold an angle bracket or a
    quote. *)
Theorem remind_addressee_is_plain (u : Update) (now : datetime) (rq : Request) :
  upd_reply_to u = None ->
  remind_request strptime u now = Ok (Continue rq) ->
  match rq_mention rq with
  | None => True
  | Some m => markup_free m = true /\ (m = "всех" \/ Text.startswith_at m = true)
  end.
Proof.
  intros Hr. unfold remind_request.
  destruct (remind_target strptime u) as [[[[tu tl] time_args]|text]|e] eqn:Ht;
    [|discriminate..].
  apply (remind_target_no_reply u tu tl time_args Hr) in Ht. subst tu.
  destruct (remind_time strptime now time_args)
    as [[[[due_at consumed] delay]|text]|e]; [|discriminate..].
  destruct (remind_repeat (drop consumed time_args))
    as [[[ri rest]|text]|e]; [|discriminate..].
  pose proof (remind_mention_plain tl) as Hm.
  destruct (normalize_target_label tl) as [tl' is_all].
  intros [= <-]. exact Hm.
Qed.

End AddresseeFacts.

(** ** The further theorems at the scenarios *)

Lemma remind_request_invariants_witness :
  let u := Scenario.command 7 ["2024-12-31"; "18:00"; "every"; "2h"; "party"] in
  let now := Scenario.t0 - 3600000000 in
  let rq := {| rq_mention := None; rq_due_at := Scenario.t0;
               rq_delay := 3600000000; rq_repeat_interval := Some 7200000000;
               rq_text := "party" |} in
  remind_request Strptime.strptime u now = Ok (Continue rq)
  /\ now < rq_due_at rq
  /\ rq_delay rq = rq_due_at rq - now
  /\ 0 < rq_delay rq
  /\ (forall i, rq_repeat_interval rq = Some i -> 0 < i)
  /\ rq_text rq ≠ EmptyString.
Proof.
  intros u now rq.
  assert (remind_request Strptime.strptime u now = Ok (Continue rq)) as H
    by (vm_compute; reflexivity).
  split; [exact H|].
  exact (remind_request_invariants Strptime.strptime u now rq H).
Defined.

Lemma remind_rejected_stores_nothing_witness :
  let st := Scenario.repeating_created in
  let u := Scenario.command 9 ["10m"; "every"] in
  let env := Scenario.reading Scenario.t0 1700000001000 (Sent Scenario.chat 10) in
  remind_request Strptime.strptime u (env_now env) = Ok (Stop Msg.need_interval)
  /\ chat_data (run_state (remind Strptime.strptime st u env)) = chat_data st
  /\ run_calls (remind Strptime.strptime st u env)
     = [reply_text Scenario.chat Msg.need_interval].
Proof.
  intros st u env.
  assert (remind_request Strptime.strptime u (env_now env)
          = Ok (Stop Msg.need_interval)) as H by (vm_compute; reflexivity).
  assert (forall rq, remind_request Strptime.strptime u (env_now env)
                     ≠ Ok (Continue rq)) as Hno.
  { intros rq. rewrite H. discriminate. }
  destruct (remind_rejected_stores_nothing Strptime.strptime st u env Hno)
    as (Hc & _ & Hstop & _).
  split; [exact H|]. split; [exact Hc | exact (Hstop _ H)].
Defined.

Lemma remind_accepted_arms_and_stores_witness :
  let u := Scenario.command 9 ["@bob"; "2h"; "call"] in
  let env := Scenario.reading (Scenario.t0 + 1000000) 1700000001000
               (Sent Scenario.chat 10) in
  let rq := {| rq_mention := Some "@bob"; rq_due_at := 63871272001000000;
               rq_delay := 7200000000; rq_repeat_interval := None;
               rq_text := "call" |} in
  remind_request Strptime.strptime u (env_now env) = Ok (Continue rq)
  /\ Dict.get "-1001-1700000001000" (chat_jobs_of Scenario.two_created Scenario.chat)
     = Some (reminder_info 4 rq)
  /\ (job_trigger <$> job_queue Scenario.two_created !! 4%nat)
     = Some (Once 7200000000).
Proof.
  intros u env rq.
  assert (remind_request Strptime.strptime u (env_now env) = Ok (Continue rq)) as H
    by (vm_compute; reflexivity).
  destruct (remind_accepted_arms_and_stores Strptime.strptime
              Scenario.repeating_created u env rq H) as (Hget & Hjob & _).
  split; [exact H|]. split; [exact Hget|].
  unfold Scenario.two_created. fold u env.
  change (S (next_handle Scenario.repeating_created)) with 4%nat in Hjob.
  by rewrite Hjob.
Defined.

Lemma commands_touch_one_chat_witness :
  let other_chat := {| upd_chat_id := 5; upd_message_id := 1;
                       upd_args := ["10m"; "x"]; upd_reply_to := None |} in
  let st :=
    run_state (remind Strptime.strptime Scenario.two_created other_chat
                 (Scenario.reading Scenario.t0 1700000002000 (Sent 5 2))) in
  let u := {| upd_chat_id := 5; upd_message_id := 3; upd_args := ["all"];
              upd_reply_to := None |} in
  let env := Scenario.reading Scenario.fire_time 1700000601000 (Sent 5 4) in
  Scenario.chat ≠ upd_chat_id u
  /\ length (chat_jobs_of st 5) = 1%nat
  /\ length (chat_jobs_of (run_state (cancel st u env)) 5) = 0%nat
  /\ length (chat_jobs_of (run_state (cancel st u env)) Scenario.chat) = 2%nat.
Proof.
  intros other_chat st u env.
  assert (Scenario.chat ≠ upd_chat_id u) as Hne by (vm_compute; discriminate).
  destruct (commands_touch_one_chat Strptime.strptime st u env Scenario.chat Hne)
    as (_ & _ & Hc).
  split; [exact Hne|]. split; [vm_compute; reflexivity|].
  split; [vm_compute; reflexivity|].
  unfold chat_jobs_of. rewrite Hc. vm_compute. reflexivity.
Defined.

Lemma reachable_registry_well_formed_witness :
  reachable Strptime.strptime Scenario.two_created
  /\ registry_keys_unique Scenario.two_created
  /\ handles_allocated Scenario.two_created.
Proof.
  assert (reachable Strptime.strptime Scenario.two_created) as H.
  { unfold Scenario.two_created, Scenario.repeating_created.
    apply reach_remind, reach_remind, reach_initial. }
  split; [exact H|].
  exact (reachable_registry_well_formed Strptime.strptime Scenario.two_created H).
Defined.

Lemma cancel_known_id_removes_it_witness :
  let st := Scenario.two_created in
  let u := Scenario.command 11 ["-1001-1700000000000"] in
  let env := Scenario.reading Scenario.fire_time 1700000601000 (Sent Scenario.chat 12) in
  let st' := run_state (cancel st u env) in
  Dict.keys (chat_jobs_of st Scenario.chat)
  = ["-1001-1700000000000"; "-1001-1700000001000"]
  /\ Dict.get "-1001-1700000000000" (chat_jobs_of st' Scenario.chat) = None
  /\ Dict.get "-1001-1700000001000" (chat_jobs_of st' Scenario.chat)
     = Dict.get "-1001-1700000001000" (chat_jobs_of st Scenario.chat)
  /\ job_queue st' !! 1%nat = None
  /\ job_queue st' !! 4%nat = job_queue st !! 4%nat
  /\ run_calls (cancel st u env)
     = [reply_html Scenario.chat
          "Отменено: <code>-1001-1700000000000</code> для без адресата."].
Proof.
  intros st u env st'.
  assert (Dict.keys (chat_jobs_of st Scenario.chat)
          = ["-1001-1700000000000"; "-1001-1700000001000"]) as Hkeys
    by (vm_compute; reflexivity).
  assert (upd_args u = ["-1001-1700000000000"]) as H1 by reflexivity.
  assert (Text.lower "-1001-1700000000000" ≠ "all") as H2
    by (vm_compute; discriminate).
  assert (Dict.get "-1001-1700000000000" (chat_jobs_of st (upd_chat_id u))
          = Some {| ri_job := 1; ri_target := None; ri_text := "hi";
                    ri_due_at := 63871265400000000;
                    ri_repeat_interval := Some 3600000000 |}) as H3
    by (vm_compute; reflexivity).
  assert (NoDup (Dict.keys (chat_jobs_of st (upd_chat_id u)))) as H4.
  { change (upd_chat_id u) with Scenario.chat. rewrite Hkeys.
    apply NoDup_cons. split; [|apply NoDup_singleton].
    intros Hin. apply list_elem_of_singleton in Hin. discriminate Hin. }
  assert (1 < next_handle st)%nat as H5 by (vm_compute; lia).
  destruct (cancel_known_id_removes_it st u env "-1001-1700000000000" [] _
              H1 H2 H3 H4 H5) as (Hgone & Hother & Hjob & Hjobs & _ & Hcalls).
  split; [exact Hkeys|]. split; [exact Hgone|].
  split; [apply Hother; discriminate|]. split; [exact Hjob|].
  split; [apply Hjobs; [discriminate | vm_compute; lia]|].
  apply Hcalls. vm_compute. reflexivity.
Defined.

Lemma cancel_without_id_asks_witness :
  let st := Scenario.two_created in
  let u := Scenario.command 11 [] in
  let env := Scenario.reading Scenario.fire_time 1700000601000 (Sent Scenario.chat 12) in
  length (chat_jobs_of st Scenario.chat) = 2%nat
  /\ chat_data (run_state (cancel st u env)) = chat_data st
  /\ run_calls (cancel st u env)
     = [reply_html Scenario.chat
          (Msg.specify_id ["-1001-1700000000000"; "-1001-1700000001000"])].
Proof.
  intros st u env.
  assert (length (chat_jobs_of st (upd_chat_id u)) = 2%nat) as Hlen
    by (vm_compute; reflexivity).
  assert (length (chat_jobs_of st (upd_chat_id u)) ≠ 1%nat) as Hne
    by (rewrite Hlen; discriminate).
  destruct (cancel_without_id_asks st u env eq_refl Hne) as (Hc & _ & Hcalls).
  split; [exact Hlen|]. split; [exact Hc|].
  rewrite Hcalls. vm_compute. reflexivity.
Defined.

Lemma fire_one_shot_delivered_removes_record_witness :
  let st := Scenario.one_shot_created in
  let env := Scenario.reading Scenario.fire_time 1700000601000 (Sent Scenario.chat 9) in
  let r := fire st 1 env in
  Dict.get Scenario.job_id (chat_jobs_of st Scenario.chat) = Some Scenario.one_shot_info
  /\ Dict.get Scenario.job_id (chat_jobs_of (run_state r) Scenario.chat) = None
  /\ job_queue (run_state r) !! 1%nat = None
  /\ run_calls r
     = [send_message Scenario.chat (Msg.reminder None "hi") None].
Proof.
  intros st env r.
  assert (Dict.get Scenario.job_id (chat_jobs_of st Scenario.chat)
          = Some Scenario.one_shot_info) as Hbefore by (vm_compute; reflexivity).
  assert (NoDup (Dict.keys (chat_jobs_of st Scenario.chat))) as Hnd.
  { assert (Dict.keys (chat_jobs_of st Scenario.chat) = [Scenario.job_id]) as ->
      by (vm_compute; reflexivity).
    apply NoDup_singleton. }
  destruct (fire_one_shot_delivered_removes_record st 1
              {| job_callback := cb_send_reminder;
                 job_name := Scenario.job_id;
                 job_data :=
                   ReminderData
                     {| jd_chat_id := Scenario.chat; jd_mention := None;
                        jd_text := "hi"; jd_reply_to := None;
                        jd_due_at := 63871265400000000;
                        jd_repeat_interval := None |};
                 job_trigger := Once 600000000 |}
              {| jd_chat_id := Scenario.chat; jd_mention := None;
                 jd_text := "hi"; jd_reply_to := None;
                 jd_due_at := 63871265400000000;
                 jd_repeat_interval := None |}
              env 600000000 Scenario.chat 9
              ltac:(vm_compute; reflexivity) eq_refl eq_refl eq_refl eq_refl Hnd)
    as (Hcalls & Hgone & _ & Hjob & _).
  split; [exact Hbefore|]. split; [exact Hgone|]. split; [exact Hjob | exact Hcalls].
Defined.

Lemma fire_repeating_delivered_witness :
  let st := Scenario.repeating_created in
  let env := Scenario.reading Scenario.fire_time 1700000601000 (Sent Scenario.chat 9) in
  let st' := run_state (fire st 1 env) in
  0 <= Scenario.fire_time + 3600000000 <= Time.datetime_max
  /\ chat_data st' = chat_data st
  /\ exists j' data',
       job_queue st' !! 1%nat = Some j'
       /\ job_data j' = ReminderData data'
       /\ jd_due_at data' = Scenario.fire_time + 3600000000.
Proof.
  intros st env st'.
  assert (0 <= env_now env + 3600000000 <= Time.datetime_max) as Hrange
    by (vm_compute; split; discriminate).
  destruct (fire_repeating_delivered st 1
              {| job_callback := cb_send_reminder;
                 job_name := Scenario.job_id;
                 job_data :=
                   ReminderData
                     {| jd_chat_id := Scenario.chat; jd_mention := None;
                        jd_text := "hi"; jd_reply_to := None;
                        jd_due_at := 63871265400000000;
                        jd_repeat_interval := Some 3600000000 |};
                 job_trigger := Repeating 3600000000 600000000 |}
              {| jd_chat_id := Scenario.chat; jd_mention := None;
                 jd_text := "hi"; jd_reply_to := None;
                 jd_due_at := 63871265400000000;
                 jd_repeat_interval := Some 3600000000 |}
              env 3600000000 600000000 Scenario.chat 9
              ltac:(vm_compute; reflexivity) eq_refl eq_refl
              ltac:(discriminate) eq_refl eq_refl Hrange)
    as (Hc & j' & data' & Hq & Hd & Hdue & _).
  split; [exact Hrange|]. split; [exact Hc|].
  exists j', data'. by repeat split.
Defined.

Lemma fire_failed_delivery_witness :
  let st := Scenario.one_shot_created in
  let env := Scenario.reading Scenario.fire_time 1700000601000 Failed in
  let r := fire st 1 env in
  env_response env = Failed
  /\ chat_data (run_state r) = chat_data st
  /\ run_outcome r = Raise TelegramError
  /\ job_queue (run_state r) !! 1%nat = None.
Proof.
  intros st env r.
  destruct (fire_failed_delivery st 1
              {| job_callback := cb_send_reminder;
                 job_name := Scenario.job_id;
                 job_data :=
                   ReminderData
                     {| jd_chat_id := Scenario.chat; jd_mention := None;
                        jd_text := "hi"; jd_reply_to := None;
                        jd_due_at := 63871265400000000;
                        jd_repeat_interval := None |};
                 job_trigger := Once 600000000 |}
              {| jd_chat_id := Scenario.chat; jd_mention := None;
                 jd_text := "hi"; jd_reply_to := None;
                 jd_due_at := 63871265400000000;
                 jd_repeat_interval := None |}
              env ltac:(vm_compute; reflexivity) eq_refl eq_refl)
    as (Hc & Ho & Hq).
  split; [reflexivity|]. split; [exact Hc|]. split; [exact Ho | exact Hq].
Defined.

Lemma remind_keeps_creation_order_witness :
  let u := Scenario.command 9 ["@bob"; "2h"; "call"] in
  let env := Scenario.reading (Scenario.t0 + 1000000) 1700000001000
               (Sent Scenario.chat 10) in
  Dict.get "-1001-1700000001000"
    (chat_jobs_of Scenario.repeating_created Scenario.chat) = None
  /\ Dict.keys (chat_jobs_of Scenario.two_created Scenario.chat)
     = ["-1001-1700000000000"; "-1001-1700000001000"].
Proof.
  intros u env.
  assert (Dict.get "-1001-1700000001000"
            (chat_jobs_of Scenario.repeating_created Scenario.chat) = None) as Hnew
    by (vm_compute; reflexivity).
  destruct (remind_keeps_creation_order Strptime.strptime
              Scenario.repeating_created u env
              {| rq_mention := Some "@bob"; rq_due_at := 63871272001000000;
                 rq_delay := 7200000000; rq_repeat_interval := None;
                 rq_text := "call" |}
              ltac:(vm_compute; reflexivity)) as [Happ _].
  destruct (Happ Hnew) as [Hafter _].
  split; [exact Hnew|].
  unfold Scenario.two_created. fold u env.
  change (upd_chat_id u) with Scenario.chat in Hafter.
  rewrite Hafter. vm_compute. reflexivity.
Defined.

Lemma handle_text_command_dispatches_witness :
  let m := {| tm_chat_id := Scenario.chat; tm_message_id := 7;
              tm_text := Some "  /ReMind@MyBot 10m  hi ";
              tm_has_bot_command := false; tm_reply_to := None |} in
  let env := Scenario.reading Scenario.t0 1700000000000 (Sent Scenario.chat 8) in
  Words.split (Text.strip "  /ReMind@MyBot 10m  hi ") = ["/ReMind@MyBot"; "10m"; "hi"]
  /\ handle_text_command Strptime.strptime initial_state m env
     = remind Strptime.strptime initial_state (Scenario.command 7 ["10m"; "hi"]) env.
Proof.
  intros m env.
  destruct (handle_text_command_dispatches Strptime.strptime initial_state m env
              "  /ReMind@MyBot 10m  hi " eq_refl eq_refl
              ltac:(vm_compute; reflexivity))
    as (part0 & args & Hsplit & _ & _ & Hcases).
  assert (Words.split (Text.strip "  /ReMind@MyBot 10m  hi ")
          = ["/ReMind@MyBot"; "10m"; "hi"]) as Hs by (vm_compute; reflexivity).
  split; [exact Hs|].
  rewrite Hs in Hsplit. injection Hsplit as <- <-.
  destruct Hcases as (_ & Hremind & _).
  apply Hremind. vm_compute. reflexivity.
Defined.

Lemma remind_addressee_is_plain_witness :
  let u := Scenario.command 7 ["<b>bob"; "10m"; "x"] in
  let rq := {| rq_mention := Some "@&lt;b&gt;bob";
               rq_due_at := 63871265400000000; rq_delay := 600000000;
               rq_repeat_interval := None; rq_text := "x" |} in
  remind_request Strptime.strptime u Scenario.t0 = Ok (Continue rq)
  /\ markup_free "@&lt;b&gt;bob" = true
  /\ ("@&lt;b&gt;bob" = "всех" \/ Text.startswith_at "@&lt;b&gt;bob" = true).
Proof.
  intros u rq.
  assert (remind_request Strptime.strptime u Scenario.t0 = Ok (Continue rq)) as H
    by (vm_compute; reflexivity).
  split; [exact H|].
  exact (remind_addressee_is_plain Strptime.strptime u Scenario.t0 rq eq_refl H).
Defined.
